(** * ExcaliDash private vault: client-side cryptography and session state

    A shallow embedding of the vault core of the ExcaliDash frontend:

    - [frontend/src/utils/crypto.ts]: hex codec, key derivation, the two
      authenticated-encryption wrappers and the verification digest;
    - the [api] module: the vault requests sent to the backend;
    - [frontend/src/context/VaultContext.tsx]: the [VaultProvider] hooks
      ([lock], [unlock], [setupVault], [changePassword]) and the auto-lock
      timer.

    Byte arrays ([Uint8Array]) are [list byte]; JavaScript strings are
    [string], that is, strings of code units below 256; a rejected promise
    or a thrown exception is the [inr] branch of a result; everything the
    functions read or write besides their arguments (entropy, network,
    timers, React state) lives in one explicit [World] that is threaded
    through the [Async] monad. What the browser provides (text and JSON
    codecs, base64, the primitives behind [crypto.subtle]) is a parameter,
    [WebPlatform]; what the backend does is another, [Backend]. *)

From Stdlib Require Import ZArith NArith List String Ascii Lia Bool.
From Stdlib Require Import Strings.Byte HexadecimalString.
From stdpp Require Import gmap strings list fin_maps.

Import ListNotations.
Open Scope string_scope.
Open Scope list_scope.

(** Uint8Array *)
Abbreviation bytes := (list byte).

(* ===================================================================== *)
(** ** Hex codec ([bytesToHex] / [hexToBytes])                            *)
(* ===================================================================== *)

Module Hex.

(** [Number.prototype.toString(16)] on a non-negative integer. *)
Definition toString16 (n : N) : string :=
  NilZero.string_of_uint (N.to_hex_uint n).

(** [String.prototype.padStart(targetLength, padString)]: the pad string
    is repeated and truncated to the missing length. *)
Fixpoint repeat_string (fill : string) (k : nat) : string :=
  match k with
  | O => ""
  | S k' => fill +:+ repeat_string fill k'
  end.

Definition padStart (targetLength : nat) (padString s : string) : string :=
  let len := String.length s in
  if (targetLength <=? len)%nat then s
  else if String.eqb padString "" then s
  else substring 0 (targetLength - len) (repeat_string padString (targetLength - len)) +:+ s.

(** [(b) => b.toString(16).padStart(2, "0")] *)
Definition byteToHex (b : byte) : string :=
  padStart 2 "0" (toString16 (Byte.to_N b)).

(** [Array.from(bytes).map(...).join("")] *)
Definition bytesToHex (bs : bytes) : string :=
  String.concat "" (map byteToHex bs).

(** White space skipped by [parseInt] (the code units below 256 of
    ECMAScript's WhiteSpace and LineTerminator). *)
Definition isStrWhiteSpace (c : ascii) : bool :=
  let n := nat_of_ascii c in
  ((9 <=? n) && (n <=? 13) || (n =? 32) || (n =? 160))%nat.

Fixpoint trimStart (s : string) : string :=
  match s with
  | String c s' => if isStrWhiteSpace c then trimStart s' else s
  | EmptyString => s
  end.

(** Value of a radix-16 digit, [None] for any other character. *)
Definition hexDigitValue (c : ascii) : option Z :=
  let n := Z.of_nat (nat_of_ascii c) in
  if ((48 <=? n) && (n <=? 57))%Z then Some (n - 48)%Z
  else if ((97 <=? n) && (n <=? 102))%Z then Some (n - 87)%Z
  else if ((65 <=? n) && (n <=? 70))%Z then Some (n - 55)%Z
  else None.

(** The longest prefix of radix-16 digits, most significant first. *)
Fixpoint leadingDigits (s : string) : list Z :=
  match s with
  | String c s' =>
      match hexDigitValue c with
      | Some d => d :: leadingDigits s'
      | None => []
      end
  | EmptyString => []
  end.

Definition digitsValue (ds : list Z) : Z :=
  fold_left (fun acc d => acc * 16 + d)%Z ds 0%Z.

Definition stripHexPrefix (s : string) : string :=
  match s with
  | String "0" (String "x" s') => s'
  | String "0" (String "X" s') => s'
  | _ => s
  end.

(** [parseInt(s, 16)]; [None] is NaN. *)
Definition parseInt16 (s : string) : option Z :=
  let s1 := trimStart s in
  let '(sign, s2) :=
    match s1 with
    | String "-" r => ((-1)%Z, r)
    | String "+" r => (1%Z, r)
    | _ => (1%Z, s1)
    end in
  match leadingDigits (stripHexPrefix s2) with
  | [] => None
  | ds => Some (sign * digitsValue ds)%Z
  end.

(** Storing a number into a [Uint8Array] slot (ToUint8): NaN becomes 0,
    any other integer is reduced modulo 256. *)
Definition byte_of_Z (z : Z) : byte :=
  match Byte.of_N (Z.to_N (z mod 256)%Z) with
  | Some b => b
  | None => x00
  end.

Definition toUint8 (v : option Z) : byte :=
  match v with
  | Some z => byte_of_Z z
  | None => x00
  end.

(** [hex.substr(start, length)] *)
Definition substr (s : string) (start len : nat) : string :=
  substring start len s.

(** [new Uint8Array(hex.length / 2)] truncates the length towards zero;
    the loop fills slot [i] from the two characters at [2 * i]. *)
Definition hexToBytes (hex : string) : bytes :=
  map (fun i => toUint8 (parseInt16 (substr hex (i * 2) 2)))
      (seq 0 (String.length hex / 2)).

Definition isLowerHexChar (c : ascii) : bool :=
  let n := nat_of_ascii c in
  ((48 <=? n) && (n <=? 57) || (97 <=? n) && (n <=? 102))%nat.

Fixpoint isLowerHex (s : string) : bool :=
  match s with
  | String c s' => isLowerHexChar c && isLowerHex s'
  | EmptyString => true
  end.

End Hex.


(* ===================================================================== *)
(** ** The JavaScript runtime the vault runs on                           *)
(* ===================================================================== *)

(** Exceptions and promise rejections seen by the vault code. *)
Inductive JsError : Type :=
  | InvalidAccessError        (* DOMException of crypto.subtle *)
  | OperationError            (* DOMException of crypto.subtle *)
  | NotSupportedError         (* DOMException of crypto.subtle *)
  | DataError                 (* DOMException of crypto.subtle *)
  | InvalidCharacterError     (* DOMException of atob *)
  | SyntaxError               (* JSON.parse, crypto.subtle *)
  | RangeError                (* a call with more arguments than the engine takes *)
  | NetworkError              (* axios: the request got no response *)
  | HttpError (status : nat)  (* axios: response outside 2xx *)
  | Error (message : string). (* new Error(message) *)

(** A settled promise, or the outcome of a call that may throw. *)
Definition Result (A : Type) : Type := (A + JsError)%type.

(** *** CryptoKey objects *)

Inductive KeyUsage : Type :=
  | usage_encrypt | usage_decrypt | usage_sign | usage_verify
  | usage_deriveKey | usage_deriveBits | usage_wrapKey | usage_unwrapKey.

Inductive HashAlgorithm : Type := SHA_1 | SHA_256 | SHA_384 | SHA_512.

Inductive KeyAlgorithm : Type :=
  | alg_PBKDF2
  | alg_AES_GCM (length : N).

(** The attributes of a [CryptoKey] a script can read, and its internal
    [[handle]] slot (the raw key material), which it cannot. *)
Record CryptoKey : Type := mkCryptoKey {
  key_algorithm : KeyAlgorithm;
  key_extractable : bool;
  key_usages : list KeyUsage;
  key_handle : bytes;
}.

#[global] Instance KeyUsage_eq_dec : EqDecision KeyUsage.
Proof. solve_decision. Defined.

#[global] Instance HashAlgorithm_eq_dec : EqDecision HashAlgorithm.
Proof. solve_decision. Defined.

#[global] Instance KeyAlgorithm_eq_dec : EqDecision KeyAlgorithm.
Proof. solve_decision. Defined.

#[global] Instance byte_eq_dec : EqDecision byte.
Proof. intros a b. destruct (Byte.eqb a b) eqn:E.
  - left. now apply Byte.byte_dec_bl.
  - right. intros ->. rewrite Byte.byte_dec_lb in E; congruence.
Defined.

(** *** Drawing payloads *)

(** [{ elements: any[]; appState: any; files: any }], over the runtime's
    type [J] of JSON values. *)
Record DrawingData (J : Type) : Type := mkDrawingData {
  elements : list J;
  appState : J;
  files : J;
}.
Arguments mkDrawingData {J} _ _ _.
Arguments elements {J} _.
Arguments appState {J} _.
Arguments files {J} _.

(** *** Built-ins of the runtime

    The functions the vault calls but does not define: text and JSON
    codecs, base64, and the primitives behind [crypto.subtle]. *)
Class WebPlatform : Type := {
  (** JSON data: the values that [JSON.stringify] / [JSON.parse] exchange.
      A JavaScript value that is no JSON data (undefined, a function, a
      cycle) is not in this type. *)
  JSON : Type;
  JSON_stringify : DrawingData JSON -> string;
  JSON_parse : string -> Result (DrawingData JSON);
  (** [new TextEncoder().encode], [new TextDecoder().decode] *)
  TextEncoder_encode : string -> bytes;
  TextDecoder_decode : bytes -> string;
  (** [String.prototype.isWellFormed]: the string has no lone surrogate
      (the encoder writes U+FFFD for one) *)
  isWellFormed : string -> bool;
  (** the most arguments the engine takes in one call; a longer argument
      list, as a spread of a longer array, throws a RangeError *)
  max_arguments : nat;
  (** [btoa], [atob] on binary strings *)
  btoa : string -> string;
  atob : string -> Result string;
  (** PBKDF2 (hash, password, salt, iterations, output bits) *)
  PBKDF2 : HashAlgorithm -> bytes -> bytes -> N -> N -> bytes;
  (** message digest *)
  digest : HashAlgorithm -> bytes -> bytes;
  (** AES-GCM with a 128-bit tag (key, iv, data) *)
  AES_GCM_encrypt : bytes -> bytes -> bytes -> bytes;
  AES_GCM_decrypt : bytes -> bytes -> bytes -> option bytes;
}.

(** What the proofs rely on about these built-ins: JSON data comes back
    from its text, which is well-formed; well-formed text comes back from
    its UTF-8 bytes; base64 inverts on binary strings; the hash and the key
    derivation have their output lengths; and a ciphertext opens under the
    key and IV that sealed it. *)
Record WebPlatformLaws (P : WebPlatform) : Prop := {
  json_roundtrip : forall d, JSON_parse (JSON_stringify d) = inl d;
  json_well_formed : forall d, isWellFormed (JSON_stringify d) = true;
  utf8_roundtrip : forall s,
    isWellFormed s = true -> TextDecoder_decode (TextEncoder_encode s) = s;
  base64_roundtrip : forall s, atob (btoa s) = inl s;
  pbkdf2_length : forall h pw salt it bits,
    List.length (PBKDF2 h pw salt it bits) = N.to_nat (bits / 8);
  sha256_length : forall d, List.length (digest SHA_256 d) = 32;
  gcm_correct : forall k iv pt,
    List.length k = 32 -> List.length iv = 12 ->
    AES_GCM_decrypt k iv (AES_GCM_encrypt k iv pt) = Some pt;
}.


(** The binary string whose code units are the given bytes. *)
Definition binary_string (bs : bytes) : string := string_of_list_byte bs.

(** [String.fromCharCode(...bytes)]: the spread makes every byte one
    argument of the call, so an array longer than the engine's argument
    limit throws. *)
Definition String_fromCharCode {P : WebPlatform} (bs : bytes) : Result string :=
  if (List.length bs <=? max_arguments)%nat then inl (binary_string bs)
  else inr RangeError.

(** [Uint8Array.from(s, (c) => c.charCodeAt(0))] on binary strings: the
    callback runs once per character, whatever the length. *)
Definition Uint8Array_from_charCodes (s : string) : bytes := list_byte_of_string s.

(** *** crypto.subtle *)

Module SubtleCrypto.
Section SubtleCrypto.
Context {P : WebPlatform}.

Record Pbkdf2Params : Type := mkPbkdf2Params {
  pbkdf2_salt : bytes;
  pbkdf2_iterations : N;
  pbkdf2_hash : HashAlgorithm;
}.

Definition subset_usages (us allowed : list KeyUsage) : bool :=
  forallb (fun u => bool_decide (u ∈ allowed)) us.

Definition has_usage (u : KeyUsage) (k : CryptoKey) : bool :=
  bool_decide (u ∈ key_usages k).

(** [importKey("raw", keyData, "PBKDF2", extractable, usages)] *)
Definition importKey_raw_PBKDF2 (keyData : bytes) (extractable : bool)
    (usages : list KeyUsage) : Result CryptoKey :=
  if negb (subset_usages usages [usage_deriveKey; usage_deriveBits]) then inr SyntaxError
  else if extractable then inr SyntaxError
  else if bool_decide (usages = []) then inr SyntaxError
  else inl (mkCryptoKey alg_PBKDF2 false usages keyData).

(** [importKey("raw", keyData, { name: "AES-GCM" }, extractable, usages)],
    the last step of [deriveKey]. *)
Definition importKey_raw_AES_GCM (keyData : bytes) (extractable : bool)
    (usages : list KeyUsage) : Result CryptoKey :=
  if negb (subset_usages usages
             [usage_encrypt; usage_decrypt; usage_wrapKey; usage_unwrapKey])
  then inr SyntaxError
  else
    let bits := (N.of_nat (List.length keyData) * 8)%N in
    if negb (bool_decide (bits ∈ [128; 192; 256]%N)) then inr DataError
    else if bool_decide (usages = []) then inr SyntaxError
    else inl (mkCryptoKey (alg_AES_GCM bits) extractable usages keyData).

(** [deriveKey({ name: "PBKDF2", salt, iterations, hash }, baseKey,
    { name: "AES-GCM", length }, extractable, usages)] *)
Definition deriveKey_PBKDF2_AES_GCM (params : Pbkdf2Params) (baseKey : CryptoKey)
    (length : N) (extractable : bool) (usages : list KeyUsage) : Result CryptoKey :=
  if negb (bool_decide (key_algorithm baseKey = alg_PBKDF2)) then inr InvalidAccessError
  else if negb (has_usage usage_deriveKey baseKey) then inr InvalidAccessError
  else if negb (bool_decide (length ∈ [128; 192; 256]%N)) then inr OperationError
  else if (pbkdf2_iterations params =? 0)%N then inr OperationError
  else
    importKey_raw_AES_GCM
      (PBKDF2 (pbkdf2_hash params) (key_handle baseKey) (pbkdf2_salt params)
              (pbkdf2_iterations params) length)
      extractable usages.

(** [encrypt({ name: "AES-GCM", iv }, key, data)] *)
Definition encrypt_AES_GCM (iv : bytes) (key : CryptoKey) (data : bytes) : Result bytes :=
  match key_algorithm key with
  | alg_AES_GCM _ =>
      if negb (has_usage usage_encrypt key) then inr InvalidAccessError
      else inl (AES_GCM_encrypt (key_handle key) iv data)
  | _ => inr InvalidAccessError
  end.

(** [decrypt({ name: "AES-GCM", iv }, key, data)]: every failure of the
    cipher, whatever its cause, is the one [OperationError]. *)
Definition decrypt_AES_GCM (iv : bytes) (key : CryptoKey) (data : bytes) : Result bytes :=
  match key_algorithm key with
  | alg_AES_GCM _ =>
      if negb (has_usage usage_decrypt key) then inr InvalidAccessError
      else match AES_GCM_decrypt (key_handle key) iv data with
           | Some plaintext => inl plaintext
           | None => inr OperationError
           end
  | _ => inr InvalidAccessError
  end.

(** [digest("SHA-256", data)] *)
Definition digest_SHA_256 (data : bytes) : Result bytes :=
  inl (digest SHA_256 data).

Inductive KeyFormat : Type := format_raw | format_jwk | format_pkcs8 | format_spki.

(** [exportKey(format, key)]: the extractable attribute is checked before
    anything is exported. *)
Definition exportKey (format : KeyFormat) (key : CryptoKey) : Result bytes :=
  match key_algorithm key with
  | alg_PBKDF2 => inr NotSupportedError
  | alg_AES_GCM _ =>
      if negb (key_extractable key) then inr InvalidAccessError
      else match format with
           | format_raw | format_jwk => inl (key_handle key)
           | _ => inr NotSupportedError
           end
  end.

(** [wrapKey(format, key, wrappingKey, { name: "AES-GCM", iv })]: the key
    is exported as for [exportKey] and the export is encrypted. *)
Definition wrapKey_AES_GCM (format : KeyFormat) (key wrappingKey : CryptoKey)
    (iv : bytes) : Result bytes :=
  match key_algorithm wrappingKey with
  | alg_AES_GCM _ =>
      if negb (has_usage usage_wrapKey wrappingKey) then inr InvalidAccessError
      else match exportKey format key with
           | inl exported => inl (AES_GCM_encrypt (key_handle wrappingKey) iv exported)
           | inr e => inr e
           end
  | _ => inr InvalidAccessError
  end.

(** The operations of [crypto.subtle] whose result is made of a key's
    material. *)
Inductive Extraction : Type :=
  | Export (format : KeyFormat)
  | Wrap (format : KeyFormat) (wrappingKey : CryptoKey) (iv : bytes).

Definition extract (op : Extraction) (key : CryptoKey) : Result bytes :=
  match op with
  | Export format => exportKey format key
  | Wrap format wrappingKey iv => wrapKey_AES_GCM format key wrappingKey iv
  end.

End SubtleCrypto.
End SubtleCrypto.

(* ===================================================================== *)
(** ** The browser tab: backend, entropy, timers and React hook cells     *)
(* ===================================================================== *)

Inductive Method : Type := GET | POST | PUT.

(** An axios request; the JSON bodies of the vault API are flat objects
    with string fields, kept in the order they are written. *)
Record Request : Type := mkRequest {
  req_method : Method;
  req_path : string;
  req_body : list (string * string);
}.

(** [VaultStatus] and [VaultVerifyResult] of [types/index.ts]. *)
Record VaultStatus : Type := mkVaultStatus {
  status_isSetup : bool;
  status_salt : option string;
  status_hint : option string;
  status_privateDrawingsCount : option nat;
}.

Record VaultVerifyResult : Type := mkVaultVerifyResult {
  verify_success : bool;
  verify_salt : string;
}.

(** [response.data] *)
Inductive ResponseData : Type :=
  | data_status (s : VaultStatus)
  | data_verify (r : VaultVerifyResult)
  | data_other.

(** The backend is an external collaborator: any state type and any
    handler. A handler answers with data (2xx) or with an [HttpError]. *)
Class Backend : Type := {
  ServerState : Type;
  serve : Request -> ServerState -> Result ResponseData * ServerState;
}.

(** [VaultState] of [VaultContext.tsx]. *)
Record VaultState : Type := mkVaultState {
  isSetup : bool;
  isUnlocked : bool;
  isLoading : bool;
  passwordHint : option string;
  privateDrawingsCount : nat;
}.

Module Runtime.
Section Runtime.
Context {B : Backend}.

Record World : Type := mkWorld {
  entropy : nat -> byte; (* crypto.getRandomValues: the bytes it will hand out *)
  drawn : nat; (* ... and how many were handed out so far *)
  online : bool; (* whether requests reach the backend *)
  server : ServerState; (* the backend behind the API *)
  sent : list Request; (* requests issued so far, oldest first *)
  clock : Z; (* current time in milliseconds *)
  timers : gmap positive Z; (* pending setTimeout handles and their deadlines *)
  next_timer : positive; (* next handle setTimeout returns *)
  console : list (string * JsError); (* console.error lines *)
  state : VaultState; (* useState<VaultState> *)
  sessionKey : option CryptoKey; (* useState<CryptoKey | null> *)
  salt : option bytes; (* useState<Uint8Array | null> *)
  autoLockTimer : option positive; (* useRef: autoLockTimer.current *)
  effectDeps : bool; (* state.isUnlocked of the render whose effect is mounted *)
}.

(** Field updates. *)
Definition set_entropy (v : nat -> byte) (w : World) : World :=
  mkWorld v (drawn w) (online w) (server w) (sent w) (clock w) (timers w)
    (next_timer w) (console w) (state w) (sessionKey w) (salt w)
    (autoLockTimer w) (effectDeps w).

Definition set_drawn (v : nat) (w : World) : World :=
  mkWorld (entropy w) v (online w) (server w) (sent w) (clock w) (timers w)
    (next_timer w) (console w) (state w) (sessionKey w) (salt w)
    (autoLockTimer w) (effectDeps w).

Definition set_online (v : bool) (w : World) : World :=
  mkWorld (entropy w) (drawn w) v (server w) (sent w) (clock w) (timers w)
    (next_timer w) (console w) (state w) (sessionKey w) (salt w)
    (autoLockTimer w) (effectDeps w).

Definition set_server (v : ServerState) (w : World) : World :=
  mkWorld (entropy w) (drawn w) (online w) v (sent w) (clock w) (timers w)
    (next_timer w) (console w) (state w) (sessionKey w) (salt w)
    (autoLockTimer w) (effectDeps w).

Definition set_sent (v : list Request) (w : World) : World :=
  mkWorld (entropy w) (drawn w) (online w) (server w) v (clock w) (timers w)
    (next_timer w) (console w) (state w) (sessionKey w) (salt w)
    (autoLockTimer w) (effectDeps w).

Definition set_clock (v : Z) (w : World) : World :=
  mkWorld (entropy w) (drawn w) (online w) (server w) (sent w) v (timers w)
    (next_timer w) (console w) (state w) (sessionKey w) (salt w)
    (autoLockTimer w) (effectDeps w).

Definition set_timers (v : gmap positive Z) (w : World) : World :=
  mkWorld (entropy w) (drawn w) (online w) (server w) (sent w) (clock w) v
    (next_timer w) (console w) (state w) (sessionKey w) (salt w)
    (autoLockTimer w) (effectDeps w).

Definition set_next_timer (v : positive) (w : World) : World :=
  mkWorld (entropy w) (drawn w) (online w) (server w) (sent w) (clock w)
    (timers w) v (console w) (state w) (sessionKey w) (salt w)
    (autoLockTimer w) (effectDeps w).

Definition set_console (v : list (string * JsError)) (w : World) : World :=
  mkWorld (entropy w) (drawn w) (online w) (server w) (sent w) (clock w)
    (timers w) (next_timer w) v (state w) (sessionKey w) (salt w)
    (autoLockTimer w) (effectDeps w).

Definition set_state (v : VaultState) (w : World) : World :=
  mkWorld (entropy w) (drawn w) (online w) (server w) (sent w) (clock w)
    (timers w) (next_timer w) (console w) v (sessionKey w) (salt w)
    (autoLockTimer w) (effectDeps w).

Definition set_sessionKey (v : option CryptoKey) (w : World) : World :=
  mkWorld (entropy w) (drawn w) (online w) (server w) (sent w) (clock w)
    (timers w) (next_timer w) (console w) (state w) v (salt w)
    (autoLockTimer w) (effectDeps w).

Definition set_salt (v : option bytes) (w : World) : World :=
  mkWorld (entropy w) (drawn w) (online w) (server w) (sent w) (clock w)
    (timers w) (next_timer w) (console w) (state w) (sessionKey w) v
    (autoLockTimer w) (effectDeps w).

Definition set_autoLockTimer (v : option positive) (w : World) : World :=
  mkWorld (entropy w) (drawn w) (online w) (server w) (sent w) (clock w)
    (timers w) (next_timer w) (console w) (state w) (sessionKey w) (salt w)
    v (effectDeps w).

Definition set_effectDeps (v : bool) (w : World) : World :=
  mkWorld (entropy w) (drawn w) (online w) (server w) (sent w) (clock w)
    (timers w) (next_timer w) (console w) (state w) (sessionKey w) (salt w)
    (autoLockTimer w) v.

(** Asynchronous code: reads and writes the world and settles with a
    value or a rejection. *)
Definition Async (A : Type) : Type := World -> Result A * World.

Definition ret {A} (a : A) : Async A := fun w => (inl a, w).

Definition bind {A C} (m : Async A) (k : A -> Async C) : Async C :=
  fun w => match m w with
           | (inl a, w') => k a w'
           | (inr e, w') => (inr e, w')
           end.

Definition throw {A} (e : JsError) : Async A := fun w => (inr e, w).

(** [await] of a promise that is already settled *)
Definition await {A} (r : Result A) : Async A := fun w => (r, w).

(** [try { m } catch (error) { handler(error) }] *)
Definition try_catch {A} (m : Async A) (handler : JsError -> Async A) : Async A :=
  fun w => match m w with
           | (inl a, w') => (inl a, w')
           | (inr e, w') => handler e w'
           end.

Definition get {A} (f : World -> A) : Async A := fun w => (inl (f w), w).
Definition modify (f : World -> World) : Async unit := fun w => (inl tt, f w).

(** The next [n] bytes of entropy. *)
Definition fresh_bytes (n : nat) (w : World) : bytes :=
  map (entropy w) (seq (drawn w) n).

(** [crypto.getRandomValues(new Uint8Array(n))] *)
Definition getRandomValues (n : nat) : Async bytes :=
  fun w => (inl (fresh_bytes n w), set_drawn (drawn w + n) w).

(** An axios call: the request is issued; offline it is rejected without
    reaching the backend, online the backend answers. *)
Definition http (req : Request) : Async ResponseData :=
  fun w =>
    let w1 := set_sent (sent w ++ [req]) w in
    if online w1 then
      let '(r, s') := serve req (server w1) in (r, set_server s' w1)
    else (inr NetworkError, w1).

(** [setTimeout(callback, delay)]. The one callback the vault ever
    schedules is [() => { lock(); }], so a pending timer is its handle and
    its deadline. Browser handles are positive integers. *)
Definition setTimeout (delay : Z) : Async positive :=
  fun w =>
    let id := next_timer w in
    (inl id, set_next_timer (Pos.succ id)
               (set_timers (<[id := (clock w + delay)%Z]> (timers w)) w)).

(** [clearTimeout(id)] *)
Definition clearTimeout (id : positive) : Async unit :=
  modify (fun w => set_timers (delete id (timers w)) w).

(** [console.error(message, error)] *)
Definition console_error (message : string) (e : JsError) : Async unit :=
  modify (fun w => set_console (console w ++ [(message, e)]) w).

End Runtime.
End Runtime.

Export Runtime.

Declare Scope async_scope.
Delimit Scope async_scope with async.
Notation "x <- m ;; k" := (bind m (fun x => k))
  (at level 100, m at next level, right associativity) : async_scope.
Notation "m ;;; k" := (bind m (fun _ => k))
  (at level 100, right associativity) : async_scope.
Open Scope async_scope.

(* ===================================================================== *)
(** ** [frontend/src/utils/crypto.ts]                                     *)
(* ===================================================================== *)

Module Crypto.

Definition PBKDF2_ITERATIONS : N := 100000.
Definition SALT_LENGTH : nat := 16.  (* 128 bits *)
Definition IV_LENGTH : nat := 12.    (* 96 bits *)
Definition KEY_LENGTH : N := 256.    (* AES-256 *)

(** [{ encryptedData: string; iv: string }] *)
Record EncryptedDrawing : Type := mkEncryptedDrawing {
  encryptedData : string;
  iv : string;
}.

Section Crypto.
Context {P : WebPlatform} {B : Backend}.

Definition generateSalt : Async bytes := getRandomValues SALT_LENGTH.

Definition generateIV : Async bytes := getRandomValues IV_LENGTH.

Definition bytesToHex : bytes -> string := Hex.bytesToHex.
Definition hexToBytes : string -> bytes := Hex.hexToBytes.

Definition deriveKey (password : string) (salt : bytes) : Async CryptoKey :=
  passwordKey <- await (SubtleCrypto.importKey_raw_PBKDF2
                          (TextEncoder_encode password) false
                          [usage_deriveBits; usage_deriveKey]) ;;
  let saltBuffer := salt in
  await (SubtleCrypto.deriveKey_PBKDF2_AES_GCM
           (SubtleCrypto.mkPbkdf2Params saltBuffer PBKDF2_ITERATIONS SHA_256)
           passwordKey
           KEY_LENGTH
           false (* Not extractable *)
           [usage_encrypt; usage_decrypt]).

Definition encryptDrawing (data : DrawingData JSON) (key : CryptoKey)
  : Async EncryptedDrawing :=
  iv <- generateIV ;;
  let plaintext := TextEncoder_encode (JSON_stringify data) in
  let ivBuffer := iv in
  ciphertext <- await (SubtleCrypto.encrypt_AES_GCM ivBuffer key plaintext) ;;
  binary <- await (String_fromCharCode ciphertext) ;;
  ret (mkEncryptedDrawing (btoa binary) (bytesToHex iv)).

Definition decryptDrawing (encryptedData iv : string) (key : CryptoKey)
  : Async (DrawingData JSON) :=
  binary <- await (atob encryptedData) ;;
  let ciphertext := Uint8Array_from_charCodes binary in
  let ivBytes := hexToBytes iv in
  let ivBuffer := ivBytes in
  plaintext <- await (SubtleCrypto.decrypt_AES_GCM ivBuffer key ciphertext) ;;
  await (JSON_parse (TextDecoder_decode plaintext)).


Definition decryptString (encrypted : string) (key : CryptoKey) : Async string :=
  binary <- await (atob encrypted) ;;
  let combined := Uint8Array_from_charCodes binary in
  (* Extract IV and ciphertext *)
  let iv := firstn IV_LENGTH combined in
  let ciphertext := skipn IV_LENGTH combined in
  let ivBuffer := iv in
  plaintext <- await (SubtleCrypto.decrypt_AES_GCM ivBuffer key ciphertext) ;;
  ret (TextDecoder_decode plaintext).

Definition hashPassword (password : string) : Async string :=
  let data := TextEncoder_encode password in
  hashBuffer <- await (SubtleCrypto.digest_SHA_256 data) ;;
  ret (bytesToHex hashBuffer).

End Crypto.
End Crypto.

(* ===================================================================== *)
(** ** The vault requests of the [api] module                             *)
(* ===================================================================== *)

Module Api.
Section Api.
Context {B : Backend}.

(** [response.data] read at type [VaultStatus] / [VaultVerifyResult]; on
    a body of another shape every field reads as undefined. *)
Definition as_status (d : ResponseData) : VaultStatus :=
  match d with
  | data_status s => s
  | _ => mkVaultStatus false None None None
  end.

Definition as_verify (d : ResponseData) : VaultVerifyResult :=
  match d with
  | data_verify r => r
  | _ => mkVaultVerifyResult false ""
  end.

(** An undefined field is left out of the JSON body. *)
Definition optional_field (name : string) (v : option string) : list (string * string) :=
  match v with
  | Some s => [(name, s)]
  | None => []
  end.

Definition getVaultStatus : Async VaultStatus :=
  response <- http (mkRequest GET "/vault/status" []) ;;
  ret (as_status response).

Definition setupVault (passwordHash salt : string) (hint : option string) : Async unit :=
  http (mkRequest POST "/vault/setup"
          ([("passwordHash", passwordHash); ("salt", salt)]
             ++ optional_field "hint" hint)) ;;;
  ret tt.

Definition verifyVaultPassword (password : string) : Async VaultVerifyResult :=
  response <- http (mkRequest POST "/vault/verify" [("password", password)]) ;;
  ret (as_verify response).

Definition updateVaultHint (hint : string) : Async unit :=
  http (mkRequest PUT "/vault/hint" [("hint", hint)]) ;;;
  ret tt.

(** The two keys are accepted and never used. *)
Definition changeVaultPassword (newPasswordHash newSalt : string)
    (_oldKey _newKey : CryptoKey) : Async unit :=
  (* Note: The actual re-encryption of drawings happens client-side
     This endpoint just updates the password hash and salt *)
  http (mkRequest PUT "/vault/password"
          [("passwordHash", newPasswordHash); ("salt", newSalt)]) ;;;
  ret tt.

Definition lockDrawing (id encryptedData iv : string) : Async unit :=
  http (mkRequest PUT ("/drawings/" +:+ id +:+ "/lock")
          [("encryptedData", encryptedData); ("iv", iv)]) ;;;
  ret tt.

End Api.
End Api.

(* ===================================================================== *)
(** ** [frontend/src/context/VaultContext.tsx]                            *)
(* ===================================================================== *)

Module VaultContext.

(** Auto-lock timeout in milliseconds (15 minutes) *)
Definition AUTO_LOCK_TIMEOUT : Z := 15 * 60 * 1000.

(** [useState<VaultState>] initial value *)
Definition initialState : VaultState := mkVaultState false false true None 0.

(** [x || null] on an optional string *)
Definition or_null (x : option string) : option string :=
  match x with
  | Some s => if String.eqb s "" then None else Some s
  | None => None
  end.

Section VaultContext.
Context {P : WebPlatform} {B : Backend}.

Definition setState (f : VaultState -> VaultState) : Async unit :=
  modify (fun w => set_state (f (state w)) w).
Definition setSessionKey (k : option CryptoKey) : Async unit :=
  modify (set_sessionKey k).
Definition setSalt (s : option bytes) : Async unit :=
  modify (set_salt s).

(** [prev => ({ ...prev, isUnlocked: b })] and the like *)
Definition with_isUnlocked (b : bool) (prev : VaultState) : VaultState :=
  mkVaultState (isSetup prev) b (isLoading prev) (passwordHint prev)
               (privateDrawingsCount prev).
Definition with_isLoading (b : bool) (prev : VaultState) : VaultState :=
  mkVaultState (isSetup prev) (isUnlocked prev) b (passwordHint prev)
               (privateDrawingsCount prev).
Definition with_passwordHint (h : option string) (prev : VaultState) : VaultState :=
  mkVaultState (isSetup prev) (isUnlocked prev) (isLoading prev) h
               (privateDrawingsCount prev).

(** Lock the vault *)
Definition lock : Async unit :=
  setSessionKey None ;;;
  setState (with_isUnlocked false) ;;;
  current <- get autoLockTimer ;;
  match current with
  | Some id =>
      clearTimeout id ;;;
      modify (set_autoLockTimer None)
  | None => ret tt
  end.

(** Reset auto-lock timer on activity. [isUnlocked_of_render] is the
    [state.isUnlocked] the callback closed over: the value of the render
    that created it. *)
Definition resetAutoLockTimer (isUnlocked_of_render : bool) : Async unit :=
  current <- get autoLockTimer ;;
  match current with
  | Some id => clearTimeout id
  | None => ret tt
  end ;;;
  if isUnlocked_of_render then
    id <- setTimeout AUTO_LOCK_TIMEOUT ;;
    modify (set_autoLockTimer (Some id))
  else ret tt.

(** The activity effect, [useEffect(..., [state.isUnlocked,
    resetAutoLockTimer])]. Listeners are registered exactly while an
    effect created with [state.isUnlocked = true] is mounted, which
    [effectDeps] records. *)
Definition effect_setup (isUnlocked_of_render : bool) : Async unit :=
  if isUnlocked_of_render then resetAutoLockTimer isUnlocked_of_render
  else ret tt.

Definition effect_cleanup (isUnlocked_of_render : bool) : Async unit :=
  if isUnlocked_of_render then
    current <- get autoLockTimer ;;
    match current with
    | Some id => clearTimeout id
    | None => ret tt
    end
  else ret tt.

(** A render commits: when [state.isUnlocked] differs from the mounted
    effect's dependency, the old effect is cleaned up and the new one
    runs. *)
Definition commit : Async unit :=
  now_unlocked <- get (fun w => isUnlocked (state w)) ;;
  mounted <- get effectDeps ;;
  if Bool.eqb now_unlocked mounted then ret tt
  else
    effect_cleanup mounted ;;;
    effect_setup now_unlocked ;;;
    modify (set_effectDeps now_unlocked).

(** [handleActivity], called by the window listeners of the mounted
    effect. *)
Definition handleActivity : Async unit :=
  mounted <- get effectDeps ;;
  if mounted then resetAutoLockTimer mounted else ret tt.

(** Check vault status on mount *)
Definition checkVaultStatus : Async unit :=
  try_catch
    (setState (with_isLoading true) ;;;
     status <- Api.getVaultStatus ;;
     setState (fun prev =>
       mkVaultState (status_isSetup status) (isUnlocked prev) false
                    (or_null (status_hint status))
                    (default 0 (status_privateDrawingsCount status))) ;;;
     match or_null (status_salt status) with
     | Some s => setSalt (Some (Crypto.hexToBytes s))
     | None => ret tt
     end)
    (fun error =>
       console_error "Failed to check vault status:" error ;;;
       setState (with_isLoading false)).

(** Unlock the vault with password *)
Definition unlock (password : string) : Async bool :=
  isUnlocked_of_render <- get (fun w => isUnlocked (state w)) ;;
  try_catch
    ((* Hash the password the same way we did during setup *)
     passwordHash <- Crypto.hashPassword password ;;
     (* First verify the password with the server *)
     result <- Api.verifyVaultPassword passwordHash ;;
     if negb (verify_success result) then ret false
     else
       (* Derive the encryption key client-side *)
       let saltBytes := Crypto.hexToBytes (verify_salt result) in
       key <- Crypto.deriveKey password saltBytes ;;
       setSalt (Some saltBytes) ;;;
       setSessionKey (Some key) ;;;
       setState (with_isUnlocked true) ;;;
       resetAutoLockTimer isUnlocked_of_render ;;;
       ret true)
    (fun error =>
       console_error "Failed to unlock vault:" error ;;;
       ret false).

(** Setup the vault with initial password *)
Definition setupVault (password : string) (hint : option string) : Async unit :=
  isUnlocked_of_render <- get (fun w => isUnlocked (state w)) ;;
  try_catch
    ((* Generate a new salt *)
     newSalt <- Crypto.generateSalt ;;
     let saltHex := Crypto.bytesToHex newSalt in
     (* Hash the password for server storage *)
     passwordHash <- Crypto.hashPassword password ;;
     (* Create vault on server *)
     Api.setupVault passwordHash saltHex hint ;;;
     (* Derive the encryption key *)
     key <- Crypto.deriveKey password newSalt ;;
     setSalt (Some newSalt) ;;;
     setSessionKey (Some key) ;;;
     setState (fun prev =>
       mkVaultState true true (isLoading prev) (or_null hint)
                    (privateDrawingsCount prev)) ;;;
     resetAutoLockTimer isUnlocked_of_render)
    (fun error =>
       console_error "Failed to setup vault:" error ;;;
       throw error).

(** Change vault password (requires re-encrypting all private drawings) *)
Definition changePassword (oldPassword newPassword : string) : Async unit :=
  try_catch
    ((* Hash the old password the same way we did during setup *)
     oldPasswordHash <- Crypto.hashPassword oldPassword ;;
     (* Verify old password first *)
     verifyResult <- Api.verifyVaultPassword oldPasswordHash ;;
     if negb (verify_success verifyResult)
     then throw (Error "Invalid current password")
     else
       (* Derive old key for decryption *)
       let oldSalt := Crypto.hexToBytes (verify_salt verifyResult) in
       oldKey <- Crypto.deriveKey oldPassword oldSalt ;;
       (* Generate new salt and derive new key *)
       newSalt <- Crypto.generateSalt ;;
       let newSaltHex := Crypto.bytesToHex newSalt in
       newKey <- Crypto.deriveKey newPassword newSalt ;;
       newPasswordHash <- Crypto.hashPassword newPassword ;;
       (* Re-encrypt all private drawings *)
       Api.changeVaultPassword newPasswordHash newSaltHex oldKey newKey ;;;
       (* Update local state *)
       setSalt (Some newSalt) ;;;
       setSessionKey (Some newKey))
    (fun error =>
       console_error "Failed to change password:" error ;;;
       throw error).

(** Update password hint *)
Definition updateHint (hint : string) : Async unit :=
  try_catch
    (Api.updateVaultHint hint ;;;
     setState (with_passwordHint (Some hint)))
    (fun error =>
       console_error "Failed to update hint:" error ;;;
       throw error).

End VaultContext.
End VaultContext.

(* ===================================================================== *)
(** ** The mounted provider as a reactive system                          *)
(* ===================================================================== *)

Module Session.

(** What the UI can ask of the context value. *)
Inductive Call : Type :=
  | call_checkVaultStatus
  | call_lock
  | call_unlock (password : string)
  | call_setupVault (password : string) (hint : option string)
  | call_changePassword (oldPassword newPassword : string)
  | call_updateHint (hint : string).

(** What can happen to the tab. *)
Inductive Event : Type :=
  | ev_call (c : Call)          (* a context function is called and settles *)
  | ev_activity                 (* mousemove, keydown or click on window *)
  | ev_timer (id : positive)    (* a due setTimeout callback runs *)
  | ev_time (ms : Z)            (* time passes *)
  | ev_network (up : bool).     (* connectivity changes *)

Section Session.
Context {P : WebPlatform} {B : Backend}.

(** The tab right after [VaultProvider] is rendered for the first time. *)
Definition initial (rnd : nat -> byte) (up : bool) (s : ServerState) : World :=
  mkWorld rnd 0 up s [] 0%Z ∅ 1%positive [] VaultContext.initialState
          None None None false.

Definition run_call (c : Call) : Async unit :=
  match c with
  | call_checkVaultStatus => VaultContext.checkVaultStatus
  | call_lock => VaultContext.lock
  | call_unlock password => VaultContext.unlock password ;;; ret tt
  | call_setupVault password hint => VaultContext.setupVault password hint
  | call_changePassword o n => VaultContext.changePassword o n
  | call_updateHint hint => VaultContext.updateHint hint
  end.

(** The world an asynchronous computation leaves behind, settled either
    way. *)
Definition after {A} (m : Async A) (w : World) : World := snd (m w).

(** No pending timer is overdue at time [t]: the event loop runs a timer
    callback before time moves past its deadline. *)
Definition none_overdue (t : Z) (w : World) : Prop :=
  map_Forall (fun _ deadline => (t <= deadline)%Z) (timers w).

(** One event. [None]: the event cannot happen in this world (a timer that
    is not pending or not due, time running backwards or past a
    deadline). Every event ends with the render it causes; [Schedule]
    below takes the render as a task of its own. *)
Definition react (e : Event) (w : World) : option World :=
  match e with
  | ev_call c => Some (after VaultContext.commit (after (run_call c) w))
  | ev_activity => Some (after VaultContext.commit (after VaultContext.handleActivity w))
  | ev_timer id =>
      match timers w !! id with
      | Some deadline =>
          if (deadline <=? clock w)%Z then
            let fired := set_timers (delete id (timers w)) w in
            Some (after VaultContext.commit (after VaultContext.lock fired))
          else None
      | None => None
      end
  | ev_time ms =>
      if bool_decide ((0 <= ms)%Z ∧ none_overdue (clock w + ms) w)
      then Some (set_clock (clock w + ms)%Z w)
      else None
  | ev_network up => Some (set_online up w)
  end.

(** Events that bring a password with them. *)
Definition brings_password (e : Event) : bool :=
  match e with
  | ev_call (call_unlock _) => true
  | ev_call (call_setupVault _ _) => true
  | ev_call (call_changePassword _ _) => true
  | _ => false
  end.

Fixpoint run (es : list Event) (w : World) : option World :=
  match es with
  | [] => Some w
  | e :: es' =>
      match react e w with
      | Some w' => run es' w'
      | None => None
      end
  end.

(** Worlds the tab can be in. *)
Inductive reachable : World -> Prop :=
  | reachable_initial rnd up s : reachable (initial rnd up s)
  | reachable_react w e w' : reachable w -> react e w = Some w' -> reachable w'.

End Session.
End Session.

(* ===================================================================== *)
(** ** [UnlockVaultModal]: what the user is told                          *)
(* ===================================================================== *)

Module UnlockVaultModal.
Section UnlockVaultModal.
Context {B : Backend}.

(** [err instanceof Error ? err.message : 'Failed to unlock vault'];
    [message_of] is the runtime's [message] of an exception object. *)
Variable message_of : JsError -> string.

(** [handleSubmit] for the entered [password], with [onUnlock] the prop
    the modal was given; the result is the modal's [error] state
    afterwards ([None] is [null]). *)
Definition handleSubmit (onUnlock : string -> Async bool) (password : string)
    (error : option string) : Async (option string) :=
  if String.eqb password "" then ret error
  else
    try_catch
      (success <- onUnlock password ;;
       if (success : bool) then ret None
       else ret (Some "Incorrect password"))
      (fun err => ret (Some (message_of err))).

End UnlockVaultModal.
End UnlockVaultModal.

(* ===================================================================== *)
(** ** Server vault store                                                 *)
(* ===================================================================== *)

Module VaultStore.

(** Modelled from the spec: the backend routes behind the vault API are
    not part of the sources. Sections 3, 4.3 and 6 of the specification
    give the store: one [VaultRecord] (verification hash, salt, hint) and
    the [EncryptedRecord]s (ciphertext, iv) by drawing id. *)
Record VaultRecord : Type := mkVaultRecord {
  verificationHash : string;
  record_salt : string;
  hint : option string;
}.

Record EncryptedRecord : Type := mkEncryptedRecord {
  ciphertext : string;
  iv : string;
}.

Record Store : Type := mkStore {
  vault : option VaultRecord;
  records : gmap string EncryptedRecord;
}.

(** Field of a JSON body. *)
Fixpoint field (name : string) (body : list (string * string)) : option string :=
  match body with
  | [] => None
  | (n, v) :: rest => if String.eqb n name then Some v else field name rest
  end.

(** The id in ["/drawings/<id>/lock"]. *)
Definition lock_route_id (path : string) : option string :=
  let pre := "/drawings/" in
  let suf := "/lock" in
  let n := String.length path in
  if (String.length pre + String.length suf <=? n)%nat
       && String.eqb (substring 0 (String.length pre) path) pre
       && String.eqb (substring (n - String.length suf) (String.length suf) path) suf
  then Some (substring (String.length pre)
               (n - String.length pre - String.length suf) path)
  else None.

Section VaultStore.

(** The server's own slow hash of the digest it receives. *)
Variable server_hash : string -> string.

(** Modelled from the spec: [getVaultStatus], [createVaultRecord],
    [verifyVaultDigest] (the salt is returned on success only),
    [updateVaultRecord] (verification hash and salt, together),
    [updateHint] and [putEncryptedRecord] of section 6. *)
Definition handle (req : Request) (s : Store) : Result ResponseData * Store :=
  let body := req_body req in
  let path := req_path req in
  match req_method req with
  | GET =>
      if String.eqb path "/vault/status" then
        (inl (data_status
                (mkVaultStatus (bool_decide (is_Some (vault s)))
                               (record_salt <$> vault s)
                               (vault s ≫= hint)
                               (Some (size (records s))))), s)
      else (inr (HttpError 404), s)
  | POST =>
      if String.eqb path "/vault/setup" then
        match vault s, field "passwordHash" body, field "salt" body with
        | None, Some digest, Some salt =>
            (inl data_other,
             mkStore (Some (mkVaultRecord (server_hash digest) salt (field "hint" body)))
                     (records s))
        | _, _, _ => (inr (HttpError 400), s)
        end
      else if String.eqb path "/vault/verify" then
        match vault s, field "password" body with
        | Some v, Some digest =>
            if String.eqb (server_hash digest) (verificationHash v)
            then (inl (data_verify (mkVaultVerifyResult true (record_salt v))), s)
            else (inl (data_verify (mkVaultVerifyResult false "")), s)
        | _, _ => (inr (HttpError 400), s)
        end
      else (inr (HttpError 404), s)
  | PUT =>
      if String.eqb path "/vault/password" then
        match vault s, field "passwordHash" body, field "salt" body with
        | Some v, Some digest, Some salt =>
            (inl data_other,
             mkStore (Some (mkVaultRecord (server_hash digest) salt (hint v)))
                     (records s))
        | _, _, _ => (inr (HttpError 400), s)
        end
      else if String.eqb path "/vault/hint" then
        match vault s, field "hint" body with
        | Some v, Some h =>
            (inl data_other,
             mkStore (Some (mkVaultRecord (verificationHash v) (record_salt v) (Some h)))
                     (records s))
        | _, _ => (inr (HttpError 400), s)
        end
      else
        match lock_route_id path, field "encryptedData" body, field "iv" body with
        | Some id, Some ct, Some iv =>
            (inl data_other,
             mkStore (vault s) (<[id := mkEncryptedRecord ct iv]> (records s)))
        | _, _, _ => (inr (HttpError 404), s)
        end
  end.

Definition backend : Backend := {| ServerState := Store; serve := handle |}.

End VaultStore.
End VaultStore.

(* ===================================================================== *)
(** ** A symbolic runtime                                                 *)
(* ===================================================================== *)

(** A small executable instance of the built-ins, on which the vault code
    can be run: text is Latin-1 (so every string is well-formed), base64 is
    the identity on binary strings, JSON values are booleans, the cipher is
    the symbolic one (a ciphertext names the key and IV that sealed it),
    and a call takes 131072 arguments at most (the engines in use stop
    between 65536 and some 500000). *)
Module Symbolic.

Definition pad_to (n : nat) (bs : bytes) : bytes :=
  firstn n (bs ++ repeat x00 n).

Definition json_char (b : bool) : ascii := if b then "t"%char else "f"%char.

Definition char_json (c : ascii) : Result bool :=
  if Ascii.eqb c "t" then inl true
  else if Ascii.eqb c "f" then inl false
  else inr SyntaxError.

Fixpoint stringify_list (l : list bool) : string :=
  match l with
  | [] => ""
  | b :: l' => String (json_char b) (stringify_list l')
  end.

Fixpoint parse_list (s : string) : Result (list bool) :=
  match s with
  | EmptyString => inl []
  | String c s' =>
      match char_json c, parse_list s' with
      | inl b, inl l => inl (b :: l)
      | inr e, _ => inr e
      | _, inr e => inr e
      end
  end.

Definition stringify (d : DrawingData bool) : string :=
  String (json_char (appState d)) (String (json_char (files d))
    (stringify_list (elements d))).

Definition parse (s : string) : Result (DrawingData bool) :=
  match s with
  | String a (String f rest) =>
      match char_json a, char_json f, parse_list rest with
      | inl a', inl f', inl l => inl (mkDrawingData l a' f')
      | _, _, _ => inr SyntaxError
      end
  | _ => inr SyntaxError
  end.

Definition seal (k iv pt : bytes) : bytes := k ++ iv ++ pt.

Definition open (k iv ct : bytes) : option bytes :=
  if bool_decide (List.length k = 32 ∧ List.length iv = 12
                  ∧ firstn 44 ct = k ++ iv)
  then Some (skipn 44 ct) else None.

Definition platform : WebPlatform := {|
  JSON := bool;
  JSON_stringify := stringify;
  JSON_parse := parse;
  TextEncoder_encode := list_byte_of_string;
  TextDecoder_decode := string_of_list_byte;
  isWellFormed := fun _ => true;
  max_arguments := 2 ^ 17;
  btoa := fun s => s;
  atob := fun s => inl s;
  PBKDF2 := fun _ pw salt _ bits => pad_to (N.to_nat (bits / 8)) (pw ++ salt);
  digest := fun _ d => pad_to 32 d;
  AES_GCM_encrypt := seal;
  AES_GCM_decrypt := open;
|}.

(** The store, with a server hash that is the identity. *)
Definition backend : Backend := VaultStore.backend (fun digest => digest).

(** Entropy that counts up from 0x80 (and is 0x2a once the table is
    used up). *)
Definition entropy_table : bytes :=
  [x80; x81; x82; x83; x84; x85; x86; x87; x88; x89; x8a; x8b;
   x8c; x8d; x8e; x8f; x90; x91; x92; x93; x94; x95; x96; x97;
   x98; x99; x9a; x9b; x9c; x9d; x9e; x9f; xa0; xa1; xa2; xa3;
   xa4; xa5; xa6; xa7; xa8; xa9; xaa; xab; xac; xad; xae; xaf].

Definition counting (i : nat) : byte := nth i entropy_table x2a.

End Symbolic.

(* ===================================================================== *)
(** ** The mounted provider, one task at a time                           *)
(* ===================================================================== *)

Module Schedule.

(** One task of the event loop. A state update made by a context function
    or by the timer's callback is rendered by a later task: until then the
    effect of the previous render is still mounted, with its listeners on
    the window and its [resetAutoLockTimer]. *)
Inductive Task : Type :=
  | task_call (c : Session.Call)  (* a context function is called and settles *)
  | task_activity                 (* mousemove, keydown or click on window *)
  | task_timer (id : positive)    (* a due setTimeout callback runs *)
  | task_render                   (* React renders and runs the effects *)
  | task_time (ms : Z)            (* time passes *)
  | task_network (up : bool).     (* connectivity changes *)

(** [unlock] and [setupVault] are created with the [resetAutoLockTimer] of
    their render, [useCallback(..., [resetAutoLockTimer])]; the forms that
    call them belong to that render. The other functions close over
    nothing that changes. *)
Definition closes_over_render (c : Session.Call) : bool :=
  match c with
  | Session.call_unlock _ => true
  | Session.call_setupVault _ _ => true
  | _ => false
  end.

(** Tasks that bring a password with them. *)
Definition brings_password (t : Task) : bool :=
  match t with
  | task_call (Session.call_unlock _) => true
  | task_call (Session.call_setupVault _ _) => true
  | task_call (Session.call_changePassword _ _) => true
  | _ => false
  end.

Section Schedule.
Context {P : WebPlatform} {B : Backend}.

(** The mounted effect is the one of the current state: nothing is left
    to render. *)
Definition rendered (w : World) : bool :=
  Bool.eqb (effectDeps w) (isUnlocked (state w)).

(** One task. [None]: the task cannot happen in this world (a form of a
    render that is not the current one, a timer that is not pending or
    not due, time running backwards or past a deadline). *)
Definition perform (t : Task) (w : World) : option World :=
  match t with
  | task_call c =>
      if closes_over_render c && negb (rendered w) then None
      else Some (Session.after (Session.run_call c) w)
  | task_activity => Some (Session.after VaultContext.handleActivity w)
  | task_timer id =>
      match timers w !! id with
      | Some deadline =>
          if (deadline <=? clock w)%Z then
            let fired := set_timers (delete id (timers w)) w in
            Some (Session.after VaultContext.lock fired)
          else None
      | None => None
      end
  | task_render => Some (Session.after VaultContext.commit w)
  | task_time ms =>
      if bool_decide ((0 <= ms)%Z ∧ Session.none_overdue (clock w + ms) w)
      then Some (set_clock (clock w + ms)%Z w)
      else None
  | task_network up => Some (set_online up w)
  end.

Fixpoint run (ts : list Task) (w : World) : option World :=
  match ts with
  | [] => Some w
  | t :: ts' =>
      match perform t w with
      | Some w' => run ts' w'
      | None => None
      end
  end.

(** Worlds the tab can be in. *)
Inductive attainable : World -> Prop :=
  | attainable_initial rnd up s : attainable (Session.initial rnd up s)
  | attainable_perform w t w' : attainable w -> perform t w = Some w' -> attainable w'.

End Schedule.
End Schedule.

(* ===================================================================== *)
(** ** [validatePasswordStrength] of [crypto.ts]                          *)
(* ===================================================================== *)

Module PasswordStrength.

(** [{ isValid: boolean; score: number; feedback: string[] }] *)
Record Strength : Type := mkStrength {
  isValid : bool;
  score : nat;  (* 0-4 *)
  feedback : list string;
}.

(** The character classes of the regular expressions. *)
Definition is_lower (c : ascii) : bool :=           (* [a-z] *)
  let n := nat_of_ascii c in ((97 <=? n) && (n <=? 122))%nat.
Definition is_upper (c : ascii) : bool :=           (* [A-Z] *)
  let n := nat_of_ascii c in ((65 <=? n) && (n <=? 90))%nat.
Definition is_digit (c : ascii) : bool :=           (* \d *)
  let n := nat_of_ascii c in ((48 <=? n) && (n <=? 57))%nat.

(** The characters between the brackets of the last expression; the
    double quote is character 34. *)
Definition special_characters : list ascii :=
  list_ascii_of_string "!@#$%^&*(),.?" ++ ["034"%char]
    ++ list_ascii_of_string ":{}|<>".

Definition is_special (c : ascii) : bool :=
  existsb (Ascii.eqb c) special_characters.

(** [/[class]/.test(s)]: some character of [s] is in the class. *)
Definition test (class : ascii -> bool) (s : string) : bool :=
  existsb class (list_ascii_of_string s).

(** The function runs five checks in turn over a score and a feedback
    list; each step below is one [if] of the source. *)
Definition validatePasswordStrength (password : string) : Strength :=
  let feedback : list string := [] in
  let score := 0%nat in
  let '(score, feedback) :=
    if (8 <=? String.length password)%nat then (S score, feedback)
    else (score, feedback ++ ["Password should be at least 8 characters"]) in
  let score :=
    if (12 <=? String.length password)%nat then S score else score in
  let '(score, feedback) :=
    if test is_lower password && test is_upper password then (S score, feedback)
    else (score, feedback ++ ["Include both uppercase and lowercase letters"]) in
  let '(score, feedback) :=
    if test is_digit password then (S score, feedback)
    else (score, feedback ++ ["Include at least one number"]) in
  let '(score, feedback) :=
    if test is_special password then (S score, feedback)
    else (score, feedback ++ ["Include at least one special character"]) in
  mkStrength (8 <=? String.length password)%nat (Nat.min score 4) feedback.

End PasswordStrength.

(* ===================================================================== *)
(** ** The strength meter of the two password forms                      *)
(* ===================================================================== *)

(** [PrivateVaultSetup] and [ChangeVaultPassword] each define the same two
    functions, word for word. *)
Module StrengthMeter.

Definition getStrengthColor (score : nat) : string :=
  if (score <=? 1)%nat then "bg-red-500"
  else if (score =? 2)%nat then "bg-orange-500"
  else if (score =? 3)%nat then "bg-yellow-500"
  else "bg-green-500".

Definition getStrengthText (score : nat) : string :=
  if (score <=? 1)%nat then "Weak"
  else if (score =? 2)%nat then "Fair"
  else if (score =? 3)%nat then "Good"
  else "Strong".

End StrengthMeter.

(* ===================================================================== *)
(** ** [ChangeVaultPassword]                                              *)
(* ===================================================================== *)

Module ChangeVaultPassword.

Definition passwordsMatch (confirmPassword newPassword : string) : bool :=
  String.eqb confirmPassword newPassword.

Definition canSubmit (oldPassword newPassword confirmPassword : string) : bool :=
  (0 <? String.length oldPassword)%nat
  && (0 <? String.length newPassword)%nat
  && passwordsMatch confirmPassword newPassword
  && PasswordStrength.isValid (PasswordStrength.validatePasswordStrength newPassword).

Section ChangeVaultPassword.
Context {B : Backend}.

(** [err instanceof Error ? err.message : 'Failed to change password'];
    [message_of] is the runtime's [message] of an exception object. *)
Variable message_of : JsError -> string.

(** [handleSubmit] over the three fields, with [onChangePassword] the
    prop the form was given; the result is the form's [error] state
    afterwards ([None] is [null]; [handleClose] resets it). *)
Definition handleSubmit (onChangePassword : string -> string -> Async unit)
    (oldPassword newPassword confirmPassword : string) (error : option string)
  : Async (option string) :=
  if negb (canSubmit oldPassword newPassword confirmPassword) then ret error
  else
    try_catch
      (onChangePassword oldPassword newPassword ;;;
       ret None)
      (fun err => ret (Some (message_of err))).

End ChangeVaultPassword.
End ChangeVaultPassword.

(* ===================================================================== *)
(** ** [PrivateVaultSetup]                                                *)
(* ===================================================================== *)

Module PrivateVaultSetup.

Definition passwordsMatch (password confirmPassword : string) : bool :=
  String.eqb password confirmPassword.

Definition canSubmit (password confirmPassword : string) : bool :=
  PasswordStrength.isValid (PasswordStrength.validatePasswordStrength password)
  && passwordsMatch password confirmPassword
  && (0 <? String.length password)%nat.

(** [hint || undefined] *)
Definition or_undefined (hint : string) : option string :=
  if String.eqb hint "" then None else Some hint.

Section PrivateVaultSetup.
Context {B : Backend}.

(** [err instanceof Error ? err.message : 'Failed to set up vault'] *)
Variable message_of : JsError -> string.

(** [handleSubmit] over the form's fields, with [onSetup] the prop the
    form was given; the result is the form's [error] state afterwards. *)
Definition handleSubmit (onSetup : string -> option string -> Async unit)
    (password confirmPassword hint : string) (error : option string)
  : Async (option string) :=
  if negb (canSubmit password confirmPassword) then ret error
  else
    try_catch
      (onSetup password (or_undefined hint) ;;;
       ret None)
      (fun err => ret (Some (message_of err))).

End PrivateVaultSetup.
End PrivateVaultSetup.

(* ===================================================================== *)
(** ** [pages/PrivateDrawings.tsx]: taking a drawing out of the vault     *)
(* ===================================================================== *)

Module Types.

(** [Drawing] with its privacy fields; an absent or [null] field is
    [None]. *)
Record Drawing (J : Type) : Type := mkDrawing {
  id : string;
  name : string;
  elements : list J;
  appState : J;
  files : option J;
  collectionId : option string;
  updatedAt : Z;
  createdAt : Z;
  preview : option string;
  isPrivate : option bool;
  encryptedData : option string;
  iv : option string;
}.
Arguments mkDrawing {J} _ _ _ _ _ _ _ _ _ _ _ _.
Arguments id {J} _.
Arguments name {J} _.
Arguments elements {J} _.
Arguments appState {J} _.
Arguments files {J} _.
Arguments collectionId {J} _.
Arguments updatedAt {J} _.
Arguments createdAt {J} _.
Arguments preview {J} _.
Arguments isPrivate {J} _.
Arguments encryptedData {J} _.
Arguments iv {J} _.

End Types.

Module PrivateDrawings.

(** The page's own hooks: [drawings], [isLoading] and [error]. *)
Record PageState (J : Type) : Type := mkPageState {
  drawings : list (Types.Drawing J);
  isLoading : bool;
  error : option string;
}.
Arguments mkPageState {J} _ _ _.
Arguments drawings {J} _.
Arguments isLoading {J} _.
Arguments error {J} _.

(** The value of an optional string field when it is truthy: present and
    not empty. *)
Definition truthy (v : option string) : option string :=
  match v with
  | Some s => if String.eqb s "" then None else Some s
  | None => None
  end.

Section PrivateDrawings.
Context {P : WebPlatform} {B : Backend}.

(** How axios writes a JSON value, and an array of them, into a request
    body. *)
Variable json_text : JSON -> string.
Variable json_array_text : list JSON -> string.

(** [response.data.map(deserializeDrawing)]: the body of the answer read
    as an array of drawings (a [TypeError] when it is none). *)
Variable drawings_of : ResponseData -> Result (list (Types.Drawing JSON)).

(** [api.getPrivateDrawings] *)
Definition getPrivateDrawings : Async (list (Types.Drawing JSON)) :=
  response <- http (mkRequest GET "/drawings/private" []) ;;
  await (drawings_of response).

(** [api.unlockDrawing] *)
Definition unlockDrawing (id : string) (elements : list JSON)
    (appState files : JSON) (preview : option string) : Async unit :=
  http (mkRequest PUT ("/drawings/" +:+ id +:+ "/unlock")
          ([("elements", json_array_text elements);
            ("appState", json_text appState);
            ("files", json_text files)]
             ++ Api.optional_field "preview" preview)) ;;;
  ret tt.

(** [fetchPrivateDrawings], over the [vault.isUnlocked] and
    [vault.sessionKey] its closure holds and the page's hooks; the result
    is the hooks afterwards. *)
Definition fetchPrivateDrawings (vault_isUnlocked : bool)
    (vault_sessionKey : option CryptoKey) (page : PageState JSON)
  : Async (PageState JSON) :=
  if negb vault_isUnlocked || negb (bool_decide (is_Some vault_sessionKey))
  then ret page
  else
    try_catch
      (privateDrawings <- getPrivateDrawings ;;
       (* For now, just use the stored name (names aren't encrypted yet) *)
       let decryptedDrawings := map (fun drawing => drawing) privateDrawings in
       ret (mkPageState decryptedDrawings false None))
      (fun err =>
         console_error "Failed to fetch private drawings:" err ;;;
         ret (mkPageState (drawings page) false
                (Some "Failed to load private drawings"))).

(** A call that is started and not awaited: what it does to the hooks
    happens, a rejection is nobody's. *)
Definition detached (m : Async (PageState JSON)) (page : PageState JSON)
  : Async (PageState JSON) :=
  fun w => match m w with
           | (inl page', w') => (inl page', w')
           | (inr _, w') => (inl page, w')
           end.

(** [handleRemoveFromVault(id)], called from a render of the page; the
    result is the page's hooks afterwards. *)
Definition handleRemoveFromVault (id : string) (page : PageState JSON)
  : Async (PageState JSON) :=
  vault_isUnlocked <- get (fun w => isUnlocked (state w)) ;;
  vault_sessionKey <- get sessionKey ;;
  match vault_sessionKey with
  | None => ret page
  | Some key =>
      match find (fun d => String.eqb (Types.id d) id) (drawings page) with
      | None => ret page
      | Some drawing =>
          match truthy (Types.encryptedData drawing), truthy (Types.iv drawing) with
          | Some encryptedData, Some iv =>
              try_catch
                ((* Decrypt the drawing data *)
                 decrypted <- Crypto.decryptDrawing encryptedData iv key ;;
                 (* Unlock the drawing (move it out of private vault) *)
                 unlockDrawing id (elements decrypted) (appState decrypted)
                   (files decrypted) None ;;;
                 (* Refresh the list *)
                 detached (fetchPrivateDrawings vault_isUnlocked vault_sessionKey page)
                   page)
                (fun err =>
                   console_error "Failed to remove drawing from vault:" err ;;;
                   ret (mkPageState (drawings page) (isLoading page)
                          (Some "Failed to remove drawing from vault")))
          | _, _ => ret page
          end
      end
  end.

End PrivateDrawings.
End PrivateDrawings.

(* ===================================================================== *)
(** ** Vocabulary of the statements                                       *)
(* ===================================================================== *)

(** A key fit for the vault cipher: AES-GCM over 256 bits of material,
    not extractable, usable for both directions. *)
Definition vault_key (k : CryptoKey) : Prop :=
  key_algorithm k = alg_AES_GCM 256
  /\ key_extractable k = false
  /\ key_usages k = [usage_encrypt; usage_decrypt]
  /\ List.length (key_handle k) = 32.

(** What the hooks and the window hold, apart from entropy, network and
    console. *)
Definition frame {B : Backend} (w w' : World) : Prop :=
  clock w' = clock w /\ timers w' = timers w /\ next_timer w' = next_timer w
  /\ state w' = state w /\ sessionKey w' = sessionKey w /\ salt w' = salt w
  /\ autoLockTimer w' = autoLockTimer w /\ effectDeps w' = effectDeps w.

(** The part of the world the auto-lock timer depends on. *)
Definition timer_frame {B : Backend} (w w' : World) : Prop :=
  clock w' = clock w /\ timers w' = timers w /\ next_timer w' = next_timer w
  /\ autoLockTimer w' = autoLockTimer w /\ effectDeps w' = effectDeps w
  /\ isUnlocked (state w') = isUnlocked (state w).

(** The timer is armed exactly while the vault is unlocked: unlocked, the
    handle in [autoLockTimer] is the one pending timer and it is due within
    the timeout; otherwise nothing is pending. *)
Definition armed {B : Backend} (w : World) : Prop :=
  effectDeps w = isUnlocked (state w)
  /\ if isUnlocked (state w)
     then exists id deadline,
            autoLockTimer w = Some id
            /\ timers w = {[id := deadline]}
            /\ (clock w <= deadline <= clock w + VaultContext.AUTO_LOCK_TIMEOUT)%Z
     else timers w = ∅.

(** The timer of [w'] was set anew at the time of [w]: one pending timer,
    due a full timeout later, in an unlocked vault. *)
Definition rearmed {B : Backend} (w w' : World) : Prop :=
  exists id,
    autoLockTimer w' = Some id
    /\ timers w' = {[id := (clock w + VaultContext.AUTO_LOCK_TIMEOUT)%Z]}
    /\ isUnlocked (state w') = true /\ effectDeps w' = true
    /\ clock w' = clock w.

(** The hex digest [hashPassword] computes for a password, and the
    verification request that carries it. *)
Definition digest_hex {P : WebPlatform} (password : string) : string :=
  Crypto.bytesToHex (digest SHA_256 (TextEncoder_encode password)).

Definition verify_request {P : WebPlatform} (password : string) : Request :=
  mkRequest POST "/vault/verify" [("password", digest_hex password)].

(** Sample data on the symbolic runtime. *)
Module Sample.

Definition salt1 : bytes := map Symbolic.counting (seq 0 16).
Definition salt2 : bytes := map Symbolic.counting (seq 16 16).

(** A tab whose backend has no vault yet. *)
Definition fresh_tab : @World Symbolic.backend :=
  @Session.initial Symbolic.backend Symbolic.counting true
    (VaultStore.mkStore None ∅).

Definition drawing : DrawingData bool := mkDrawingData [true; false; true] false true.


(** The tab after [setupVault("Correct-Horse1", "stable animal")]. *)
Definition setup_call : Session.Call :=
  Session.call_setupVault "Correct-Horse1" (Some "stable animal").

Definition unlocked_tab : @World Symbolic.backend :=
  Eval vm_compute in
    Session.after VaultContext.commit
      (Session.after (Session.run_call (P:=Symbolic.platform) setup_call) fresh_tab).

(** A drawing is sealed under the session key and stored as record
    ["d1"]; then the password is changed. *)
Definition sealed : Result Crypto.EncryptedDrawing * @World Symbolic.backend :=
  Eval vm_compute in
    match sessionKey unlocked_tab with
    | Some key => Crypto.encryptDrawing (P:=Symbolic.platform) drawing key unlocked_tab
    | None => (inr (Error "locked"), unlocked_tab)
    end.

Definition stored_tab : @World Symbolic.backend :=
  Eval vm_compute in
    match sealed with
    | (inl enc, w) =>
        Session.after
          (Api.lockDrawing "d1" (Crypto.encryptedData enc) (Crypto.iv enc)) w
    | (inr _, w) => w
    end.

Definition rekey : Async (B:=Symbolic.backend) unit :=
  VaultContext.changePassword (P:=Symbolic.platform) "Correct-Horse1" "New-Password2".

Definition rekeyed_tab : @World Symbolic.backend :=
  Eval vm_compute in Session.after rekey stored_tab.

(** The vault is locked again and the backend cannot be reached. *)
Definition offline_tab : @World Symbolic.backend :=
  Eval vm_compute in
    set_online false
      (Session.after VaultContext.commit (Session.after VaultContext.lock unlocked_tab)).

End Sample.

(** One point for a check that passes, one message for a check that
    fails. *)
Definition points (b : bool) : nat := if b then 1 else 0.

Definition complaint (b : bool) (message : string) : list string :=
  if b then [] else [message].

(** What lies outside the provider: entropy, network, backend, console. *)
Definition outside_frame {B : Backend} (w w' : World) : Prop :=
  entropy w' = entropy w /\ drawn w' = drawn w /\ online w' = online w
  /\ server w' = server w /\ sent w' = sent w /\ console w' = console w.

(** The three hooks of the provider. *)
Definition session_frame {B : Backend} (w w' : World) : Prop :=
  state w' = state w /\ sessionKey w' = sessionKey w /\ salt w' = salt w.

(** A key that came out of [deriveKey]. *)
Definition derived {P : WebPlatform} {B : Backend} (key : CryptoKey) : Prop :=
  exists password salt0, forall w : World,
    fst (Crypto.deriveKey password salt0 w) = inl key.

(** While the vault is unlocked a key and a salt are held, and a key that
    is held came out of [deriveKey]. *)
Definition holds_key {P : WebPlatform} {B : Backend} (w : World) : Prop :=
  (isUnlocked (state w) = true -> is_Some (sessionKey w) /\ is_Some (salt w))
  /\ (forall key, sessionKey w = Some key -> derived key).

(** Events that need neither the backend nor a password. *)
Definition local_event (e : Session.Event) : bool :=
  match e with
  | Session.ev_call Session.call_lock => true
  | Session.ev_activity => true
  | Session.ev_timer _ => true
  | Session.ev_time _ => true
  | _ => false
  end.

(** The request that takes a drawing out of the vault: its content in
    the clear. *)
Definition unlock_request {P : WebPlatform} (json_text : JSON -> string)
    (json_array_text : list JSON -> string) (id : string) (data : DrawingData JSON)
  : Request :=
  mkRequest PUT ("/drawings/" +:+ id +:+ "/unlock")
    [("elements", json_array_text (elements data));
     ("appState", json_text (appState data));
     ("files", json_text (files data))].



(** From [w] to [w'] the clock stands still and every timer pending
    afterwards was pending before or is due one timeout from now. *)
Definition paced {B : Backend} (w w' : World) : Prop :=
  clock w' = clock w
  /\ forall id deadline,
       timers w' !! id = Some deadline ->
       timers w !! id = Some deadline
       \/ deadline = (clock w + VaultContext.AUTO_LOCK_TIMEOUT)%Z.

(** More sample data on the symbolic runtime. *)
Module Sample2.

(** The message of an exception object. *)
Definition message_of (e : JsError) : string :=
  match e with
  | Error message => message
  | NetworkError => "Network Error"
  | HttpError _ => "Request failed"
  | _ => "The operation failed"
  end.

(** The vault of [Sample.unlocked_tab], locked again, backend in reach. *)
Definition locked_tab : @World Symbolic.backend :=
  Eval vm_compute in
    Session.after VaultContext.commit (Session.after VaultContext.lock Sample.unlocked_tab).

(** What the backend answers when asked to verify "Correct-Horse1". *)
Definition accepted : ResponseData :=
  Eval vm_compute in
    match fst (http (verify_request (P:=Symbolic.platform) "Correct-Horse1") locked_tab) with
    | inl d => d
    | inr _ => data_other
    end.

Definition json_text (b : bool) : string := if b then "true" else "false".

Definition json_array_text (l : list bool) : string := Symbolic.stringify_list l.

(** The symbolic backend serves no drawing lists. *)
Definition drawings_of (d : ResponseData) : Result (list (Types.Drawing bool)) :=
  inr (Error "response.data.map is not a function").

(** The drawing sealed in [Sample.sealed], as the page lists it. *)
Definition private_drawing : Types.Drawing bool :=
  Eval vm_compute in
    match fst Sample.sealed with
    | inl enc =>
        Types.mkDrawing "d1" "Sketch" [] false None None 0 0 None (Some true)
          (Some (Crypto.encryptedData enc)) (Some (Crypto.iv enc))
    | inr _ =>
        Types.mkDrawing "d1" "Sketch" [] false None None 0 0 None (Some true) None None
    end.

(** The session key of [Sample.unlocked_tab], and two drawings sealed
    under it one after the other. *)
Definition key : CryptoKey :=
  Eval vm_compute in
    match sessionKey Sample.unlocked_tab with
    | Some k => k
    | None => mkCryptoKey alg_PBKDF2 false [] []
    end.

Definition enc1 : Crypto.EncryptedDrawing :=
  Eval vm_compute in
    match fst Sample.sealed with
    | inl enc => enc
    | inr _ => Crypto.mkEncryptedDrawing "" ""
    end.

Definition enc2 : Crypto.EncryptedDrawing :=
  Eval vm_compute in
    match fst (Crypto.encryptDrawing (P:=Symbolic.platform) Sample.drawing key
                 (snd Sample.sealed)) with
    | inl enc => enc
    | inr _ => Crypto.mkEncryptedDrawing "" ""
    end.

Definition page : PrivateDrawings.PageState bool :=
  PrivateDrawings.mkPageState [private_drawing] false None.

End Sample2.

(* ===================================================================== *)
(** * Properties                                                          *)
(* ===================================================================== *)

(** ** Hex codec *)

Module HexFacts.
Import Hex.

Example bytesToHex_sample :
  bytesToHex [x00; x0f; xa5; xff] = "000fa5ff".
Proof. reflexivity. Qed.

Example hexToBytes_sample :
  hexToBytes "000fa5ff" = [x00; x0f; xa5; xff].
Proof. reflexivity. Qed.

(** Upper case is accepted and a pair that is not hex reads as 0, or as
    whatever [parseInt] makes of it. *)
Example hexToBytes_upper : hexToBytes "AB" = [xab].
Proof. reflexivity. Qed.

Example hexToBytes_garbage : hexToBytes "zz1g-1" = [x00; x01; xff].
Proof. reflexivity. Qed.

(** Every byte is written as exactly two characters. *)
Lemma byteToHex_two_chars (b : byte) :
  exists c1 c2, byteToHex b = String c1 (String c2 "").
Proof. destruct b; do 2 eexists; reflexivity. Qed.

(** ... and read back from them. *)
Lemma byte_roundtrip (b : byte) :
  toUint8 (parseInt16 (byteToHex b)) = b.
Proof. destruct b; reflexivity. Qed.

Lemma append_cons (c : ascii) (s t : string) :
  String c s +:+ t = String c (s +:+ t).
Proof. reflexivity. Qed.

Lemma append_empty_r (s : string) : s +:+ "" = s.
Proof. induction s as [|c s IH]; [reflexivity|]. now rewrite append_cons, IH. Qed.

Lemma concat_empty_cons (x : string) (xs : list string) :
  String.concat "" (x :: xs) = x +:+ String.concat "" xs.
Proof.
  destruct xs as [|y ys]; simpl.
  - now rewrite append_empty_r.
  - reflexivity.
Qed.

Lemma bytesToHex_cons (b : byte) (bs : bytes) :
  bytesToHex (b :: bs) = byteToHex b +:+ bytesToHex bs.
Proof. unfold bytesToHex. simpl map. apply concat_empty_cons. Qed.

Lemma half_SS (n : nat) : (S (S n) / 2 = S (n / 2))%nat.
Proof.
  change (S (S n)) with (2 + n)%nat.
  replace (2 + n)%nat with (n + 1 * 2)%nat by lia.
  rewrite Nat.div_add by lia. lia.
Qed.

(** The decoding loop consumes the string two characters at a time. *)
Lemma hexToBytes_cons2 (c1 c2 : ascii) (s : string) :
  hexToBytes (String c1 (String c2 s))
  = toUint8 (parseInt16 (String c1 (String c2 ""))) :: hexToBytes s.
Proof.
  unfold hexToBytes.
  change (String.length (String c1 (String c2 s))) with (S (S (String.length s))).
  rewrite half_SS. cbn [seq map]. f_equal.
  - unfold substr. cbn [Nat.mul substring]. now destruct s.
  - rewrite <- seq_shift, map_map. apply map_ext. intros i.
    unfold substr. reflexivity.
Qed.

Lemma hexToBytes_bytesToHex (bs : bytes) :
  hexToBytes (bytesToHex bs) = bs.
Proof.
  induction bs as [|b bs IH]; [reflexivity|].
  rewrite bytesToHex_cons.
  destruct (byteToHex_two_chars b) as (c1 & c2 & E).
  pose proof (byte_roundtrip b) as R. rewrite E in *.
  rewrite !append_cons. change ("" +:+ bytesToHex bs) with (bytesToHex bs).
  rewrite hexToBytes_cons2, R, IH. reflexivity.
Qed.

Lemma bytesToHex_length (bs : bytes) :
  String.length (bytesToHex bs) = (2 * List.length bs)%nat.
Proof.
  induction bs as [|b bs IH]; [reflexivity|].
  rewrite bytesToHex_cons.
  destruct (byteToHex_two_chars b) as (c1 & c2 & ->).
  rewrite !append_cons. change ("" +:+ bytesToHex bs) with (bytesToHex bs).
  cbn [String.length List.length]. lia.
Qed.

(** The other direction holds on even-length lower-case hex strings only:
    an odd-length string loses its last nibble. *)
Example hexToBytes_odd : hexToBytes "abc" = [xab] /\ bytesToHex [xab] = "ab".
Proof. split; reflexivity. Qed.

Lemma lower_hex_char_cases (c : ascii) :
  isLowerHexChar c = true ->
  In c (list_ascii_of_string "0123456789abcdef").
Proof.
  destruct c as [[] [] [] [] [] [] [] []]; cbv; intros H;
    try discriminate H; tauto.
Qed.

Lemma lower_hex_pair (c1 c2 : ascii) :
  isLowerHexChar c1 = true -> isLowerHexChar c2 = true ->
  byteToHex (toUint8 (parseInt16 (String c1 (String c2 "")))) = String c1 (String c2 "").
Proof.
  intros H1%lower_hex_char_cases H2%lower_hex_char_cases.
  cbn [list_ascii_of_string In] in H1, H2.
  repeat (destruct H1 as [<-|H1]); try contradiction;
    repeat (destruct H2 as [<-|H2]); try contradiction; vm_compute; reflexivity.
Qed.

Lemma bytesToHex_hexToBytes (n : nat) : forall h : string,
  String.length h = (2 * n)%nat -> isLowerHex h = true ->
  bytesToHex (hexToBytes h) = h.
Proof.
  induction n as [|n IH]; intros h Hlen Hhex.
  - destruct h; [reflexivity | discriminate].
  - destruct h as [|c1 [|c2 h]]; try (cbn in Hlen; lia).
    cbn [isLowerHex] in Hhex.
    apply andb_prop in Hhex as [H1 Hhex]. apply andb_prop in Hhex as [H2 Hhex].
    rewrite hexToBytes_cons2, bytesToHex_cons, lower_hex_pair by assumption.
    rewrite !append_cons. change ("" +:+ bytesToHex (hexToBytes h)) with (bytesToHex (hexToBytes h)).
    rewrite IH; [reflexivity | cbn in Hlen; lia | assumption].
Qed.

End HexFacts.

(** C10. Decoding the hex encoding of a byte array gives the array back,
    with the same length and the same contents. *)
Theorem hex_roundtrip : forall bs : bytes,
  Hex.hexToBytes (Hex.bytesToHex bs) = bs
  /\ List.length (Hex.hexToBytes (Hex.bytesToHex bs)) = List.length bs.
Proof.
  intros bs. rewrite HexFacts.hexToBytes_bytesToHex. split; reflexivity.
Qed.

(** ** The symbolic runtime satisfies the laws *)

Module SymbolicFacts.
Import Symbolic.

Lemma pad_to_length (n : nat) (bs : bytes) : List.length (pad_to n bs) = n.
Proof.
  unfold pad_to. rewrite length_take, length_app, repeat_length. lia.
Qed.

Lemma parse_stringify_list (l : list bool) : parse_list (stringify_list l) = inl l.
Proof.
  induction l as [|b l IH]; [reflexivity|].
  cbn [stringify_list parse_list]. rewrite IH. now destruct b.
Qed.

Lemma parse_stringify (d : DrawingData bool) : parse (stringify d) = inl d.
Proof.
  destruct d as [l a f]. unfold stringify, parse. cbn [elements appState files].
  rewrite parse_stringify_list. now destruct a, f.
Qed.

Lemma open_seal (k iv pt : bytes) :
  List.length k = 32 -> List.length iv = 12 -> open k iv (seal k iv pt) = Some pt.
Proof.
  intros Hk Hiv. unfold open, seal.
  assert (E : firstn 44 (k ++ iv ++ pt) = k ++ iv).
  { rewrite app_assoc. apply take_app_length'. rewrite length_app. lia. }
  rewrite bool_decide_eq_true_2 by auto.
  f_equal. rewrite app_assoc. apply drop_app_length'. rewrite length_app. lia.
Qed.


Lemma laws : WebPlatformLaws platform.
Proof.
  split; cbn.
  - apply parse_stringify.
  - reflexivity.
  - intros s _. apply string_of_list_byte_of_string.
  - reflexivity.
  - intros. apply pad_to_length.
  - intros. apply pad_to_length.
  - apply open_seal.
Qed.


End SymbolicFacts.

(** ** Key derivation and the authenticated cipher *)

Module CryptoFacts.
Import Crypto.

Ltac run_async :=
  unfold bind, ret, await, get, modify, throw, try_catch.

Section CryptoFacts.
Context {P : WebPlatform} {B : Backend}.
Hypothesis laws : WebPlatformLaws P.

(** [deriveKey] always settles, with the PBKDF2 output as key material,
    and leaves the world alone. *)
Lemma importKey_raw_PBKDF2_run (keyData : bytes) :
  SubtleCrypto.importKey_raw_PBKDF2 keyData false [usage_deriveBits; usage_deriveKey]
  = inl (mkCryptoKey alg_PBKDF2 false [usage_deriveBits; usage_deriveKey] keyData).
Proof. reflexivity. Qed.

Lemma importKey_raw_AES_GCM_run (keyData : bytes) :
  List.length keyData = 32 ->
  SubtleCrypto.importKey_raw_AES_GCM keyData false [usage_encrypt; usage_decrypt]
  = inl (mkCryptoKey (alg_AES_GCM 256) false [usage_encrypt; usage_decrypt] keyData).
Proof.
  intros H. unfold SubtleCrypto.importKey_raw_AES_GCM. rewrite H. reflexivity.
Qed.

Lemma deriveKey_run (password : string) (salt : bytes) (w : World) :
  deriveKey password salt w
  = (inl (mkCryptoKey (alg_AES_GCM 256) false [usage_encrypt; usage_decrypt]
            (PBKDF2 SHA_256 (TextEncoder_encode password) salt
                    PBKDF2_ITERATIONS KEY_LENGTH)), w).
Proof.
  unfold deriveKey. run_async.
  rewrite importKey_raw_PBKDF2_run.
  change (SubtleCrypto.deriveKey_PBKDF2_AES_GCM _ _ _ _ _)
    with (SubtleCrypto.importKey_raw_AES_GCM
            (PBKDF2 SHA_256 (TextEncoder_encode password) salt
                    PBKDF2_ITERATIONS KEY_LENGTH)
            false [usage_encrypt; usage_decrypt]).
  rewrite importKey_raw_AES_GCM_run; [reflexivity|].
  now rewrite (pbkdf2_length P laws).
Qed.

Lemma deriveKey_vault_key (password : string) (salt : bytes) (w w' : World) (k : CryptoKey) :
  deriveKey password salt w = (inl k, w') -> vault_key k.
Proof.
  rewrite deriveKey_run. intros [= <- _]. repeat split.
  cbn. now rewrite (pbkdf2_length P laws).
Qed.

Lemma fresh_bytes_length (n : nat) (w : World) : List.length (fresh_bytes n w) = n.
Proof. unfold fresh_bytes. now rewrite length_map, length_seq. Qed.

Lemma encrypt_run (k : CryptoKey) (iv data : bytes) :
  vault_key k ->
  SubtleCrypto.encrypt_AES_GCM iv k data = inl (AES_GCM_encrypt (key_handle k) iv data).
Proof.
  intros (Ha & _ & Hu & _). unfold SubtleCrypto.encrypt_AES_GCM, SubtleCrypto.has_usage.
  rewrite Ha, Hu. reflexivity.
Qed.

Lemma decrypt_run (k : CryptoKey) (iv data : bytes) :
  vault_key k ->
  SubtleCrypto.decrypt_AES_GCM iv k data
  = match AES_GCM_decrypt (key_handle k) iv data with
    | Some plaintext => inl plaintext
    | None => inr OperationError
    end.
Proof.
  intros (Ha & _ & Hu & _). unfold SubtleCrypto.decrypt_AES_GCM, SubtleCrypto.has_usage.
  rewrite Ha, Hu. reflexivity.
Qed.


Lemma String_fromCharCode_result (bs : bytes) (binary : string) :
  String_fromCharCode bs = inl binary ->
  binary = binary_string bs /\ (List.length bs <= max_arguments)%nat.
Proof.
  unfold String_fromCharCode.
  destruct (Nat.leb_spec (List.length bs) max_arguments); [|discriminate].
  intros [= <-]. auto.
Qed.

Lemma String_fromCharCode_overflow (bs : bytes) :
  (max_arguments < List.length bs)%nat -> String_fromCharCode bs = inr RangeError.
Proof.
  intros H. unfold String_fromCharCode. apply Nat.leb_gt in H. now rewrite H.
Qed.

Lemma encryptDrawing_run (data : DrawingData JSON) (k : CryptoKey) (w : World) :
  vault_key k ->
  encryptDrawing data k w
  = (let ciphertext :=
       AES_GCM_encrypt (key_handle k) (fresh_bytes IV_LENGTH w)
         (TextEncoder_encode (JSON_stringify data)) in
     match String_fromCharCode ciphertext with
     | inl binary =>
         inl (mkEncryptedDrawing (btoa binary) (bytesToHex (fresh_bytes IV_LENGTH w)))
     | inr e => inr e
     end,
     set_drawn (drawn w + IV_LENGTH) w).
Proof.
  intros Hk. unfold encryptDrawing, generateIV, getRandomValues. run_async.
  rewrite encrypt_run by assumption. cbv zeta.
  now destruct (String_fromCharCode _).
Qed.




(** Opening a base64 blob of cipher bytes [ct] with hex IV [ivhex]. *)
Lemma decryptDrawing_run (ct : bytes) (ivhex : string) (k : CryptoKey) (w : World) :
  vault_key k ->
  decryptDrawing (btoa (binary_string ct)) ivhex k w
  = (match AES_GCM_decrypt (key_handle k) (hexToBytes ivhex) ct with
     | Some plaintext => JSON_parse (TextDecoder_decode plaintext)
     | None => inr OperationError
     end, w).
Proof.
  intros Hk. unfold decryptDrawing. run_async.
  rewrite (base64_roundtrip P laws).
  unfold Uint8Array_from_charCodes, binary_string.
  rewrite list_byte_of_string_of_list_byte, decrypt_run by assumption.
  now destruct (AES_GCM_decrypt _ _ _).
Qed.


(** What [encryptDrawing] resolved with, under a vault key. *)
Lemma encryptDrawing_resolved (data : DrawingData JSON) (k : CryptoKey)
    (w w' : World) (enc : EncryptedDrawing) :
  vault_key k ->
  encryptDrawing data k w = (inl enc, w') ->
  enc = mkEncryptedDrawing
          (btoa (binary_string
                   (AES_GCM_encrypt (key_handle k) (fresh_bytes IV_LENGTH w)
                      (TextEncoder_encode (JSON_stringify data)))))
          (bytesToHex (fresh_bytes IV_LENGTH w)).
Proof.
  intros Hk. rewrite (encryptDrawing_run _ _ _ Hk). cbv zeta.
  destruct (String_fromCharCode _) as [binary|e] eqn:Hs; [|discriminate].
  apply String_fromCharCode_result in Hs as [-> _]. now intros [= <- _].
Qed.


(** JSON data sealed under a vault key opens under it, and so does a
    well-formed string. *)
Lemma drawing_opens (data : DrawingData JSON) (k : CryptoKey) (iv0 : bytes) (w : World) :
  vault_key k -> List.length iv0 = 12%nat ->
  decryptDrawing
    (btoa (binary_string
             (AES_GCM_encrypt (key_handle k) iv0
                (TextEncoder_encode (JSON_stringify data)))))
    (bytesToHex iv0) k w
  = (inl data, w).
Proof.
  intros Hk Hiv. rewrite (decryptDrawing_run _ _ _ _ Hk).
  unfold hexToBytes, bytesToHex. rewrite HexFacts.hexToBytes_bytesToHex.
  rewrite (gcm_correct P laws) by (apply Hk || assumption).
  rewrite (utf8_roundtrip P laws) by apply (json_well_formed P laws).
  now rewrite (json_roundtrip P laws).
Qed.


Lemma hashPassword_run (password : string) (w : World) :
  hashPassword password w
  = (inl (bytesToHex (digest SHA_256 (TextEncoder_encode password))), w).
Proof. reflexivity. Qed.

End CryptoFacts.
End CryptoFacts.

(** C5. [deriveKey] is a pure, deterministic PBKDF2 derivation: in any two
    worlds it settles with the same key and changes neither world; the key
    material is the PBKDF2-SHA-256 output for the password and salt with
    100,000 iterations (at least 100,000), 256 bits long, for AES-GCM. *)
Theorem deriveKey_pure_pbkdf2 (P : WebPlatform) (B : Backend)
    (laws : WebPlatformLaws P) (password : string) (salt : bytes) (w1 w2 : World) :
  exists key,
    Crypto.deriveKey password salt w1 = (inl key, w1)
    /\ Crypto.deriveKey password salt w2 = (inl key, w2)
    /\ key_handle key
       = PBKDF2 SHA_256 (TextEncoder_encode password) salt Crypto.PBKDF2_ITERATIONS 256
    /\ (100000 <= Crypto.PBKDF2_ITERATIONS)%N
    /\ key_algorithm key = alg_AES_GCM 256
    /\ (List.length (key_handle key) * 8 = 256)%nat.
Proof.
  eexists. rewrite !(CryptoFacts.deriveKey_run laws).
  repeat split; cbn [key_handle].
  - unfold Crypto.PBKDF2_ITERATIONS. lia.
  - unfold Crypto.KEY_LENGTH. now rewrite (pbkdf2_length P laws).
Qed.

Lemma deriveKey_pure_pbkdf2_witness :
  exists key,
    Crypto.deriveKey (P:=Symbolic.platform) "Correct-Horse1" Sample.salt1 Sample.fresh_tab
      = (inl key, Sample.fresh_tab)
    /\ Crypto.deriveKey (P:=Symbolic.platform) "Correct-Horse1" Sample.salt1
         (set_online false Sample.fresh_tab)
      = (inl key, set_online false Sample.fresh_tab)
    /\ key_handle key
       = PBKDF2 (WebPlatform:=Symbolic.platform) SHA_256
           (TextEncoder_encode (WebPlatform:=Symbolic.platform) "Correct-Horse1")
           Sample.salt1 Crypto.PBKDF2_ITERATIONS 256
    /\ (100000 <= Crypto.PBKDF2_ITERATIONS)%N
    /\ key_algorithm key = alg_AES_GCM 256
    /\ (List.length (key_handle key) * 8 = 256)%nat.
Proof.
  exact (deriveKey_pure_pbkdf2 Symbolic.platform Symbolic.backend SymbolicFacts.laws
           "Correct-Horse1" Sample.salt1 Sample.fresh_tab
           (set_online false Sample.fresh_tab)).
Defined.

(** C8. The key [deriveKey] settles with is created not extractable, its
    usages are exactly encrypt and decrypt, and every operation of
    [crypto.subtle] that would hand out key material refuses it. *)
Theorem derived_key_not_extractable (P : WebPlatform) (B : Backend)
    (laws : WebPlatformLaws P) (password : string) (salt : bytes) (w : World) :
  exists key,
    Crypto.deriveKey password salt w = (inl key, w)
    /\ key_extractable key = false
    /\ key_usages key = [usage_encrypt; usage_decrypt]
    /\ forall op, exists e, SubtleCrypto.extract op key = inr e.
Proof.
  eexists. rewrite (CryptoFacts.deriveKey_run laws). repeat split.
  intros [format|format wrappingKey iv]; cbn.
  - eauto.
  - unfold SubtleCrypto.wrapKey_AES_GCM. cbn.
    destruct (key_algorithm wrappingKey); [eauto|].
    destruct (negb _); eauto.
Qed.

Lemma derived_key_not_extractable_witness :
  exists key,
    Crypto.deriveKey (P:=Symbolic.platform) "Correct-Horse1" Sample.salt1 Sample.fresh_tab
      = (inl key, Sample.fresh_tab)
    /\ key_extractable key = false
    /\ key_usages key = [usage_encrypt; usage_decrypt]
    /\ forall op, exists e, SubtleCrypto.extract (P:=Symbolic.platform) op key = inr e.
Proof.
  exact (derived_key_not_extractable Symbolic.platform Symbolic.backend
           SymbolicFacts.laws "Correct-Horse1" Sample.salt1 Sample.fresh_tab).
Defined.






(** ** The vault session *)

Module VaultFacts.
Import VaultContext.

Ltac run_async :=
  unfold bind, ret, await, get, modify, throw, try_catch.

(** Projections of updated worlds. *)
Ltac world_simpl :=
  cbn [entropy drawn online server sent clock timers next_timer console state
       sessionKey salt autoLockTimer effectDeps
       set_entropy set_drawn set_online set_server set_sent set_clock set_timers
       set_next_timer set_console set_state set_sessionKey set_salt
       set_autoLockTimer set_effectDeps
       isSetup isUnlocked isLoading passwordHint privateDrawingsCount
       with_isUnlocked with_isLoading with_passwordHint fst snd] in *.

Section VaultFacts.
Context {P : WebPlatform} {B : Backend}.

Lemma frame_refl (w : World) : frame w w.
Proof. repeat split. Qed.

Lemma frame_trans (w1 w2 w3 : World) : frame w1 w2 -> frame w2 w3 -> frame w1 w3.
Proof. unfold frame. intuition congruence. Qed.

Lemma http_frame (req : Request) (w : World) : frame w (snd (http req w)).
Proof.
  unfold http. cbn. destruct (online w); [|repeat split].
  destruct (serve req (server w)) as [r s']. repeat split.
Qed.

Lemma lock_run (w : World) :
  lock w
  = (inl tt,
     match autoLockTimer w with
     | Some id =>
         set_autoLockTimer None
           (set_timers (delete id (timers w))
              (set_state (with_isUnlocked false (state w)) (set_sessionKey None w)))
     | None => set_state (with_isUnlocked false (state w)) (set_sessionKey None w)
     end).
Proof.
  unfold lock, setSessionKey, setState, clearTimeout. run_async. cbn.
  destruct (autoLockTimer w); reflexivity.
Qed.

Lemma deriveKey_world (password : string) (salt0 : bytes) (w : World) :
  Crypto.deriveKey password salt0 w = (fst (Crypto.deriveKey password salt0 w), w).
Proof.
  unfold Crypto.deriveKey. run_async.
  destruct (SubtleCrypto.importKey_raw_PBKDF2 _ _ _); reflexivity.
Qed.

Lemma resetAutoLockTimer_run (captured : bool) (w : World) :
  resetAutoLockTimer captured w
  = (inl tt,
     let cleared :=
       match autoLockTimer w with
       | Some id => set_timers (delete id (timers w)) w
       | None => w
       end in
     if captured then
       set_autoLockTimer (Some (next_timer w))
         (set_next_timer (Pos.succ (next_timer w))
            (set_timers (<[next_timer w := (clock w + AUTO_LOCK_TIMEOUT)%Z]> (timers cleared))
               cleared))
     else cleared).
Proof.
  unfold resetAutoLockTimer, clearTimeout, setTimeout. run_async. cbn.
  destruct (autoLockTimer w), captured; reflexivity.
Qed.

(** The digest sent for a password, and the request that carries it. *)
Lemma unlock_run (password : string) (w : World) :
  unlock password w
  = let digest_hex :=
      Crypto.bytesToHex (digest SHA_256 (TextEncoder_encode password)) in
    let '(r, w1) := http (mkRequest POST "/vault/verify" [("password", digest_hex)]) w in
    match r with
    | inr e =>
        (inl false, set_console (console w1 ++ [("Failed to unlock vault:", e)]) w1)
    | inl d =>
        if negb (verify_success (Api.as_verify d)) then (inl false, w1)
        else
          let saltBytes := Crypto.hexToBytes (verify_salt (Api.as_verify d)) in
          match fst (Crypto.deriveKey password saltBytes w1) with
          | inr e =>
              (inl false, set_console (console w1 ++ [("Failed to unlock vault:", e)]) w1)
          | inl key =>
              (inl true,
               Session.after (resetAutoLockTimer (isUnlocked (state w)))
                 (set_state (with_isUnlocked true (state w1))
                    (set_sessionKey (Some key) (set_salt (Some saltBytes) w1))))
          end
    end.
Proof.
  unfold unlock, Api.verifyVaultPassword, Crypto.hashPassword,
    SubtleCrypto.digest_SHA_256, console_error, setSalt, setSessionKey, setState.
  run_async. cbn -[Crypto.deriveKey resetAutoLockTimer http].
  destruct (http _ w) as [[d|e] w1]; [|reflexivity].
  destruct (verify_success (Api.as_verify d)); [|reflexivity].
  cbn -[Crypto.deriveKey resetAutoLockTimer http].
  rewrite deriveKey_world.
  destruct (fst (Crypto.deriveKey _ _ w1)) as [key|e]; [|reflexivity].
  cbn [fst snd]. unfold Session.after. rewrite !resetAutoLockTimer_run. reflexivity.
Qed.

Lemma setupVault_run (password : string) (hint : option string) (w : World) :
  setupVault password hint w
  = let newSalt := fresh_bytes Crypto.SALT_LENGTH w in
    let digest_hex :=
      Crypto.bytesToHex (digest SHA_256 (TextEncoder_encode password)) in
    let '(r, w1) :=
      http (mkRequest POST "/vault/setup"
              ([("passwordHash", digest_hex); ("salt", Crypto.bytesToHex newSalt)]
                 ++ Api.optional_field "hint" hint))
           (set_drawn (drawn w + Crypto.SALT_LENGTH) w) in
    match r with
    | inr e => (inr e, Session.after (console_error "Failed to setup vault:" e) w1)
    | inl _ =>
        match fst (Crypto.deriveKey password newSalt w1) with
        | inr e => (inr e, Session.after (console_error "Failed to setup vault:" e) w1)
        | inl key =>
            (inl tt,
             Session.after (resetAutoLockTimer (isUnlocked (state w)))
               (set_state
                  (mkVaultState true true (isLoading (state w1)) (or_null hint)
                     (privateDrawingsCount (state w1)))
                  (set_sessionKey (Some key) (set_salt (Some newSalt) w1))))
        end
    end.
Proof.
  unfold setupVault, Api.setupVault, Crypto.hashPassword, Crypto.generateSalt,
    getRandomValues, SubtleCrypto.digest_SHA_256, console_error, setSalt,
    setSessionKey, setState, Session.after.
  run_async. cbn -[Crypto.deriveKey resetAutoLockTimer http Crypto.bytesToHex].
  destruct (http _ _) as [[d|e] w1]; [|reflexivity].
  cbn -[Crypto.deriveKey resetAutoLockTimer http Crypto.bytesToHex].
  rewrite deriveKey_world.
  destruct (fst (Crypto.deriveKey _ _ w1)) as [key|e]; [|reflexivity].
  cbn [fst snd]. rewrite !resetAutoLockTimer_run. reflexivity.
Qed.

Lemma changePassword_run (oldPassword newPassword : string) (w : World) :
  changePassword oldPassword newPassword w
  = let hex_of password :=
      Crypto.bytesToHex (digest SHA_256 (TextEncoder_encode password)) in
    let failed e w' :=
      (inr e, Session.after (console_error "Failed to change password:" e) w') in
    let '(r, w1) :=
      http (mkRequest POST "/vault/verify" [("password", hex_of oldPassword)]) w in
    match r with
    | inr e => failed e w1
    | inl d =>
        if negb (verify_success (Api.as_verify d))
        then failed (Error "Invalid current password") w1
        else
          let oldSalt := Crypto.hexToBytes (verify_salt (Api.as_verify d)) in
          match fst (Crypto.deriveKey oldPassword oldSalt w1) with
          | inr e => failed e w1
          | inl oldKey =>
              let newSalt := fresh_bytes Crypto.SALT_LENGTH w1 in
              let w2 := set_drawn (drawn w1 + Crypto.SALT_LENGTH) w1 in
              match fst (Crypto.deriveKey newPassword newSalt w2) with
              | inr e => failed e w2
              | inl newKey =>
                  let '(r2, w3) :=
                    http (mkRequest PUT "/vault/password"
                            [("passwordHash", hex_of newPassword);
                             ("salt", Crypto.bytesToHex newSalt)]) w2 in
                  match r2 with
                  | inr e => failed e w3
                  | inl _ =>
                      (inl tt, set_sessionKey (Some newKey) (set_salt (Some newSalt) w3))
                  end
              end
          end
    end.
Proof.
  unfold changePassword, Api.verifyVaultPassword, Api.changeVaultPassword,
    Crypto.hashPassword, Crypto.generateSalt, getRandomValues,
    SubtleCrypto.digest_SHA_256, console_error, setSalt, setSessionKey, Session.after.
  run_async. cbn -[Crypto.deriveKey http Crypto.bytesToHex Crypto.hexToBytes].
  destruct (http _ w) as [[d|e] w1]; [|reflexivity].
  destruct (verify_success (Api.as_verify d)); [|reflexivity].
  cbn -[Crypto.deriveKey http Crypto.bytesToHex Crypto.hexToBytes].
  rewrite deriveKey_world.
  destruct (fst (Crypto.deriveKey _ _ w1)) as [oldKey|e]; [|reflexivity].
  cbn -[Crypto.deriveKey http Crypto.bytesToHex Crypto.hexToBytes].
  rewrite deriveKey_world.
  destruct (fst (Crypto.deriveKey _ _ _)) as [newKey|e]; [|reflexivity].
  cbn -[Crypto.deriveKey http Crypto.bytesToHex Crypto.hexToBytes].
  destruct (http _ _) as [[d2|e] w3]; reflexivity.
Qed.

Lemma commit_run (w : World) :
  commit w
  = (inl tt,
     if Bool.eqb (isUnlocked (state w)) (effectDeps w) then w
     else set_effectDeps (isUnlocked (state w))
            (Session.after (effect_setup (isUnlocked (state w)))
               (Session.after (effect_cleanup (effectDeps w)) w))).
Proof.
  unfold commit, effect_setup, effect_cleanup, Session.after, clearTimeout.
  run_async. cbn -[resetAutoLockTimer].
  destruct (Bool.eqb _ _); [reflexivity|].
  destruct (effectDeps w), (autoLockTimer w), (isUnlocked (state w));
    cbn -[resetAutoLockTimer]; rewrite ?resetAutoLockTimer_run; reflexivity.
Qed.

Lemma frame_timer_frame (w w' : World) : frame w w' -> timer_frame w w'.
Proof. unfold frame, timer_frame. intuition congruence. Qed.

Lemma timer_frame_refl (w : World) : timer_frame w w.
Proof. repeat split. Qed.

Lemma timer_frame_trans (w1 w2 w3 : World) :
  timer_frame w1 w2 -> timer_frame w2 w3 -> timer_frame w1 w3.
Proof. unfold timer_frame. intuition congruence. Qed.

Lemma timer_frame_armed (w w' : World) : timer_frame w w' -> armed w -> armed w'.
Proof.
  intros (Hc & Ht & _ & Ha & He & Hu) (Hd & Harm). unfold armed.
  rewrite Hc, Ht, Ha, He, Hu. auto.
Qed.

Lemma console_error_frame (message : string) (e : JsError) (w : World) :
  frame w (Session.after (console_error message e) w).
Proof. repeat split. Qed.

Lemma timeout_nonneg : (0 <= AUTO_LOCK_TIMEOUT)%Z.
Proof. unfold AUTO_LOCK_TIMEOUT. lia. Qed.

(** A render of an armed world changes nothing. *)
Lemma commit_settled (w : World) :
  effectDeps w = isUnlocked (state w) -> Session.after commit w = w.
Proof.
  intros H. unfold Session.after. rewrite commit_run, H.
  now rewrite Bool.eqb_reflx.
Qed.

(** Entering (or re-entering) the unlocked state: after the call's own
    [resetAutoLockTimer] and the render that follows, exactly one timer is
    pending, due one timeout from now. *)
Lemma arm_on_enter (w w1 : World) (st' : VaultState)
    (k : option CryptoKey) (s : option bytes) :
  armed w -> timer_frame w w1 -> isUnlocked st' = true ->
  let w' :=
    Session.after commit
      (Session.after (resetAutoLockTimer (isUnlocked (state w)))
         (set_state st' (set_sessionKey k (set_salt s w1)))) in
  (exists id,
      autoLockTimer w' = Some id
      /\ timers w' = {[id := (clock w + AUTO_LOCK_TIMEOUT)%Z]})
  /\ effectDeps w' = true /\ state w' = st' /\ clock w' = clock w
  /\ sessionKey w' = k /\ salt w' = s.
Proof.
  intros (Hd & Harm) (Hc & Ht & Hn & Ha & He & Hu) Hst'. cbv zeta.
  unfold Session.after.
  rewrite resetAutoLockTimer_run. cbn [snd].
  destruct (isUnlocked (state w)) eqn:Hw.
  - destruct Harm as (id & d & Href & Htim & _).
    rewrite commit_run. world_simpl.
    rewrite Ha, Href. world_simpl. rewrite He, Hd, Hst'. cbn [Bool.eqb snd].
    world_simpl. rewrite Ht, Htim, Hc, delete_singleton_eq, insert_empty.
    repeat split; eauto.
  - rewrite commit_run. unfold effect_cleanup, effect_setup, Session.after.
    world_simpl.
    destruct (autoLockTimer w1) as [id0|] eqn:Href; world_simpl;
      rewrite He, Hd, Hst'; cbn [Bool.eqb snd]; run_async; cbn [snd];
      rewrite resetAutoLockTimer_run; world_simpl;
      rewrite ?Href; world_simpl;
      rewrite Ht, Harm, Hc, ?delete_empty, insert_empty;
      repeat split; eauto.
Qed.

Lemma http_timer_frame (req : Request) (w w1 : World) (r : Result ResponseData) :
  http req w = (r, w1) -> timer_frame w w1.
Proof.
  intros H. apply frame_timer_frame.
  pose proof (http_frame req w) as F. now rewrite H in F.
Qed.

Lemma checkVaultStatus_timer_frame (w : World) :
  timer_frame w (Session.after checkVaultStatus w).
Proof.
  unfold Session.after, checkVaultStatus, Api.getVaultStatus, setState, setSalt,
    console_error.
  run_async. cbn -[http Crypto.hexToBytes].
  destruct (http _ _) as [[d|e] w1] eqn:H;
    apply http_timer_frame in H; cbn -[http Crypto.hexToBytes] in *;
    [destruct (or_null (status_salt (Api.as_status d)))|];
    cbn; unfold timer_frame in *; world_simpl; intuition.
Qed.

Lemma updateHint_timer_frame (hint : string) (w : World) :
  timer_frame w (Session.after (updateHint hint) w).
Proof.
  unfold Session.after, updateHint, Api.updateVaultHint, setState, console_error.
  run_async. cbn -[http].
  destruct (http _ _) as [[d|e] w1] eqn:H;
    apply http_timer_frame in H; cbn; unfold timer_frame in *; world_simpl; intuition.
Qed.

Lemma changePassword_timer_frame (oldPassword newPassword : string) (w : World) :
  timer_frame w (Session.after (changePassword oldPassword newPassword) w).
Proof.
  unfold Session.after. rewrite changePassword_run. cbv zeta.
  destruct (http _ w) as [[d|e] w1] eqn:H1; apply http_timer_frame in H1;
    [|exact H1].
  destruct (negb _); [exact H1|].
  destruct (fst (Crypto.deriveKey oldPassword _ w1)); [|exact H1].
  destruct (fst (Crypto.deriveKey newPassword _ _)); [|exact H1].
  destruct (http _ _) as [[d2|e] w3] eqn:H3; apply http_timer_frame in H3;
    unfold Session.after, console_error, modify; cbn [snd];
    unfold timer_frame in *; world_simpl; intuition congruence.
Qed.

Lemma set_effectDeps_same (b : bool) (w : World) :
  effectDeps w = b -> set_effectDeps b w = w.
Proof. destruct w. cbn. now intros ->. Qed.

(** [lock] followed by its render. *)
Lemma lock_commit (w : World) :
  armed w ->
  let w' := Session.after commit (Session.after lock w) in
  isUnlocked (state w') = false /\ sessionKey w' = None /\ timers w' = ∅
  /\ autoLockTimer w' = None /\ effectDeps w' = false /\ clock w' = clock w
  /\ w' = set_effectDeps false (Session.after lock w).
Proof.
  intros (Hd & Harm). cbv zeta. unfold Session.after.
  rewrite lock_run, commit_run. cbn [snd].
  unfold effect_cleanup, effect_setup, Session.after.
  destruct (isUnlocked (state w)) eqn:Hw.
  - destruct Harm as (id & d & Href & Htim & _).
    rewrite Href. world_simpl. rewrite Hd. cbn [Bool.eqb]. run_async.
    world_simpl. rewrite Htim, delete_singleton_eq. repeat split.
  - destruct (autoLockTimer w) as [id|] eqn:Href; world_simpl; rewrite Hd;
      cbn [Bool.eqb]; world_simpl; rewrite ?Hd, ?Harm, ?delete_empty;
      repeat split; try assumption;
      symmetry; apply set_effectDeps_same; world_simpl; assumption.
Qed.

Lemma rearmed_armed (w w' : World) : rearmed w w' -> armed w'.
Proof.
  intros (id & Href & Htim & Hu & Hd & Hc). unfold armed. rewrite Hu, Hd.
  split; [reflexivity|]. exists id, (clock w + AUTO_LOCK_TIMEOUT)%Z.
  pose proof timeout_nonneg. rewrite Hc. repeat split; auto; lia.
Qed.

Lemma settled_frame (w w' : World) :
  armed w -> timer_frame w w' -> timer_frame w (Session.after commit w').
Proof.
  intros Hw F. rewrite commit_settled; [exact F|].
  apply (timer_frame_armed _ _ F Hw).
Qed.

(** [unlock] and its render either leave the timer as it was or set it
    anew. *)
Lemma unlock_outcome (password : string) (w : World) :
  armed w ->
  let w' := Session.after commit (Session.after (unlock password) w) in
  timer_frame w w' \/ rearmed w w'.
Proof.
  intros Hw. cbv zeta. unfold Session.after at 2 4. rewrite unlock_run. cbv zeta.
  destruct (http _ w) as [[d|e] w1] eqn:H1; apply http_timer_frame in H1; cbn [snd].
  - destruct (negb _); [left; now apply settled_frame|].
    destruct (fst (Crypto.deriveKey _ _ w1)) as [key|e]; cbn [snd].
    + right.
      destruct (arm_on_enter w w1 (with_isUnlocked true (state w1)) (Some key)
                  (Some (Crypto.hexToBytes (verify_salt (Api.as_verify d)))) Hw H1 eq_refl)
        as ((id & Href & Htim) & Hd & Hst & Hc & _).
      exists id. repeat split; auto. now rewrite Hst.
    + left. apply settled_frame; [exact Hw|].
      eapply timer_frame_trans; [exact H1|]. apply frame_timer_frame. repeat split.
  - left. apply settled_frame; [exact Hw|].
    eapply timer_frame_trans; [exact H1|]. apply frame_timer_frame. repeat split.
Qed.

Lemma setupVault_outcome (password : string) (hint : option string) (w : World) :
  armed w ->
  let w' := Session.after commit (Session.after (setupVault password hint) w) in
  timer_frame w w' \/ rearmed w w'.
Proof.
  intros Hw. cbv zeta. unfold Session.after at 2 4. rewrite setupVault_run. cbv zeta.
  destruct (http _ _) as [[d|e] w1] eqn:H1; apply http_timer_frame in H1; cbn [snd].
  - destruct (fst (Crypto.deriveKey _ _ w1)) as [key|e]; cbn [snd].
    + right.
      destruct (arm_on_enter w w1
                  (mkVaultState true true (isLoading (state w1)) (or_null hint)
                     (privateDrawingsCount (state w1)))
                  (Some key) (Some (fresh_bytes Crypto.SALT_LENGTH w)) Hw H1 eq_refl)
        as ((id & Href & Htim) & Hd & Hst & Hc & _).
      exists id. repeat split; auto. now rewrite Hst.
    + left. apply settled_frame; [exact Hw|].
      eapply timer_frame_trans; [exact H1|]. apply frame_timer_frame. repeat split.
  - left. apply settled_frame; [exact Hw|].
    eapply timer_frame_trans; [exact H1|]. apply frame_timer_frame. repeat split.
Qed.

(** An interaction while unlocked re-arms the timer one timeout from now;
    while locked nothing listens. *)
Lemma handleActivity_commit (w : World) :
  armed w ->
  let w' := Session.after commit (Session.after handleActivity w) in
  armed w'
  /\ state w' = state w /\ sessionKey w' = sessionKey w
  /\ (isUnlocked (state w) = true ->
      exists id, autoLockTimer w' = Some id
                 /\ timers w' = {[id := (clock w + AUTO_LOCK_TIMEOUT)%Z]})
  /\ (isUnlocked (state w) = false -> w' = w).
Proof.
  intros Hw. pose proof Hw as (Hd & Harm). cbv zeta.
  assert (E : Session.after handleActivity w
              = if effectDeps w
                then Session.after (resetAutoLockTimer true) w else w).
  { unfold Session.after, handleActivity. run_async. cbn [fst snd].
    now destruct (effectDeps w). }
  rewrite E, Hd. clear E. destruct (isUnlocked (state w)) eqn:Hu.
  - destruct Harm as (id & d & Href & Htim & _).
    unfold Session.after at 2 4 6 8 10.
    rewrite resetAutoLockTimer_run. cbn [snd]. rewrite Href. world_simpl.
    rewrite Htim, delete_singleton_eq, insert_empty.
    rewrite commit_settled by (world_simpl; congruence).
    unfold armed. world_simpl. rewrite Hu. pose proof timeout_nonneg.
    repeat split; eauto; try discriminate.
    exists (next_timer w), (clock w + AUTO_LOCK_TIMEOUT)%Z. repeat split; auto; lia.
  - rewrite commit_settled by congruence.
    split; [exact Hw|]. repeat split; auto; discriminate.
Qed.

Lemma commit_sessionKey (w : World) :
  sessionKey (Session.after commit w) = sessionKey w.
Proof.
  unfold Session.after. rewrite commit_run. cbn [snd].
  destruct (Bool.eqb _ _); [reflexivity|].
  unfold effect_cleanup, effect_setup, Session.after, clearTimeout. run_async.
  destruct (effectDeps w), (isUnlocked (state w)), (autoLockTimer w);
    cbn [fst snd]; rewrite ?resetAutoLockTimer_run; world_simpl;
    try reflexivity; now destruct (autoLockTimer _).
Qed.

Lemma checkVaultStatus_sessionKey (w : World) :
  sessionKey (Session.after checkVaultStatus w) = sessionKey w.
Proof.
  unfold Session.after, checkVaultStatus, Api.getVaultStatus, setState, setSalt,
    console_error.
  run_async. cbn -[http Crypto.hexToBytes].
  destruct (http _ _) as [[d|e] w1] eqn:H;
    pose proof (http_frame (mkRequest GET "/vault/status" [])
                  (set_state (with_isLoading true (state w)) w)) as F;
    rewrite H in F; destruct F as (_ & _ & _ & _ & F & _);
    cbn -[http Crypto.hexToBytes] in *;
    [destruct (or_null (status_salt (Api.as_status d)))|]; exact F.
Qed.

Lemma updateHint_sessionKey (hint : string) (w : World) :
  sessionKey (Session.after (updateHint hint) w) = sessionKey w.
Proof.
  unfold Session.after, updateHint, Api.updateVaultHint, setState, console_error.
  run_async. cbn -[http].
  destruct (http _ _) as [[d|e] w1] eqn:H;
    pose proof (http_frame (mkRequest PUT "/vault/hint" [("hint", hint)]) w) as F;
    rewrite H in F; destruct F as (_ & _ & _ & _ & F & _); exact F.
Qed.

(** Every call either leaves the timer as it was, sets it anew, or is a
    lock. *)
Lemma call_outcome (c : Session.Call) (w : World) :
  armed w ->
  let w' := Session.after commit (Session.after (Session.run_call c) w) in
  timer_frame w w' \/ rearmed w w'
  \/ (isUnlocked (state w') = false /\ timers w' = ∅ /\ effectDeps w' = false).
Proof.
  intros Hw. destruct c as [| |password|password hint|o n|hint]; cbv zeta;
    cbn [Session.run_call].
  - left. apply settled_frame, checkVaultStatus_timer_frame; exact Hw.
  - right; right. destruct (lock_commit w Hw) as (? & ? & ? & ? & ? & _). auto.
  - assert (E : Session.after (unlock password ;;; ret tt) w
                = Session.after (unlock password) w).
    { unfold Session.after. run_async. now destruct (unlock password w) as [[?|?] ?]. }
    rewrite E. destruct (unlock_outcome password w Hw); auto.
  - destruct (setupVault_outcome password hint w Hw); auto.
  - left. apply settled_frame, changePassword_timer_frame; exact Hw.
  - left. apply settled_frame, updateHint_timer_frame; exact Hw.
Qed.

Lemma call_armed (c : Session.Call) (w : World) :
  armed w -> armed (Session.after commit (Session.after (Session.run_call c) w)).
Proof.
  intros Hw. destruct (call_outcome c w Hw) as [F|[R|(Hu & Ht & Hd)]].
  - exact (timer_frame_armed _ _ F Hw).
  - exact (rearmed_armed _ _ R).
  - unfold armed. now rewrite Hu, Hd.
Qed.

(** A timer that fires is the armed one, and firing it is locking. *)
Lemma timer_fires (id : positive) (w w' : World) :
  armed w -> Session.react (Session.ev_timer id) w = Some w' ->
  isUnlocked (state w) = true
  /\ Session.react (Session.ev_call Session.call_lock) w = Some w'
  /\ isUnlocked (state w') = false /\ sessionKey w' = None /\ timers w' = ∅
  /\ autoLockTimer w' = None /\ effectDeps w' = false.
Proof.
  intros Hw. pose proof Hw as (Hd & Harm). cbn [Session.react].
  destruct (timers w !! id) as [deadline|] eqn:Hid; [|discriminate].
  destruct (deadline <=? clock w)%Z; [|discriminate]. intros [= <-].
  destruct (isUnlocked (state w)) eqn:Hu.
  - destruct Harm as (id0 & d & Href & Htim & _).
    assert (id = id0) as ->.
    { rewrite Htim in Hid. apply lookup_singleton_Some in Hid. now destruct Hid. }
    assert (E : Session.after lock (set_timers (delete id0 (timers w)) w)
                = Session.after lock w).
    { unfold Session.after. rewrite !lock_run. cbn [snd]. world_simpl.
      rewrite Href, Htim, delete_singleton_eq, delete_empty. reflexivity. }
    rewrite E. cbn [Session.run_call].
    destruct (lock_commit w Hw) as (? & ? & ? & ? & ? & _). repeat split; auto.
  - rewrite Harm, lookup_empty in Hid. discriminate.
Qed.

Lemma time_passes (ms : Z) (w w' : World) :
  armed w -> Session.react (Session.ev_time ms) w = Some w' ->
  armed w' /\ w' = set_clock (clock w + ms)%Z w /\ (0 <= ms)%Z
  /\ Session.none_overdue (clock w + ms) w.
Proof.
  intros (Hd & Harm). cbn [Session.react]. case_bool_decide as H; [|discriminate].
  intros [= <-]. destruct H as (Hms & Hover). repeat split; auto.
  destruct (isUnlocked (state w)) eqn:Hu; world_simpl; rewrite Hu; [|assumption].
  destruct Harm as (id & d & Href & Htim & Hlo & Hhi).
  exists id, d. repeat split; auto; [|lia].
  unfold Session.none_overdue in Hover. rewrite Htim in Hover.
  apply map_Forall_singleton in Hover. exact Hover.
Qed.

(** Once the session key is null, no event brings it back unless it
    brings a password. *)
Lemma key_stays_null (e : Session.Event) (w w' : World) :
  armed w -> Session.brings_password e = false ->
  Session.react e w = Some w' -> sessionKey w = None -> sessionKey w' = None.
Proof.
  intros Hw Hpw He Hk. destruct e as [c| |id|ms|up].
  - injection He as <-. rewrite commit_sessionKey.
    destruct c; try discriminate Hpw; cbn [Session.run_call].
    + now rewrite checkVaultStatus_sessionKey.
    + unfold Session.after. rewrite lock_run. cbn [snd].
      now destruct (autoLockTimer w).
    + now rewrite updateHint_sessionKey.
  - injection He as <-.
    destruct (handleActivity_commit w Hw) as (_ & _ & -> & _). exact Hk.
  - now destruct (timer_fires id w w' Hw He) as (_ & _ & _ & ? & _).
  - destruct (time_passes ms w w' Hw He) as (_ & -> & _). exact Hk.
  - injection He as <-. exact Hk.
Qed.

Lemma react_armed (e : Session.Event) (w w' : World) :
  armed w -> Session.react e w = Some w' -> armed w'.
Proof.
  intros Hw He. destruct e as [c| |id|ms|up].
  - injection He as <-. now apply call_armed.
  - injection He as <-. now apply handleActivity_commit.
  - destruct (timer_fires id w w' Hw He) as (_ & _ & Hu & _ & Ht & _ & Hd).
    unfold armed. now rewrite Hu, Hd.
  - now apply (time_passes ms w w' Hw He).
  - injection He as <-. exact Hw.
Qed.

Lemma reachable_armed (w : World) : Session.reachable w -> armed w.
Proof.
  induction 1 as [rnd up s|w e w' _ IH He].
  - split; reflexivity.
  - exact (react_armed e w w' IH He).
Qed.

End VaultFacts.
End VaultFacts.

(** C7. [lock] always settles; afterwards the session key is null, the
    vault is not unlocked, the timer handle is cleared and its timer is no
    longer pending. Locking twice is locking once, and locking a locked
    vault leaves it locked. *)
Theorem lock_idempotent (P : WebPlatform) (B : Backend) (w : World) :
  let w1 := Session.after VaultContext.lock w in
  VaultContext.lock w = (inl tt, w1)
  /\ sessionKey w1 = None
  /\ isUnlocked (state w1) = false
  /\ autoLockTimer w1 = None
  /\ (forall id, autoLockTimer w = Some id -> timers w1 !! id = None)
  /\ Session.after VaultContext.lock w1 = w1
  /\ (isUnlocked (state w) = false -> isUnlocked (state w1) = false).
Proof.
  unfold Session.after. rewrite !VaultFacts.lock_run. cbn [snd].
  destruct (autoLockTimer w) as [id|] eqn:E; cbn; repeat split;
    try discriminate; try assumption.
  - intros ? [= <-]. apply lookup_delete_eq.
  - now rewrite E.
Qed.

(** ** Fifteen minutes *)

(** Fifteen minutes without interaction: the timer set by [setupVault] at
    time 0 is due at 900000 ms; time cannot move on before it has fired,
    and once it has the vault is locked and holds no key. An interaction
    at 600000 ms moves the deadline to 1500000 ms. *)
Example fifteen_minutes_idle :
  let setup := Session.ev_call Sample.setup_call in
  let run := Session.run (P:=Symbolic.platform) in
  (fun w => isUnlocked (state w)) <$> run [setup; Session.ev_time 900000] Sample.fresh_tab
    = Some true
  /\ (fun w => clock w) <$> run [setup; Session.ev_time 900001] Sample.fresh_tab = None
  /\ (fun w => (isUnlocked (state w), sessionKey w, timers w))
       <$> run [setup; Session.ev_time 900000; Session.ev_timer 1] Sample.fresh_tab
     = Some (false, None, ∅)
  /\ (fun w => clock w)
       <$> run [setup; Session.ev_time 899999; Session.ev_timer 1] Sample.fresh_tab
     = None
  /\ (fun w => timers w)
       <$> run [setup; Session.ev_time 600000; Session.ev_activity] Sample.fresh_tab
     = Some {[2%positive := 1500000%Z]}.
Proof. repeat split; vm_compute; reflexivity. Qed.

(** ** Verification, transport failures and the password change *)

Module ProtocolFacts.
Import VaultContext VaultFacts.

Section ProtocolFacts.
Context {P : WebPlatform} {B : Backend}.

Lemma http_sent (req : Request) (w : World) :
  sent (snd (http req w)) = sent w ++ [req].
Proof.
  unfold http. world_simpl. destruct (online w); [|reflexivity].
  now destruct (serve req (server w)).
Qed.

Lemma http_offline (req : Request) (w : World) :
  online w = false -> http req w = (inr NetworkError, set_sent (sent w ++ [req]) w).
Proof. intros H. unfold http. world_simpl. now rewrite H. Qed.

Lemma resetAutoLockTimer_sent (captured : bool) (w : World) :
  sent (Session.after (resetAutoLockTimer captured) w) = sent w.
Proof.
  unfold Session.after. rewrite resetAutoLockTimer_run. cbn [snd].
  destruct captured, (autoLockTimer w); reflexivity.
Qed.

(** The verification request of [unlock] and [changePassword]. *)
Lemma unlock_sent (password : string) (w : World) :
  sent (Session.after (unlock password) w)
  = sent w ++ [mkRequest POST "/vault/verify"
                 [("password",
                   Crypto.bytesToHex (digest SHA_256 (TextEncoder_encode password)))]].
Proof.
  unfold Session.after at 1. rewrite unlock_run. cbv zeta.
  rewrite <- http_sent.
  destruct (http _ w) as [[d|e] w1]; [|reflexivity].
  destruct (negb _); [reflexivity|].
  destruct (fst (Crypto.deriveKey _ _ w1)); [|reflexivity].
  cbn [snd]. now rewrite resetAutoLockTimer_sent.
Qed.

Lemma setupVault_sent (password : string) (hint : option string) (w : World) :
  sent (Session.after (setupVault password hint) w)
  = sent w ++ [mkRequest POST "/vault/setup"
                 ([("passwordHash",
                    Crypto.bytesToHex (digest SHA_256 (TextEncoder_encode password)));
                   ("salt", Crypto.bytesToHex (fresh_bytes Crypto.SALT_LENGTH w))]
                    ++ Api.optional_field "hint" hint)].
Proof.
  unfold Session.after at 1. rewrite setupVault_run. cbv zeta.
  change (sent w) with (sent (set_drawn (drawn w + Crypto.SALT_LENGTH) w)).
  rewrite <- http_sent.
  destruct (http _ _) as [[d|e] w1]; [|reflexivity].
  destruct (fst (Crypto.deriveKey _ _ w1)); [|reflexivity].
  cbn [snd]. now rewrite resetAutoLockTimer_sent.
Qed.

Lemma changePassword_sent (oldPassword newPassword : string) (w : World) :
  exists rest,
    sent (Session.after (changePassword oldPassword newPassword) w)
    = sent w
      ++ mkRequest POST "/vault/verify"
           [("password",
             Crypto.bytesToHex (digest SHA_256 (TextEncoder_encode oldPassword)))]
         :: rest
    /\ (rest = []
        \/ exists newSalt,
             List.length newSalt = 16%nat
             /\ rest = [mkRequest PUT "/vault/password"
                          [("passwordHash",
                            Crypto.bytesToHex
                              (digest SHA_256 (TextEncoder_encode newPassword)));
                           ("salt", Crypto.bytesToHex newSalt)]]).
Proof.
  unfold Session.after at 1. rewrite changePassword_run. cbv zeta.
  pose proof (http_sent (mkRequest POST "/vault/verify"
    [("password", Crypto.bytesToHex (digest SHA_256 (TextEncoder_encode oldPassword)))]) w)
    as H1.
  destruct (http _ w) as [[d|e] w1]; cbn [snd] in H1.
  2:{ exists []. split; [exact H1 | now left]. }
  destruct (negb _). { exists []. split; [exact H1 | now left]. }
  destruct (fst (Crypto.deriveKey oldPassword _ w1)).
  2:{ exists []. split; [exact H1 | now left]. }
  destruct (fst (Crypto.deriveKey newPassword _ _)).
  2:{ exists []. split; [exact H1 | now left]. }
  match goal with |- context [http ?r ?w2] =>
    pose proof (http_sent r w2) as H3; destruct (http r w2) as [[d2|e] w3] end;
    cbn [snd] in H3; world_simpl; eexists; (split;
      [unfold Session.after, console_error, modify; world_simpl; rewrite H3, H1;
       rewrite <- app_assoc; reflexivity
      | right; eexists; split; [|reflexivity];
        unfold fresh_bytes; now rewrite length_map, length_seq]).
Qed.

(** With a lawful runtime the requests of [changePassword] are exactly:
    the verification of the old digest and, if the server accepts it, the
    new digest with the new salt. *)
Lemma changePassword_sent_exact (laws : WebPlatformLaws P)
    (oldPassword newPassword : string) (w : World) :
  sent (Session.after (changePassword oldPassword newPassword) w)
  = let '(r, w1) := http (verify_request oldPassword) w in
    sent w
    ++ verify_request oldPassword
       :: match r with
          | inl d =>
              if verify_success (Api.as_verify d)
              then [mkRequest PUT "/vault/password"
                      [("passwordHash", digest_hex newPassword);
                       ("salt",
                        Crypto.bytesToHex (fresh_bytes Crypto.SALT_LENGTH w1))]]
              else []
          | inr _ => []
          end.
Proof.
  unfold Session.after at 1. rewrite changePassword_run. cbv zeta.
  fold (digest_hex oldPassword). fold (digest_hex newPassword).
  fold (verify_request oldPassword).
  pose proof (http_sent (verify_request oldPassword) w) as H1.
  destruct (http _ w) as [[d|e] w1]; cbn [snd] in H1; [|exact H1].
  destruct (verify_success (Api.as_verify d)); [|exact H1]. cbn [negb].
  rewrite !(CryptoFacts.deriveKey_run laws). cbn [fst].
  match goal with |- context [http ?r ?w2] =>
    pose proof (http_sent r w2) as H3; destruct (http r w2) as [[d2|e] w3] end;
    cbn [snd] in H3; unfold Session.after, console_error, modify; world_simpl;
    rewrite H3, H1, <- app_assoc; reflexivity.
Qed.

(** A rejected digest: [unlock] settles with [false] and touches nothing
    but the request log and the backend. *)
Lemma unlock_rejected (password : string) (w w1 : World) (d : ResponseData) :
  http (verify_request password) w = (inl d, w1) ->
  verify_success (Api.as_verify d) = false ->
  unlock password w = (inl false, w1) /\ frame w w1 /\ console w1 = console w.
Proof.
  unfold verify_request, digest_hex.
  intros H Hs. rewrite unlock_run. cbv zeta. rewrite H, Hs. cbn [negb].
  pose proof (http_frame (mkRequest POST "/vault/verify"
    [("password", Crypto.bytesToHex (digest SHA_256 (TextEncoder_encode password)))]) w) as F.
  rewrite H in F. repeat split; try apply F.
  unfold http in H. world_simpl. destruct (online w).
  - destruct (serve _ _). now injection H as _ <-.
  - discriminate.
Qed.

(** An unreachable backend: [unlock] settles with [false] as well; the
    network error goes to the console only. *)
Lemma unlock_offline (password : string) (w : World) :
  online w = false ->
  exists w',
    unlock password w = (inl false, w') /\ frame w w'
    /\ console w' = console w ++ [("Failed to unlock vault:", NetworkError)].
Proof.
  intros H. rewrite unlock_run. cbv zeta. rewrite (http_offline _ _ H).
  eexists. split; [reflexivity|]. repeat split.
Qed.

End ProtocolFacts.

(** On the store, neither request of a password change touches the
    encrypted records. *)
Lemma handle_verify_records (server_hash : string -> string)
    (body : list (string * string)) (s : VaultStore.Store) :
  VaultStore.records
    (snd (VaultStore.handle server_hash (mkRequest POST "/vault/verify" body) s))
  = VaultStore.records s.
Proof.
  unfold VaultStore.handle. cbn.
  destruct (VaultStore.vault s), (VaultStore.field "password" body);
    try reflexivity.
  now destruct (String.eqb _ _).
Qed.

Lemma handle_password_records (server_hash : string -> string)
    (body : list (string * string)) (s : VaultStore.Store) :
  VaultStore.records
    (snd (VaultStore.handle server_hash (mkRequest PUT "/vault/password" body) s))
  = VaultStore.records s.
Proof.
  unfold VaultStore.handle. cbn.
  now destruct (VaultStore.vault s), (VaultStore.field "passwordHash" body),
    (VaultStore.field "salt" body).
Qed.

Lemma http_store_records (server_hash : string -> string) (req : Request)
    (w : @World (VaultStore.backend server_hash)) :
  (forall s, VaultStore.records (snd (VaultStore.handle server_hash req s))
             = VaultStore.records s) ->
  VaultStore.records (server (snd (http req w))) = VaultStore.records (server w).
Proof.
  intros H. unfold http. world_simpl. destruct (online w); [|reflexivity].
  specialize (H (server w)). cbn [serve VaultStore.backend].
  destruct (VaultStore.handle server_hash req (server w)). exact H.
Qed.

(** Whatever the runtime and the server hash, [changePassword] leaves
    every stored ciphertext and IV as it was. *)
Lemma changePassword_keeps_records (P : WebPlatform) (server_hash : string -> string)
    (oldPassword newPassword : string) (w : @World (VaultStore.backend server_hash)) :
  VaultStore.records
    (server (Session.after (VaultContext.changePassword oldPassword newPassword) w))
  = VaultStore.records (server w).
Proof.
  unfold Session.after. rewrite changePassword_run. cbv zeta.
  match goal with |- context [http ?r w] =>
    pose proof (http_store_records server_hash r w
                  (handle_verify_records server_hash _)) as H1;
    destruct (http r w) as [[d|e] w1] end; cbn [snd] in H1; [|exact H1].
  destruct (negb _); [exact H1|].
  destruct (fst (Crypto.deriveKey oldPassword _ w1)); [|exact H1].
  destruct (fst (Crypto.deriveKey newPassword _ _)); [|exact H1].
  match goal with |- context [http ?r ?w2] =>
    pose proof (http_store_records server_hash r w2
                  (handle_password_records server_hash _)) as H3;
    destruct (http r w2) as [[d2|e] w3] end; cbn [snd] in H3;
    unfold Session.after, console_error, modify; world_simpl; now rewrite H3.
Qed.

End ProtocolFacts.

(** C4 (the second half fails). When the server rejects the digest,
    [unlock] settles with [false], leaves state, session key, salt and
    timer as they were and logs nothing. When the backend cannot be
    reached, [unlock] settles with [false] all the same: the network error
    is logged to the console and swallowed. In both cases
    [UnlockVaultModal] tells the user "Incorrect password". *)
Theorem unlock_failures_look_alike (P : WebPlatform) (B : Backend)
    (message_of : JsError -> string) (password : string) (error : option string)
    (w : World) (Hpassword : password <> "") :
  (forall d w1,
      http (verify_request password) w = (inl d, w1) ->
      verify_success (Api.as_verify d) = false ->
      VaultContext.unlock password w = (inl false, w1)
      /\ frame w w1 /\ console w1 = console w
      /\ UnlockVaultModal.handleSubmit message_of (VaultContext.unlock (P:=P))
           password error w
         = (inl (Some "Incorrect password"), w1))
  /\ (online w = false ->
      exists w',
        VaultContext.unlock password w = (inl false, w')
        /\ frame w w'
        /\ console w' = console w ++ [("Failed to unlock vault:", NetworkError)]
        /\ UnlockVaultModal.handleSubmit message_of (VaultContext.unlock (P:=P))
             password error w
           = (inl (Some "Incorrect password"), w')).
Proof.
  assert (Hmodal : forall w',
    VaultContext.unlock password w = (inl false, w') ->
    UnlockVaultModal.handleSubmit message_of (VaultContext.unlock (P:=P))
      password error w
    = (inl (Some "Incorrect password"), w')).
  { intros w' Hrun. unfold UnlockVaultModal.handleSubmit.
    apply String.eqb_neq in Hpassword. rewrite Hpassword.
    unfold try_catch, bind, ret. now rewrite Hrun. }
  split.
  - intros d w1 Hhttp Hrejected.
    destruct (ProtocolFacts.unlock_rejected password w w1 d Hhttp Hrejected)
      as (Hrun & F & Hlog).
    auto.
  - intros Hoffline.
    destruct (ProtocolFacts.unlock_offline password w Hoffline) as (w' & Hrun & F & Hlog).
    exists w'. auto.
Qed.

Lemma unlock_failures_look_alike_witness :
  exists w',
    VaultContext.unlock (P:=Symbolic.platform) "Correct-Horse1" Sample.offline_tab
      = (inl false, w')
    /\ UnlockVaultModal.handleSubmit (fun _ => "Failed to unlock vault")
         (VaultContext.unlock (P:=Symbolic.platform)) "Correct-Horse1" None
         Sample.offline_tab
       = (inl (Some "Incorrect password"), w').
Proof.
  destruct (unlock_failures_look_alike Symbolic.platform Symbolic.backend
              (fun _ => "Failed to unlock vault") "Correct-Horse1" None
              Sample.offline_tab)
    as (_ & Hoffline).
  - discriminate.
  - destruct Hoffline as (w' & Hrun & _ & _ & Hmodal); [reflexivity|].
    exists w'. split; assumption.
Defined.

(** C9. The verification digest is the hex of SHA-256 of the password: 64
    characters, the same in any two worlds (whatever salt is stored or
    drawn). [unlock] sends one request, carrying that digest; [setupVault]
    sends one, carrying the digest, the hex of the fresh salt and the
    hint; [changePassword] sends the digest of the old password and, if
    the server accepts it, the digest of the new one with the hex of the
    new salt. No request carries a password or a key, and two passwords
    with the same digest cause the same requests. *)
Theorem digest_only_transmitted (P : WebPlatform) (B : Backend)
    (laws : WebPlatformLaws P) (password newPassword : string)
    (hint : option string) (w : World) :
  (forall w1 w2,
      Crypto.hashPassword password w1 = (inl (digest_hex password), w1)
      /\ Crypto.hashPassword password w2 = (inl (digest_hex password), w2))
  /\ String.length (digest_hex password) = 64%nat
  /\ sent (Session.after (VaultContext.unlock password) w)
     = sent w ++ [mkRequest POST "/vault/verify" [("password", digest_hex password)]]
  /\ sent (Session.after (VaultContext.setupVault password hint) w)
     = sent w
       ++ [mkRequest POST "/vault/setup"
             ([("passwordHash", digest_hex password);
               ("salt", Crypto.bytesToHex (fresh_bytes Crypto.SALT_LENGTH w))]
                ++ Api.optional_field "hint" hint)]
  /\ sent (Session.after (VaultContext.changePassword password newPassword) w)
     = (let '(r, w1) := http (verify_request password) w in
        sent w
        ++ mkRequest POST "/vault/verify" [("password", digest_hex password)]
           :: match r with
              | inl d =>
                  if verify_success (Api.as_verify d)
                  then [mkRequest PUT "/vault/password"
                          [("passwordHash", digest_hex newPassword);
                           ("salt",
                            Crypto.bytesToHex (fresh_bytes Crypto.SALT_LENGTH w1))]]
                  else []
              | inr _ => []
              end)
  /\ (forall password',
        digest_hex password' = digest_hex password ->
        sent (Session.after (VaultContext.unlock password') w)
        = sent (Session.after (VaultContext.unlock password) w)
        /\ sent (Session.after (VaultContext.setupVault password' hint) w)
           = sent (Session.after (VaultContext.setupVault password hint) w)
        /\ sent (Session.after (VaultContext.changePassword password' newPassword) w)
           = sent (Session.after (VaultContext.changePassword password newPassword) w)
        /\ sent (Session.after (VaultContext.changePassword newPassword password') w)
           = sent (Session.after (VaultContext.changePassword newPassword password) w)).
Proof.
  split; [intros; split; reflexivity|]. split.
  { unfold digest_hex, Crypto.bytesToHex.
    now rewrite HexFacts.bytesToHex_length, (sha256_length P laws). }
  split; [apply ProtocolFacts.unlock_sent|].
  split; [apply ProtocolFacts.setupVault_sent|].
  split; [apply (ProtocolFacts.changePassword_sent_exact laws)|].
  intros password' Hsame.
  rewrite !ProtocolFacts.unlock_sent, !ProtocolFacts.setupVault_sent,
    !(ProtocolFacts.changePassword_sent_exact laws).
  unfold verify_request. fold (digest_hex password) (digest_hex password').
  now rewrite Hsame.
Qed.

Lemma digest_only_transmitted_witness :
  sent (Session.after (VaultContext.unlock (P:=Symbolic.platform) "Correct-Horse1")
          Sample.fresh_tab)
  = [mkRequest POST "/vault/verify"
       [("password",
         "436f72726563742d486f72736531000000000000000000000000000000000000")]]
  /\ String.length
       "436f72726563742d486f72736531000000000000000000000000000000000000" = 64%nat.
Proof.
  destruct (digest_only_transmitted Symbolic.platform Symbolic.backend
              SymbolicFacts.laws "Correct-Horse1" "New-Password2" None
              Sample.fresh_tab)
    as (_ & Hlength & Hunlock & _).
  split; [exact Hunlock | exact Hlength].
Defined.

(** C1 (fails). A drawing sealed under the key of "Correct-Horse1" is
    stored as record "d1"; [changePassword] to "New-Password2" succeeds
    and installs the new key, but the stored ciphertext and IV are the
    ones from before: the record still opens under the old key and is
    rejected under the new one. *)
Theorem rekey_orphans_records :
  exists enc oldKey newKey,
    fst Sample.sealed = inl enc
    /\ sessionKey Sample.stored_tab = Some oldKey
    /\ VaultStore.records (server Sample.stored_tab)
       = {["d1" := VaultStore.mkEncryptedRecord
                     (Crypto.encryptedData enc) (Crypto.iv enc)]}
    /\ fst (Sample.rekey Sample.stored_tab) = inl tt
    /\ sessionKey Sample.rekeyed_tab = Some newKey
    /\ VaultStore.records (server Sample.rekeyed_tab)
       = VaultStore.records (server Sample.stored_tab)
    /\ fst (Crypto.decryptDrawing (P:=Symbolic.platform)
              (Crypto.encryptedData enc) (Crypto.iv enc) oldKey Sample.rekeyed_tab)
       = inl Sample.drawing
    /\ fst (Crypto.decryptDrawing (P:=Symbolic.platform)
              (Crypto.encryptedData enc) (Crypto.iv enc) newKey Sample.rekeyed_tab)
       = inr OperationError.
Proof.
  do 3 eexists. repeat split; vm_compute; reflexivity.
Qed.

(** ** More on the hex codec *)

Module HexMore.
Import Hex.

Lemma byteToHex_lower (b : byte) :
  exists c1 c2,
    byteToHex b = String c1 (String c2 "")
    /\ isLowerHexChar c1 = true /\ isLowerHexChar c2 = true.
Proof. destruct b; do 2 eexists; repeat split. Qed.

Lemma bytesToHex_lower (bs : bytes) : isLowerHex (bytesToHex bs) = true.
Proof.
  induction bs as [|b bs IH]; [reflexivity|].
  rewrite HexFacts.bytesToHex_cons.
  destruct (byteToHex_lower b) as (c1 & c2 & -> & H1 & H2).
  rewrite !HexFacts.append_cons. change ("" +:+ bytesToHex bs) with (bytesToHex bs).
  cbn [isLowerHex]. now rewrite H1, H2, IH.
Qed.

Lemma even_length (h : string) :
  Nat.even (String.length h) = true -> exists n, String.length h = (2 * n)%nat.
Proof. intros H. apply Nat.even_spec in H. exact H. Qed.

Lemma hexToBytes_odd_tail (c : ascii) (n : nat) : forall h : string,
  String.length h = (2 * n)%nat ->
  hexToBytes (h +:+ String c "") = hexToBytes h.
Proof.
  induction n as [|n IH]; intros h Hlen.
  - destruct h; [reflexivity | discriminate].
  - destruct h as [|c1 [|c2 h]]; try (cbn in Hlen; lia).
    rewrite !HexFacts.append_cons, !HexFacts.hexToBytes_cons2.
    rewrite IH; [reflexivity | cbn in Hlen; lia].
Qed.

Lemma bytesToHex_inj (a b : bytes) : bytesToHex a = bytesToHex b -> a = b.
Proof.
  intros H. rewrite <- (HexFacts.hexToBytes_bytesToHex a), H.
  apply HexFacts.hexToBytes_bytesToHex.
Qed.

End HexMore.

(** X1. [bytesToHex] writes two characters for every byte, all of them
    digits or lower-case letters a to f; so it never writes the same text
    for two different byte arrays. *)
Theorem bytesToHex_two_lower_hex_per_byte (bs bs' : bytes) :
  String.length (Hex.bytesToHex bs) = (2 * List.length bs)%nat
  /\ Hex.isLowerHex (Hex.bytesToHex bs) = true
  /\ (Hex.bytesToHex bs = Hex.bytesToHex bs' <-> bs = bs').
Proof.
  split; [apply HexFacts.bytesToHex_length|].
  split; [apply HexMore.bytesToHex_lower|].
  split; [apply HexMore.bytesToHex_inj | now intros ->].
Qed.

(** X2. Encoding what [hexToBytes] decoded gives the text back exactly
    when the text has an even number of characters, all of them digits or
    lower-case letters a to f. *)
Theorem hex_text_roundtrip (h : string) :
  Hex.bytesToHex (Hex.hexToBytes h) = h
  <-> Nat.even (String.length h) = true /\ Hex.isLowerHex h = true.
Proof.
  split.
  - intros E. rewrite <- E. split.
    + rewrite HexFacts.bytesToHex_length. apply Nat.even_spec. now eexists.
    + apply HexMore.bytesToHex_lower.
  - intros [Heven Hhex]. destruct (HexMore.even_length h Heven) as (n & Hn).
    exact (HexFacts.bytesToHex_hexToBytes n h Hn Hhex).
Qed.

(** X3. [hexToBytes] never fails: it gives half as many bytes as the text
    has characters, rounded down, and a last character without a partner
    is ignored. *)
Theorem hexToBytes_drops_odd_tail (h : string) (c : ascii)
    (Heven : Nat.even (String.length h) = true) :
  List.length (Hex.hexToBytes h) = (String.length h / 2)%nat
  /\ List.length (Hex.hexToBytes (h +:+ String c "")) = (String.length h / 2)%nat
  /\ Hex.hexToBytes (h +:+ String c "") = Hex.hexToBytes h.
Proof.
  destruct (HexMore.even_length h Heven) as (n & Hn).
  rewrite (HexMore.hexToBytes_odd_tail c n h Hn).
  unfold Hex.hexToBytes. now rewrite length_map, length_seq.
Qed.

Lemma hexToBytes_drops_odd_tail_witness :
  List.length (Hex.hexToBytes "a1b2") = 2%nat
  /\ Hex.hexToBytes ("a1b2" +:+ "c") = Hex.hexToBytes "a1b2".
Proof.
  destruct (hexToBytes_drops_odd_tail "a1b2" "c" eq_refl) as (H1 & _ & H3).
  split; [exact H1 | exact H3].
Defined.

(** ** Password strength *)

Module StrengthFacts.
Import PasswordStrength.

Example validatePasswordStrength_samples :
  validatePasswordStrength "Correct-Horse1"
  = mkStrength true 4 ["Include at least one special character"]
  /\ validatePasswordStrength "aaaaaaaa"
     = mkStrength true 1
         ["Include both uppercase and lowercase letters";
          "Include at least one number";
          "Include at least one special character"]
  /\ validatePasswordStrength "aB3$"
     = mkStrength false 3 ["Password should be at least 8 characters"].
Proof. repeat split; reflexivity. Qed.

(** The five checks, side by side. *)
Lemma validatePasswordStrength_run (password : string) :
  validatePasswordStrength password
  = let long8 := (8 <=? String.length password)%nat in
    let long12 := (12 <=? String.length password)%nat in
    let cased := test is_lower password && test is_upper password in
    let digit := test is_digit password in
    let special := test is_special password in
    mkStrength long8
      (Nat.min (points long8 + points long12 + points cased + points digit
                + points special) 4)
      (complaint long8 "Password should be at least 8 characters"
       ++ complaint cased "Include both uppercase and lowercase letters"
       ++ complaint digit "Include at least one number"
       ++ complaint special "Include at least one special character").
Proof.
  unfold validatePasswordStrength. cbv zeta.
  destruct (8 <=? _)%nat, (12 <=? _)%nat, (test is_lower _ && test is_upper _),
    (test is_digit _), (test is_special _); reflexivity.
Qed.

Lemma complaint_length (b : bool) (m : string) :
  List.length (complaint b m) = (1 - points b)%nat.
Proof. now destruct b. Qed.

Lemma complaint_In (b : bool) (m x : string) :
  In x (complaint b m) <-> b = false /\ x = m.
Proof. destruct b; cbn; intuition congruence. Qed.

Lemma length_append (s t : string) :
  String.length (s +:+ t) = (String.length s + String.length t)%nat.
Proof.
  induction s as [|c s IH]; [reflexivity|].
  rewrite HexFacts.append_cons. cbn [String.length]. now rewrite IH.
Qed.

Lemma list_ascii_of_append (s t : string) :
  list_ascii_of_string (s +:+ t) = list_ascii_of_string s ++ list_ascii_of_string t.
Proof.
  induction s as [|c s IH]; [reflexivity|].
  rewrite HexFacts.append_cons. cbn [list_ascii_of_string]. now rewrite IH.
Qed.

Lemma test_append (class : ascii -> bool) (s t : string) :
  test class (s +:+ t) = test class s || test class t.
Proof. unfold test. now rewrite list_ascii_of_append, existsb_app. Qed.

Lemma points_le (b b' : bool) : (b = true -> b' = true) -> (points b <= points b')%nat.
Proof. destruct b, b'; cbn; intros H; try lia; discriminate (H eq_refl). Qed.

Lemma complaint_incl (b b' : bool) (m x : string) :
  (b = true -> b' = true) -> In x (complaint b' m) -> In x (complaint b m).
Proof.
  rewrite !complaint_In. intros H [Hb' ->]. split; [|reflexivity].
  destruct b; [|reflexivity]. rewrite H in Hb'; [discriminate | reflexivity].
Qed.

End StrengthFacts.

(** X4. What [validatePasswordStrength] reports. The password is valid
    exactly when it has 8 characters or more, whatever its score. Each of
    the four messages is in the feedback exactly when its check fails, and
    no message comes twice. Every passed check is one point, 12 characters
    or more are one more, and the score is capped at 4. *)
Theorem password_strength_accounting (password : string) :
  let r := PasswordStrength.validatePasswordStrength password in
  let test := PasswordStrength.test in
  (PasswordStrength.isValid r = true <-> (8 <= String.length password)%nat)
  /\ (In "Password should be at least 8 characters" (PasswordStrength.feedback r)
      <-> (String.length password < 8)%nat)
  /\ (In "Include both uppercase and lowercase letters" (PasswordStrength.feedback r)
      <-> ~ (test PasswordStrength.is_lower password = true
             /\ test PasswordStrength.is_upper password = true))
  /\ (In "Include at least one number" (PasswordStrength.feedback r)
      <-> test PasswordStrength.is_digit password = false)
  /\ (In "Include at least one special character" (PasswordStrength.feedback r)
      <-> test PasswordStrength.is_special password = false)
  /\ NoDup (PasswordStrength.feedback r)
  /\ PasswordStrength.score r
     = Nat.min 4 (4 - List.length (PasswordStrength.feedback r)
                  + (if (12 <=? String.length password)%nat then 1 else 0))%nat.
Proof.
  cbv zeta. rewrite StrengthFacts.validatePasswordStrength_run. cbv zeta.
  cbn [PasswordStrength.isValid PasswordStrength.feedback PasswordStrength.score].
  rewrite !length_app, !StrengthFacts.complaint_length.
  repeat rewrite in_app_iff. rewrite !StrengthFacts.complaint_In.
  destruct (Nat.leb_spec 8 (String.length password)) as [H8|H8];
    destruct (12 <=? String.length password)%nat;
    destruct (PasswordStrength.test PasswordStrength.is_lower password);
    destruct (PasswordStrength.test PasswordStrength.is_upper password);
    destruct (PasswordStrength.test PasswordStrength.is_digit password);
    destruct (PasswordStrength.test PasswordStrength.is_special password);
    cbn [andb points complaint app];
    (repeat split;
     first [ lia | discriminate | reflexivity
           | solve [intuition (discriminate || lia || congruence)]
           | solve [apply NoDup_ListNoDup; repeat constructor; cbn [In];
                    intuition discriminate] ]).
Qed.

(** X5. Typing more characters never hurts: the score does not drop, a
    valid password stays valid, and no message appears that was not there
    before. *)
Theorem password_strength_monotone (password more : string) :
  let r := PasswordStrength.validatePasswordStrength password in
  let r' := PasswordStrength.validatePasswordStrength (password +:+ more) in
  (PasswordStrength.score r <= PasswordStrength.score r')%nat
  /\ (PasswordStrength.isValid r = true -> PasswordStrength.isValid r' = true)
  /\ (forall message,
        In message (PasswordStrength.feedback r') ->
        In message (PasswordStrength.feedback r)).
Proof.
  cbv zeta. rewrite !StrengthFacts.validatePasswordStrength_run. cbv zeta.
  cbn [PasswordStrength.isValid PasswordStrength.feedback PasswordStrength.score].
  rewrite !StrengthFacts.test_append, StrengthFacts.length_append.
  assert (H8 : (8 <=? String.length password)%nat = true ->
               (8 <=? String.length password + String.length more)%nat = true).
  { rewrite !Nat.leb_le. lia. }
  assert (H12 : (12 <=? String.length password)%nat = true ->
                (12 <=? String.length password + String.length more)%nat = true).
  { rewrite !Nat.leb_le. lia. }
  assert (Hor : forall a b, a = true -> a || b = true) by (now intros a b ->).
  assert (Hc : PasswordStrength.test PasswordStrength.is_lower password
               && PasswordStrength.test PasswordStrength.is_upper password = true ->
               (PasswordStrength.test PasswordStrength.is_lower password
                || PasswordStrength.test PasswordStrength.is_lower more)
               && (PasswordStrength.test PasswordStrength.is_upper password
                   || PasswordStrength.test PasswordStrength.is_upper more) = true).
  { intros [-> ->]%andb_prop. reflexivity. }
  split; [|split].
  - pose proof (StrengthFacts.points_le _ _ H8).
    pose proof (StrengthFacts.points_le _ _ H12).
    pose proof (StrengthFacts.points_le _ _ Hc).
    pose proof (StrengthFacts.points_le _ _
                  (Hor (PasswordStrength.test PasswordStrength.is_digit password)
                       (PasswordStrength.test PasswordStrength.is_digit more))).
    pose proof (StrengthFacts.points_le _ _
                  (Hor (PasswordStrength.test PasswordStrength.is_special password)
                       (PasswordStrength.test PasswordStrength.is_special more))).
    lia.
  - exact H8.
  - intros message. repeat rewrite in_app_iff.
    intros [H|[H|[H|H]]].
    + left. exact (StrengthFacts.complaint_incl _ _ _ _ H8 H).
    + right; left. exact (StrengthFacts.complaint_incl _ _ _ _ Hc H).
    + right; right; left. exact (StrengthFacts.complaint_incl _ _ _ _ (Hor _ _) H).
    + right; right; right. exact (StrengthFacts.complaint_incl _ _ _ _ (Hor _ _) H).
Qed.

(** X6. The strength meter. The label and the colour of the bar go
    together for every score. For the score of a password: it reads
    "Strong" exactly when no message is shown, or one message and the
    password has 12 characters or more; and a valid password reads "Weak"
    exactly when it has fewer than 12 characters and fails all three
    character checks. *)
Theorem strength_meter_reading (password : string) :
  let r := PasswordStrength.validatePasswordStrength password in
  let text := StrengthMeter.getStrengthText in
  let colour := StrengthMeter.getStrengthColor in
  (forall n,
      (text n = "Weak" <-> colour n = "bg-red-500")
      /\ (text n = "Fair" <-> colour n = "bg-orange-500")
      /\ (text n = "Good" <-> colour n = "bg-yellow-500")
      /\ (text n = "Strong" <-> colour n = "bg-green-500"))
  /\ (text (PasswordStrength.score r) = "Strong"
      <-> PasswordStrength.feedback r = []
          \/ ((12 <= String.length password)%nat
              /\ List.length (PasswordStrength.feedback r) = 1%nat))
  /\ (PasswordStrength.isValid r = true ->
      (text (PasswordStrength.score r) = "Weak"
       <-> (String.length password < 12)%nat
           /\ List.length (PasswordStrength.feedback r) = 3%nat)).
Proof.
  cbv zeta. split.
  - intros [|[|[|[|n]]]]; cbn; intuition discriminate.
  - rewrite StrengthFacts.validatePasswordStrength_run. cbv zeta.
    cbn [PasswordStrength.isValid PasswordStrength.feedback PasswordStrength.score].
    destruct (Nat.leb_spec 8 (String.length password)) as [H8|H8];
      destruct (Nat.leb_spec 12 (String.length password)) as [H12|H12];
      try lia;
      destruct (PasswordStrength.test PasswordStrength.is_lower password
                && PasswordStrength.test PasswordStrength.is_upper password);
      destruct (PasswordStrength.test PasswordStrength.is_digit password);
      destruct (PasswordStrength.test PasswordStrength.is_special password);
      cbn; intuition (discriminate || lia).
Qed.

(** ** The password forms *)

Module FormFacts.

Lemma eqb_empty_length (s : string) : String.eqb s "" = negb (0 <? String.length s)%nat.
Proof. now destruct s. Qed.

Lemma isValid_length (password : string) :
  PasswordStrength.isValid (PasswordStrength.validatePasswordStrength password)
  = (8 <=? String.length password)%nat.
Proof. now rewrite StrengthFacts.validatePasswordStrength_run. Qed.

Lemma change_canSubmit (oldPassword newPassword confirmPassword : string) :
  ChangeVaultPassword.canSubmit oldPassword newPassword confirmPassword = true
  <-> oldPassword <> "" /\ confirmPassword = newPassword
      /\ (8 <= String.length newPassword)%nat.
Proof.
  unfold ChangeVaultPassword.canSubmit, ChangeVaultPassword.passwordsMatch.
  rewrite isValid_length, !andb_true_iff, String.eqb_eq, Nat.leb_le, !Nat.ltb_lt.
  destruct oldPassword; cbn [String.length]; intuition (try lia; try congruence).
Qed.

Lemma setup_canSubmit (password confirmPassword : string) :
  PrivateVaultSetup.canSubmit password confirmPassword = true
  <-> password = confirmPassword /\ (8 <= String.length password)%nat.
Proof.
  unfold PrivateVaultSetup.canSubmit, PrivateVaultSetup.passwordsMatch.
  rewrite isValid_length, !andb_true_iff, String.eqb_eq, Nat.leb_le, !Nat.ltb_lt.
  intuition lia.
Qed.

Section FormFacts.
Context {P : WebPlatform} {B : Backend}.

(** Where an axios call leaves the world. *)
Lemma http_world (req : Request) (w : World) :
  exists r s', http req w = (r, set_server s' (set_sent (sent w ++ [req]) w))
               /\ (online w = false -> r = inr NetworkError).
Proof.
  unfold http. VaultFacts.world_simpl. destruct (online w).
  - destruct (serve req (server w)) as [r s']. exists r, s'. split; [reflexivity|].
    discriminate.
  - exists (inr NetworkError), (server w). split; [|reflexivity]. now destruct w.
Qed.

Lemma deriveKey_fst_world (password : string) (salt0 : bytes) (w w' : World) :
  fst (Crypto.deriveKey password salt0 w) = fst (Crypto.deriveKey password salt0 w').
Proof.
  unfold Crypto.deriveKey. VaultFacts.run_async.
  destruct (SubtleCrypto.importKey_raw_PBKDF2 _ _ _); reflexivity.
Qed.

End FormFacts.
End FormFacts.

(** ** The context functions, call by call *)

Module ContextMore.
Import VaultContext VaultFacts FormFacts.

Ltac step_http :=
  match goal with
  | |- context [http ?req ?w0] =>
      let r := fresh "r" in
      let s' := fresh "s'" in
      let E := fresh "E" in
      let Hoff := fresh "Hoff" in
      destruct (http_world req w0) as (r & s' & E & Hoff); rewrite E; clear E
  end.

Section ContextMore.
Context {P : WebPlatform} {B : Backend}.

Lemma checkVaultStatus_run (w : World) :
  checkVaultStatus w
  = let w0 := set_state (with_isLoading true (state w)) w in
    let '(r, w1) := http (mkRequest GET "/vault/status" []) w0 in
    match r with
    | inr e =>
        (inl tt,
         set_state (with_isLoading false (state w1))
           (set_console (console w1 ++ [("Failed to check vault status:", e)]) w1))
    | inl d =>
        let status := Api.as_status d in
        let w2 :=
          set_state
            (mkVaultState (status_isSetup status) (isUnlocked (state w1)) false
               (or_null (status_hint status))
               (default 0 (status_privateDrawingsCount status))) w1 in
        (inl tt,
         match or_null (status_salt status) with
         | Some s => set_salt (Some (Crypto.hexToBytes s)) w2
         | None => w2
         end)
    end.
Proof.
  unfold checkVaultStatus, Api.getVaultStatus, setState, setSalt, console_error.
  run_async. cbn -[http Crypto.hexToBytes].
  destruct (http _ _) as [[d|e] w1]; [|reflexivity].
  cbn -[http Crypto.hexToBytes].
  now destruct (or_null (status_salt (Api.as_status d))).
Qed.

Lemma http_set_state (req : Request) (st : VaultState) (w : World) :
  http req (set_state st w)
  = let '(r, w1) := http req w in (r, set_state st w1).
Proof.
  unfold http. world_simpl. destruct (online w); [|reflexivity].
  now destruct (serve req (server w)).
Qed.

Lemma updateHint_run (hint : string) (w : World) :
  updateHint hint w
  = let '(r, w1) := http (mkRequest PUT "/vault/hint" [("hint", hint)]) w in
    match r with
    | inr e => (inr e, set_console (console w1 ++ [("Failed to update hint:", e)]) w1)
    | inl _ => (inl tt, set_state (with_passwordHint (Some hint) (state w1)) w1)
    end.
Proof.
  unfold updateHint, Api.updateVaultHint, setState, console_error.
  run_async. cbn -[http].
  destruct (http _ _) as [[d|e] w1]; reflexivity.
Qed.

End ContextMore.
End ContextMore.

(** X7. [checkVaultStatus] never rejects and always ends with
    [isLoading] false. It sends one GET, and leaves [isUnlocked], the
    session key and the timers alone. When the request fails the error is
    logged and set-up flag, hint, count and salt stay as they were; when
    it succeeds they follow the answer, an empty or missing hint reading
    as null and an empty or missing salt leaving the salt as it was. *)
Theorem checkVaultStatus_settles (P : WebPlatform) (B : Backend) (w : World) :
  let request := mkRequest GET "/vault/status" [] in
  let w' := Session.after VaultContext.checkVaultStatus w in
  VaultContext.checkVaultStatus w = (inl tt, w')
  /\ isLoading (state w') = false
  /\ isUnlocked (state w') = isUnlocked (state w)
  /\ sessionKey w' = sessionKey w
  /\ timers w' = timers w /\ autoLockTimer w' = autoLockTimer w
  /\ sent w' = sent w ++ [request]
  /\ match fst (http request w) with
     | inr e =>
         isSetup (state w') = isSetup (state w)
         /\ passwordHint (state w') = passwordHint (state w)
         /\ privateDrawingsCount (state w') = privateDrawingsCount (state w)
         /\ salt w' = salt w
         /\ console w' = console w ++ [("Failed to check vault status:", e)]
     | inl d =>
         let status := Api.as_status d in
         isSetup (state w') = status_isSetup status
         /\ passwordHint (state w') = VaultContext.or_null (status_hint status)
         /\ privateDrawingsCount (state w')
            = default 0%nat (status_privateDrawingsCount status)
         /\ salt w'
            = match VaultContext.or_null (status_salt status) with
              | Some s => Some (Crypto.hexToBytes s)
              | None => salt w
              end
         /\ console w' = console w
     end.
Proof.
  cbv zeta. unfold Session.after. rewrite ContextMore.checkVaultStatus_run. cbv zeta.
  rewrite ContextMore.http_set_state.
  destruct (FormFacts.http_world (mkRequest GET "/vault/status" []) w)
    as (r & s' & E & _).
  rewrite E. cbn [fst]. destruct r as [d|e].
  - destruct (VaultContext.or_null (status_salt (Api.as_status d)));
      VaultFacts.world_simpl; repeat split.
  - VaultFacts.world_simpl. repeat split.
Qed.

(** X8. [updateHint] sends one PUT and touches neither key, salt nor
    timers. If the request fails it rejects with the request's own error,
    logs it and leaves the state as it was; if it succeeds the hint is the
    text given (an empty text stays an empty text) and nothing else
    changes. *)
Theorem updateHint_all_or_nothing (P : WebPlatform) (B : Backend)
    (hint : string) (w : World) :
  let request := mkRequest PUT "/vault/hint" [("hint", hint)] in
  let w' := Session.after (VaultContext.updateHint hint) w in
  sent w' = sent w ++ [request]
  /\ sessionKey w' = sessionKey w /\ salt w' = salt w /\ timers w' = timers w
  /\ match fst (VaultContext.updateHint hint w) with
     | inr e =>
         fst (http request w) = inr e
         /\ state w' = state w
         /\ console w' = console w ++ [("Failed to update hint:", e)]
     | inl _ =>
         state w' = VaultContext.with_passwordHint (Some hint) (state w)
         /\ console w' = console w
     end.
Proof.
  cbv zeta. unfold Session.after. rewrite ContextMore.updateHint_run.
  destruct (FormFacts.http_world (mkRequest PUT "/vault/hint" [("hint", hint)]) w)
    as (r & s' & E & _).
  rewrite E. destruct r as [d|e]; VaultFacts.world_simpl; repeat split.
Qed.

(** X9. [setupVault] is all or nothing. It draws a 16-byte salt and sends
    one POST. If anything fails it rejects with that very error, logs it,
    and state, key, salt and timers are as before. If it resolves, the
    vault is set up and unlocked, the hint is the one given (empty reads
    as null), the salt kept is the one drawn, the key kept is the one
    derived from the password and that salt, and nothing is logged. *)
Theorem setupVault_all_or_nothing (P : WebPlatform) (B : Backend)
    (password : string) (hint : option string) (w : World) :
  let newSalt := fresh_bytes Crypto.SALT_LENGTH w in
  let w' := Session.after (VaultContext.setupVault password hint) w in
  drawn w' = (drawn w + 16)%nat
  /\ List.length newSalt = 16%nat
  /\ sent w'
     = sent w
       ++ [mkRequest POST "/vault/setup"
             ([("passwordHash", digest_hex password);
               ("salt", Crypto.bytesToHex newSalt)]
                ++ Api.optional_field "hint" hint)]
  /\ match fst (VaultContext.setupVault password hint w) with
     | inr e =>
         frame w w' /\ console w' = console w ++ [("Failed to setup vault:", e)]
     | inl _ =>
         isSetup (state w') = true /\ isUnlocked (state w') = true
         /\ passwordHint (state w') = VaultContext.or_null hint
         /\ salt w' = Some newSalt
         /\ (exists key,
               sessionKey w' = Some key
               /\ fst (Crypto.deriveKey password newSalt w) = inl key)
         /\ console w' = console w
     end.
Proof.
  cbv zeta. unfold Session.after. rewrite VaultFacts.setupVault_run. cbv zeta.
  fold (digest_hex password).
  split; [|split; [apply CryptoFacts.fresh_bytes_length|]].
  - ContextMore.step_http. destruct r as [d|e]; [|reflexivity].
    destruct (fst (Crypto.deriveKey _ _ _)); [|reflexivity].
    cbn [snd]. unfold Session.after. rewrite VaultFacts.resetAutoLockTimer_run.
    cbn [snd]. VaultFacts.world_simpl.
    now destruct (isUnlocked (state w)), (autoLockTimer w).
  - ContextMore.step_http. destruct r as [d|e].
    + rewrite (FormFacts.deriveKey_fst_world password _ _ w).
      destruct (fst (Crypto.deriveKey _ _ w)) as [key|e] eqn:Hkey; cbn [fst snd].
      * unfold Session.after. rewrite VaultFacts.resetAutoLockTimer_run.
        cbn [snd]. VaultFacts.world_simpl.
        destruct (isUnlocked (state w)), (autoLockTimer w);
          VaultFacts.world_simpl; repeat split; eauto.
      * repeat split.
    + cbn [fst snd]. repeat split.
Qed.

(** X10. [changePassword] is all or nothing, and never unlocks or locks.
    If anything fails (the old password is rejected with "Invalid current
    password") it rejects with that very error, logs it, and state, key,
    salt and timers are as before. If it resolves, the new salt is the 16
    bytes it drew from the random source, the next 16 the source had to
    give, and the new key is the one derived from the new password and
    that salt; they replace the old ones, and state and timers are as
    before: [isUnlocked] is not touched and no timer is set. *)
Theorem changePassword_all_or_nothing (P : WebPlatform) (B : Backend)
    (oldPassword newPassword : string) (w : World) :
  let w' := Session.after (VaultContext.changePassword oldPassword newPassword) w in
  let newSalt := map (entropy w) (seq (drawn w) 16) in
  state w' = state w /\ timers w' = timers w /\ autoLockTimer w' = autoLockTimer w
  /\ match fst (VaultContext.changePassword oldPassword newPassword w) with
     | inr e =>
         sessionKey w' = sessionKey w /\ salt w' = salt w
         /\ console w' = console w ++ [("Failed to change password:", e)]
     | inl _ =>
         List.length newSalt = 16%nat
         /\ drawn w' = (drawn w + 16)%nat
         /\ entropy w' = entropy w
         /\ salt w' = Some newSalt
         /\ (exists newKey,
               sessionKey w' = Some newKey
               /\ fst (Crypto.deriveKey newPassword newSalt w) = inl newKey)
         /\ console w' = console w
     end
  /\ (forall d,
        fst (http (verify_request oldPassword) w) = inl d ->
        verify_success (Api.as_verify d) = false ->
        fst (VaultContext.changePassword oldPassword newPassword w)
        = inr (Error "Invalid current password")).
Proof.
  cbv zeta. unfold Session.after. rewrite VaultFacts.changePassword_run. cbv zeta.
  unfold verify_request, digest_hex.
  ContextMore.step_http. cbn [fst].
  destruct r as [d|e]; [|cbn [fst snd]; repeat split; discriminate].
  destruct (verify_success (Api.as_verify d)) eqn:Hok; cbn [negb].
  2:{ cbn [fst snd]. repeat split. }
  destruct (fst (Crypto.deriveKey oldPassword _ _)) as [oldKey|e];
    [|cbn [fst snd]; repeat split; try (intros d' [= <-]; congruence)].
  rewrite (FormFacts.deriveKey_fst_world newPassword _ _ w).
  change (fresh_bytes Crypto.SALT_LENGTH (set_server _ _))
    with (map (entropy w) (seq (drawn w) 16)).
  destruct (fst (Crypto.deriveKey newPassword _ w)) as [newKey|e] eqn:Hkey;
    [|cbn [fst snd]; repeat split; try (intros d' [= <-]; congruence)].
  ContextMore.step_http.
  destruct r as [d2|e]; cbn [fst snd]; VaultFacts.world_simpl;
    repeat split; try (intros d' [= <-]; congruence).
  eauto.
Qed.

Module UnlockFacts.
Import VaultContext VaultFacts FormFacts.

Section UnlockFacts.
Context {P : WebPlatform} {B : Backend}.

Lemma resetAutoLockTimer_frames (captured : bool) (w : World) :
  let w' := Session.after (resetAutoLockTimer captured) w in
  session_frame w w' /\ outside_frame w w'.
Proof.
  cbv zeta. unfold Session.after. rewrite resetAutoLockTimer_run. cbn [snd].
  destruct captured, (autoLockTimer w); repeat split.
Qed.

Lemma commit_frames (w : World) :
  let w' := Session.after commit w in
  session_frame w w' /\ outside_frame w w'.
Proof.
  cbv zeta. unfold Session.after. rewrite commit_run. cbn [snd].
  destruct (Bool.eqb _ _); [repeat split|].
  unfold effect_cleanup, effect_setup, Session.after, clearTimeout. run_async.
  destruct (effectDeps w), (isUnlocked (state w)), (autoLockTimer w);
    cbn [fst snd]; rewrite ?resetAutoLockTimer_run; world_simpl;
    repeat split; now destruct (autoLockTimer _).
Qed.

Lemma handleActivity_frames (w : World) :
  let w' := Session.after handleActivity w in
  session_frame w w' /\ outside_frame w w'.
Proof.
  cbv zeta. unfold Session.after, handleActivity. run_async. cbn [fst snd].
  destruct (effectDeps w); [|repeat split].
  apply (resetAutoLockTimer_frames true w).
Qed.

Lemma lock_outside (w : World) : outside_frame w (Session.after lock w).
Proof.
  unfold Session.after. rewrite lock_run. cbn [snd].
  destruct (autoLockTimer w); repeat split.
Qed.

(** The accepted digest: what [unlock] leaves behind. *)
Lemma unlock_accepted (password : string) (w : World) (d : ResponseData) :
  fst (http (verify_request password) w) = inl d ->
  verify_success (Api.as_verify d) = true ->
  let saltBytes := Crypto.hexToBytes (verify_salt (Api.as_verify d)) in
  let w' := Session.after (unlock password) w in
  match fst (Crypto.deriveKey password saltBytes w) with
  | inl key =>
      fst (unlock password w) = inl true
      /\ salt w' = Some saltBytes /\ sessionKey w' = Some key
      /\ state w' = with_isUnlocked true (state w)
      /\ console w' = console w
  | inr e =>
      fst (unlock password w) = inl false
      /\ frame w w' /\ console w' = console w ++ [("Failed to unlock vault:", e)]
  end.
Proof.
  intros Hhttp Hok. cbv zeta. unfold Session.after. rewrite unlock_run. cbv zeta.
  unfold verify_request, digest_hex in Hhttp.
  destruct (http_world
              (mkRequest POST "/vault/verify"
                 [("password",
                   Crypto.bytesToHex (digest SHA_256 (TextEncoder_encode password)))]) w)
    as (r & s' & E & _).
  rewrite E in *. cbn [fst] in Hhttp. subst r. rewrite Hok. cbn [negb].
  rewrite (deriveKey_fst_world password _ (set_server _ _) w).
  destruct (fst (Crypto.deriveKey password _ w)) as [key|e]; cbn [fst snd].
  - destruct (resetAutoLockTimer_frames (isUnlocked (state w))
                (set_state (with_isUnlocked true
                              (state (set_server s' (set_sent (sent w ++ [
                                 mkRequest POST "/vault/verify"
                                   [("password",
                                     Crypto.bytesToHex
                                       (digest SHA_256 (TextEncoder_encode password)))]]) w))))
                   (set_sessionKey (Some key)
                      (set_salt (Some (Crypto.hexToBytes (verify_salt (Api.as_verify d))))
                         (set_server s' (set_sent (sent w ++ [
                            mkRequest POST "/vault/verify"
                              [("password",
                                Crypto.bytesToHex
                                  (digest SHA_256 (TextEncoder_encode password)))]]) w))))))
      as ((Hst & Hkey & Hsalt) & (_ & _ & _ & _ & _ & Hcon)).
    rewrite Hst, Hkey, Hsalt, Hcon. repeat split.
  - repeat split.
Qed.

(** Every way [unlock] can fail. *)
Lemma unlock_refused (password : string) (w : World) :
  (forall d, fst (http (verify_request password) w) = inl d ->
             verify_success (Api.as_verify d) = false) ->
  let w' := Session.after (unlock password) w in
  fst (unlock password w) = inl false /\ frame w w'.
Proof.
  intros Hno. cbv zeta. unfold Session.after. rewrite unlock_run. cbv zeta.
  unfold verify_request, digest_hex in Hno.
  destruct (http_world
              (mkRequest POST "/vault/verify"
                 [("password",
                   Crypto.bytesToHex (digest SHA_256 (TextEncoder_encode password)))]) w)
    as (r & s' & E & _).
  rewrite E in *. cbn [fst] in Hno. destruct r as [d|e]; [|repeat split].
  rewrite (Hno d eq_refl). repeat split.
Qed.

End UnlockFacts.
End UnlockFacts.

(** X11. [unlock] never rejects. On a runtime whose built-ins keep their
    laws it resolves with true exactly when the backend answered the
    verification request with success. Then the salt kept is the decoded
    salt of the answer, the key kept is the AES-GCM key whose material is
    PBKDF2 of the password and that salt, the vault is unlocked and
    nothing is logged. Otherwise state, key, salt and timers are as
    before. *)
Theorem unlock_iff_server_accepts (P : WebPlatform) (B : Backend)
    (laws : WebPlatformLaws P) (password : string) (w : World) :
  let w' := Session.after (VaultContext.unlock password) w in
  exists unlocked,
    VaultContext.unlock password w = (inl unlocked, w')
    /\ (unlocked = true
        <-> exists d, fst (http (verify_request password) w) = inl d
                      /\ verify_success (Api.as_verify d) = true)
    /\ (if unlocked
        then exists d key,
               fst (http (verify_request password) w) = inl d
               /\ salt w' = Some (Crypto.hexToBytes (verify_salt (Api.as_verify d)))
               /\ sessionKey w' = Some key
               /\ vault_key key
               /\ key_handle key
                  = PBKDF2 SHA_256 (TextEncoder_encode password)
                      (Crypto.hexToBytes (verify_salt (Api.as_verify d)))
                      Crypto.PBKDF2_ITERATIONS 256
               /\ state w' = VaultContext.with_isUnlocked true (state w)
               /\ console w' = console w
        else frame w w').
Proof.
  cbv zeta.
  assert (Hpair : forall b, fst (VaultContext.unlock password w) = inl b ->
            VaultContext.unlock password w
            = (inl b, Session.after (VaultContext.unlock password) w)).
  { intros b Hb. unfold Session.after.
    destruct (VaultContext.unlock password w) as [r w']. cbn in *. now subst. }
  destruct (fst (http (verify_request password) w)) as [d|e] eqn:Hhttp.
  - destruct (verify_success (Api.as_verify d)) eqn:Hok.
    + pose proof (UnlockFacts.unlock_accepted password w d Hhttp Hok) as H.
      cbv zeta in H.
      pose proof (CryptoFacts.deriveKey_run laws password
                    (Crypto.hexToBytes (verify_salt (Api.as_verify d))) w) as Hkey.
      pose proof (CryptoFacts.deriveKey_vault_key laws _ _ _ _ _ Hkey) as Hvault.
      rewrite Hkey in H. cbn [fst] in H. destruct H as (Hrun & Hsalt & Hk & Hst & Hcon).
      exists true. split; [now apply Hpair|]. split; [split; eauto|].
      exists d. eexists. split; [reflexivity|]. split; [exact Hsalt|].
      split; [exact Hk|]. split; [exact Hvault|]. split; [reflexivity|].
      split; assumption.
    + destruct (UnlockFacts.unlock_refused password w) as (Hrun & F).
      { intros d' Hd'. congruence. }
      exists false. split; [now apply Hpair|]. split; [|exact F].
      split; [discriminate|]. intros (d' & Hd' & Hyes). congruence.
  - destruct (UnlockFacts.unlock_refused password w) as (Hrun & F).
    { intros d' Hd'. congruence. }
    exists false. split; [now apply Hpair|]. split; [|exact F].
    split; [discriminate|]. intros (d' & Hd' & _). congruence.
Qed.

Lemma unlock_iff_server_accepts_witness :
  fst (VaultContext.unlock (P:=Symbolic.platform) "Correct-Horse1" Sample2.locked_tab)
  = inl true.
Proof.
  destruct (unlock_iff_server_accepts Symbolic.platform Symbolic.backend
              SymbolicFacts.laws "Correct-Horse1" Sample2.locked_tab)
    as (unlocked & Hrun & Hiff & _).
  rewrite Hrun. cbn [fst]. f_equal. apply Hiff.
  exists Sample2.accepted. split; vm_compute; reflexivity.
Defined.

(** X12. The salt survives the trip to the backend. If [setupVault]
    resolved and the backend later answers the verification of the same
    password with the salt text that [setupVault] sent, then [unlock]
    resolves with true and keeps the same key and the same salt as
    [setupVault] did. *)
Theorem setup_then_unlock_same_key (P : WebPlatform) (B : Backend)
    (laws : WebPlatformLaws P) (password : string) (hint : option string)
    (w w2 : World) (d : ResponseData) :
  fst (VaultContext.setupVault password hint w) = inl tt ->
  fst (http (verify_request password) w2) = inl d ->
  Api.as_verify d
  = mkVaultVerifyResult true (Crypto.bytesToHex (fresh_bytes Crypto.SALT_LENGTH w)) ->
  let w1 := Session.after (VaultContext.setupVault password hint) w in
  let w3 := Session.after (VaultContext.unlock password) w2 in
  fst (VaultContext.unlock password w2) = inl true
  /\ sessionKey w3 = sessionKey w1
  /\ salt w3 = salt w1
  /\ salt w1 = Some (fresh_bytes Crypto.SALT_LENGTH w)
  /\ exists key, sessionKey w1 = Some key /\ vault_key key.
Proof.
  intros Hsetup Hhttp Hanswer. cbv zeta.
  assert (Hok : verify_success (Api.as_verify d) = true) by now rewrite Hanswer.
  pose proof (UnlockFacts.unlock_accepted password w2 d Hhttp Hok) as H.
  cbv zeta in H. rewrite Hanswer in H. cbn [verify_salt] in H.
  unfold Crypto.hexToBytes, Crypto.bytesToHex in H.
  rewrite HexFacts.hexToBytes_bytesToHex in H.
  pose proof (CryptoFacts.deriveKey_run laws password
                (fresh_bytes Crypto.SALT_LENGTH w) w2) as Hkey.
  pose proof (CryptoFacts.deriveKey_vault_key laws _ _ _ _ _ Hkey) as Hvault.
  rewrite Hkey in H. cbn [fst] in H. destruct H as (Hrun & Hsalt & Hk & _).
  rewrite Hrun, Hsalt, Hk. clear Hrun Hsalt Hk Hkey.
  unfold Session.after. revert Hsetup. rewrite VaultFacts.setupVault_run. cbv zeta.
  ContextMore.step_http. destruct r as [d0|e]; [|discriminate].
  rewrite (CryptoFacts.deriveKey_run laws). cbn [fst snd]. intros _.
  unfold Session.after.
  match goal with |- context [VaultContext.resetAutoLockTimer ?c ?w0] =>
    destruct (UnlockFacts.resetAutoLockTimer_frames c w0) as ((_ & Hk & Hs) & _) end.
  unfold Session.after in Hk, Hs. rewrite Hk, Hs.
  repeat split. eexists. split; [reflexivity | exact Hvault].
Qed.

Lemma setup_then_unlock_same_key_witness :
  fst (VaultContext.unlock (P:=Symbolic.platform) "Correct-Horse1" Sample2.locked_tab)
  = inl true
  /\ sessionKey (Session.after (VaultContext.unlock (P:=Symbolic.platform) "Correct-Horse1")
                   Sample2.locked_tab)
     = sessionKey (Session.after
                     (VaultContext.setupVault (P:=Symbolic.platform) "Correct-Horse1"
                        (Some "stable animal")) Sample.fresh_tab).
Proof.
  destruct (setup_then_unlock_same_key Symbolic.platform Symbolic.backend
              SymbolicFacts.laws "Correct-Horse1" (Some "stable animal")
              Sample.fresh_tab Sample2.locked_tab Sample2.accepted)
    as (Hrun & Hkey & _).
  - vm_compute. reflexivity.
  - vm_compute. reflexivity.
  - vm_compute. reflexivity.
  - split; [exact Hrun | exact Hkey].
Defined.

(** ** What the session holds *)

Module SessionMore.
Import VaultContext VaultFacts FormFacts ContextMore UnlockFacts.

Section SessionMore.
Context {P : WebPlatform} {B : Backend}.

Lemma session_frame_holds_key (w w' : World) :
  session_frame w w' -> holds_key w -> holds_key w'.
Proof.
  intros (Hst & Hk & Hs). unfold holds_key. now rewrite Hst, Hk, Hs.
Qed.

Lemma derived_intro (password : string) (salt0 : bytes) (w : World) (key : CryptoKey) :
  fst (Crypto.deriveKey password salt0 w) = inl key -> derived key.
Proof.
  intros H. exists password, salt0. intros w0.
  now rewrite (deriveKey_fst_world password salt0 w0 w).
Qed.

Lemma holds_key_enter (w : World) (key : CryptoKey) (s : bytes) :
  derived key -> sessionKey w = Some key -> salt w = Some s -> holds_key w.
Proof.
  intros Hd Hk Hs. split.
  - intros _. rewrite Hk, Hs. split; eexists; reflexivity.
  - intros key' Hk'. rewrite Hk in Hk'. now injection Hk' as <-.
Qed.

Lemma unlock_holds_key (password : string) (w : World) :
  holds_key w -> holds_key (Session.after (unlock password) w).
Proof.
  intros Hw. unfold Session.after at 1. rewrite unlock_run. cbv zeta.
  step_http. destruct r as [d|e]; [|exact Hw].
  destruct (negb _); [exact Hw|].
  destruct (fst (Crypto.deriveKey _ _ _)) as [key|e] eqn:Hkey; [|exact Hw].
  cbn [snd].
  match goal with |- holds_key (Session.after (resetAutoLockTimer ?c) ?w0) =>
    apply (session_frame_holds_key w0);
      [apply (resetAutoLockTimer_frames c w0)|] end.
  eapply holds_key_enter; [exact (derived_intro _ _ _ _ Hkey) | reflexivity..].
Qed.

Lemma setupVault_holds_key (password : string) (hint : option string) (w : World) :
  holds_key w -> holds_key (Session.after (setupVault password hint) w).
Proof.
  intros Hw. unfold Session.after at 1. rewrite setupVault_run. cbv zeta.
  step_http. destruct r as [d|e]; [|exact Hw].
  destruct (fst (Crypto.deriveKey _ _ _)) as [key|e] eqn:Hkey; [|exact Hw].
  cbn [snd].
  match goal with |- holds_key (Session.after (resetAutoLockTimer ?c) ?w0) =>
    apply (session_frame_holds_key w0);
      [apply (resetAutoLockTimer_frames c w0)|] end.
  eapply holds_key_enter; [exact (derived_intro _ _ _ _ Hkey) | reflexivity..].
Qed.

(** A password change that resolves leaves a derived key and a salt,
    and the state as it was. *)
Lemma changePassword_resolved (oldPassword newPassword : string) (w : World) :
  fst (changePassword oldPassword newPassword w) = inl tt ->
  let w' := Session.after (changePassword oldPassword newPassword) w in
  state w' = state w
  /\ exists key s, sessionKey w' = Some key /\ salt w' = Some s /\ derived key.
Proof.
  cbv zeta. unfold Session.after. rewrite changePassword_run. cbv zeta.
  step_http. destruct r as [d|e]; [|discriminate].
  destruct (negb _); [discriminate|].
  destruct (fst (Crypto.deriveKey oldPassword _ _)); [|discriminate].
  destruct (fst (Crypto.deriveKey newPassword _ _)) as [newKey|e] eqn:Hkey;
    [|discriminate].
  step_http. destruct r as [d2|e]; [|discriminate]. intros _.
  cbn [snd]. world_simpl. split; [reflexivity|].
  do 2 eexists. split; [reflexivity|]. split; [reflexivity|].
  exact (derived_intro _ _ _ _ Hkey).
Qed.

Lemma changePassword_rejected (oldPassword newPassword : string) (w : World)
    (e : JsError) :
  fst (changePassword oldPassword newPassword w) = inr e ->
  let w' := Session.after (changePassword oldPassword newPassword) w in
  frame w w' /\ console w' = console w ++ [("Failed to change password:", e)].
Proof.
  cbv zeta. unfold Session.after. rewrite changePassword_run. cbv zeta.
  step_http. destruct r as [d|e0]; [|intros [= <-]; repeat split].
  destruct (negb _); [intros [= <-]; repeat split|].
  destruct (fst (Crypto.deriveKey oldPassword _ _)); [|intros [= <-]; repeat split].
  destruct (fst (Crypto.deriveKey newPassword _ _)); [|intros [= <-]; repeat split].
  step_http. destruct r as [d2|e0]; [discriminate|]. intros [= <-]. repeat split.
Qed.

Lemma changePassword_holds_key (oldPassword newPassword : string) (w : World) :
  holds_key w -> holds_key (Session.after (changePassword oldPassword newPassword) w).
Proof.
  intros Hw.
  destruct (fst (changePassword oldPassword newPassword w)) as [[]|e] eqn:Hrun.
  - destruct (changePassword_resolved _ _ _ Hrun) as (Hst & key & s & Hk & Hs & Hd).
    exact (holds_key_enter _ key s Hd Hk Hs).
  - destruct (changePassword_rejected _ _ _ _ Hrun) as ((_ & _ & _ & F) & _).
    apply (session_frame_holds_key w); [|exact Hw].
    unfold session_frame. tauto.
Qed.

Lemma checkVaultStatus_holds_key (w : World) :
  holds_key w -> holds_key (Session.after checkVaultStatus w).
Proof.
  intros (Hu & Hd). unfold Session.after. rewrite checkVaultStatus_run.
  cbv zeta. rewrite http_set_state. step_http.
  destruct r as [d|e]; [destruct (or_null (status_salt (Api.as_status d)))|];
    cbn [snd]; unfold holds_key; world_simpl; (split; [|exact Hd]);
    intros Hun; destruct (Hu Hun) as (Hk & Hs); split; eauto.
Qed.

Lemma updateHint_holds_key (hint : string) (w : World) :
  holds_key w -> holds_key (Session.after (updateHint hint) w).
Proof.
  intros Hw. unfold Session.after. rewrite updateHint_run.
  step_http. destruct r as [d|e]; exact Hw.
Qed.

Lemma lock_holds_key (w : World) : holds_key (Session.after lock w).
Proof.
  unfold Session.after. rewrite lock_run. cbn [snd].
  destruct (autoLockTimer w); split; world_simpl; discriminate.
Qed.

Lemma call_holds_key (c : Session.Call) (w : World) :
  holds_key w -> holds_key (Session.after (Session.run_call c) w).
Proof.
  intros Hw. destruct c as [| |password|password hint|o n|hint]; cbn [Session.run_call].
  - now apply checkVaultStatus_holds_key.
  - apply lock_holds_key.
  - assert (E : Session.after (unlock password ;;; ret tt) w
                = Session.after (unlock password) w).
    { unfold Session.after. run_async. now destruct (unlock password w) as [[?|?] ?]. }
    rewrite E. now apply unlock_holds_key.
  - now apply setupVault_holds_key.
  - now apply changePassword_holds_key.
  - now apply updateHint_holds_key.
Qed.

Lemma react_holds_key (e : Session.Event) (w w' : World) :
  holds_key w -> Session.react e w = Some w' -> holds_key w'.
Proof.
  intros Hw. destruct e as [c| |id|ms|up]; cbn [Session.react].
  - intros [= <-]. eapply session_frame_holds_key; [apply commit_frames|].
    now apply call_holds_key.
  - intros [= <-]. eapply session_frame_holds_key; [apply commit_frames|].
    eapply session_frame_holds_key; [apply handleActivity_frames | exact Hw].
  - destruct (timers w !! id); [|discriminate].
    destruct (_ <=? _)%Z; [|discriminate]. intros [= <-].
    eapply session_frame_holds_key; [apply commit_frames | apply lock_holds_key].
  - case_bool_decide; [|discriminate]. intros [= <-]. exact Hw.
  - intros [= <-]. exact Hw.
Qed.

Lemma reachable_holds_key (w : World) : Session.reachable w -> holds_key w.
Proof.
  induction 1 as [rnd up s|w e w' _ IH He].
  - split; cbn; discriminate.
  - exact (react_holds_key e w w' IH He).
Qed.

Lemma local_event_outside (e : Session.Event) (w w' : World) :
  local_event e = true -> Session.react e w = Some w' ->
  outside_frame w w' /\ salt w' = salt w.
Proof.
  assert (T : forall w1 w2 w3 : World,
            outside_frame w1 w2 /\ salt w2 = salt w1 ->
            outside_frame w2 w3 /\ salt w3 = salt w2 ->
            outside_frame w1 w3 /\ salt w3 = salt w1).
  { unfold outside_frame. intuition congruence. }
  assert (C : forall w0 : World,
            outside_frame w0 (Session.after commit w0)
            /\ salt (Session.after commit w0) = salt w0).
  { intros w0. destruct (commit_frames w0) as ((_ & _ & ?) & ?). auto. }
  assert (L : forall w0 : World,
            outside_frame w0 (Session.after lock w0)
            /\ salt (Session.after lock w0) = salt w0).
  { intros w0. split; [apply lock_outside|].
    unfold Session.after. rewrite lock_run. cbn [snd].
    now destruct (autoLockTimer w0). }
  destruct e as [[]| |id|ms|up]; try discriminate; intros _; cbn [Session.react].
  - intros [= <-]. cbn [Session.run_call]. eapply T; [apply L | apply C].
  - intros [= <-]. eapply T; [|apply C].
    destruct (handleActivity_frames w) as ((_ & _ & ?) & ?). auto.
  - destruct (timers w !! id); [|discriminate].
    destruct (_ <=? _)%Z; [|discriminate]. intros [= <-].
    eapply T; [|apply C]. eapply T; [|apply L]. repeat split.
  - case_bool_decide; [|discriminate]. intros [= <-]. repeat split.
Qed.

End SessionMore.
End SessionMore.

(** X13. In every world the tab can reach: while the vault is unlocked a
    session key and a salt are held; and whenever a session key is held,
    unlocked or not, it is a key that [deriveKey] resolved with for some
    password and salt, so on a runtime whose built-ins keep their laws it
    is a non-extractable AES-GCM key of 256 bits for encrypt and decrypt
    only. *)
Theorem unlocked_holds_derived_key (P : WebPlatform) (B : Backend) (w : World)
    (Hreach : Session.reachable w) :
  (isUnlocked (state w) = true ->
   exists key saltBytes, sessionKey w = Some key /\ salt w = Some saltBytes)
  /\ (forall key,
        sessionKey w = Some key ->
        (exists password saltBytes, forall w0 : World,
            fst (Crypto.deriveKey password saltBytes w0) = inl key)
        /\ (WebPlatformLaws P -> vault_key key)).
Proof.
  destruct (SessionMore.reachable_holds_key w Hreach) as (Hu & Hd). split.
  - intros Hun. destruct (Hu Hun) as ((key & Hk) & (s & Hs)). eauto.
  - intros key Hk. pose proof (Hd key Hk) as (password & s & Hkey).
    split; [eauto|]. intros laws. specialize (Hkey w).
    pose proof (CryptoFacts.deriveKey_run laws password s w) as Hrun.
    rewrite Hrun in Hkey. cbn [fst] in Hkey.
    exact (CryptoFacts.deriveKey_vault_key laws _ _ _ _ _
             (eq_trans Hrun (f_equal (fun r => (r, w)) Hkey))).
Qed.

Lemma unlocked_holds_derived_key_witness :
  exists key saltBytes,
    sessionKey Sample.unlocked_tab = Some key
    /\ salt Sample.unlocked_tab = Some saltBytes.
Proof.
  assert (Hreach : Session.reachable (P:=Symbolic.platform) Sample.unlocked_tab).
  { apply (Session.reachable_react Sample.fresh_tab
             (Session.ev_call Sample.setup_call)).
    - apply Session.reachable_initial.
    - vm_compute. reflexivity. }
  destruct (unlocked_holds_derived_key Symbolic.platform Symbolic.backend
              Sample.unlocked_tab Hreach) as (Hheld & _).
  apply Hheld. reflexivity.
Defined.

(** X14. Locking, activity, a timer that fires and the passing of time are
    local: none of them sends a request, draws entropy, logs, or changes
    the backend. None of them forgets the salt either: [lock] clears the
    key and leaves the salt in place. *)
Theorem local_events_stay_local (P : WebPlatform) (B : Backend)
    (e : Session.Event) (w w' : World)
    (Hlocal : local_event e = true)
    (Hreact : Session.react e w = Some w') :
  sent w' = sent w /\ server w' = server w /\ drawn w' = drawn w
  /\ console w' = console w /\ salt w' = salt w.
Proof.
  destruct (SessionMore.local_event_outside e w w' Hlocal Hreact)
    as ((_ & ? & _ & ? & ? & ?) & ?).
  auto.
Qed.

Lemma local_events_stay_local_witness :
  sent Sample2.locked_tab = sent Sample.unlocked_tab
  /\ salt Sample2.locked_tab = salt Sample.unlocked_tab
  /\ sessionKey Sample2.locked_tab = None.
Proof.
  destruct (local_events_stay_local Symbolic.platform Symbolic.backend
              (Session.ev_call Session.call_lock) Sample.unlocked_tab
              Sample2.locked_tab eq_refl)
    as (Hsent & _ & _ & _ & Hsalt).
  - vm_compute. reflexivity.
  - split; [exact Hsent|]. split; [exact Hsalt | reflexivity].
Defined.

(** X15. Changing the password of a locked vault. In a reachable world
    where the vault is locked, a [changePassword] that resolves leaves the
    new key in the session while the vault still counts as locked and no
    timer is pending: time can pass by any amount and the key stays. *)
Theorem changePassword_while_locked (P : WebPlatform) (B : Backend)
    (oldPassword newPassword : string) (w : World)
    (Hreach : Session.reachable w)
    (Hlocked : isUnlocked (state w) = false)
    (Hresolved : fst (VaultContext.changePassword oldPassword newPassword w) = inl tt) :
  exists w' key,
    Session.react
      (Session.ev_call (Session.call_changePassword oldPassword newPassword)) w
    = Some w'
    /\ sessionKey w' = Some key
    /\ isUnlocked (state w') = false
    /\ timers w' = ∅
    /\ forall ms, (0 <= ms)%Z ->
         exists w'', Session.react (Session.ev_time ms) w' = Some w''
                     /\ sessionKey w'' = Some key
                     /\ timers w'' = ∅.
Proof.
  pose proof (VaultFacts.reachable_armed w Hreach) as Hw.
  destruct (SessionMore.changePassword_resolved _ _ _ Hresolved)
    as (Hst & key & s & Hk & _ & _).
  pose proof (VaultFacts.changePassword_timer_frame oldPassword newPassword w) as F.
  pose proof (VaultFacts.timer_frame_armed _ _ F Hw) as Hw1.
  eexists _, key. split; [reflexivity|]. cbn [Session.run_call].
  rewrite VaultFacts.commit_settled by apply Hw1.
  destruct Hw1 as (_ & Harm). rewrite Hst, Hlocked in Harm |- *.
  split; [exact Hk|]. split; [reflexivity|]. split; [exact Harm|].
  intros ms Hms. cbn [Session.react]. rewrite bool_decide_eq_true_2.
  - eexists. split; [reflexivity|]. split; assumption.
  - split; [exact Hms|]. unfold Session.none_overdue. rewrite Harm.
    apply map_Forall_empty.
Qed.

Lemma changePassword_while_locked_witness :
  exists w' key,
    Session.react (P:=Symbolic.platform)
      (Session.ev_call (Session.call_changePassword "Correct-Horse1" "New-Password2"))
      Sample2.locked_tab
    = Some w'
    /\ sessionKey w' = Some key
    /\ isUnlocked (state w') = false
    /\ timers w' = ∅.
Proof.
  assert (Hreach : Session.reachable (P:=Symbolic.platform) Sample2.locked_tab).
  { apply (Session.reachable_react Sample.unlocked_tab
             (Session.ev_call Session.call_lock)).
    - apply (Session.reachable_react Sample.fresh_tab
               (Session.ev_call Sample.setup_call)).
      + apply Session.reachable_initial.
      + vm_compute. reflexivity.
    - vm_compute. reflexivity. }
  destruct (changePassword_while_locked Symbolic.platform Symbolic.backend
              "Correct-Horse1" "New-Password2" Sample2.locked_tab Hreach)
    as (w' & key & Hreact & Hk & Hu & Ht & _).
  - reflexivity.
  - vm_compute. reflexivity.
  - exists w', key. repeat split; assumption.
Defined.

(** ** What the forms do with the context functions *)

Module ModalFacts.
Import VaultContext VaultFacts FormFacts ContextMore UnlockFacts.

Section ModalFacts.
Context {P : WebPlatform} {B : Backend}.

(** [unlock] either enters the unlocked state or changes nothing the
    provider holds. *)
Lemma unlock_cases (password : string) (w : World) :
  let w' := Session.after (unlock password) w in
  (fst (unlock password w) = inl true
   /\ isUnlocked (state w') = true /\ exists key, sessionKey w' = Some key)
  \/ (fst (unlock password w) = inl false /\ frame w w').
Proof.
  cbv zeta.
  destruct (fst (http (verify_request password) w)) as [d|e] eqn:Hhttp.
  - destruct (verify_success (Api.as_verify d)) eqn:Hok.
    + pose proof (unlock_accepted password w d Hhttp Hok) as H. cbv zeta in H.
      destruct (fst (Crypto.deriveKey _ _ w)) as [key|e].
      * destruct H as (Hrun & _ & Hk & Hst & _). left.
        rewrite Hst. repeat split; eauto.
      * destruct H as (Hrun & F & _). right. auto.
    + right. apply unlock_refused. intros d' Hd'. congruence.
  - right. apply unlock_refused. intros d' Hd'. congruence.
Qed.

Lemma setupVault_rejected (password : string) (hint : option string) (w : World)
    (e : JsError) :
  fst (setupVault password hint w) = inr e ->
  frame w (Session.after (setupVault password hint) w).
Proof.
  unfold Session.after. rewrite setupVault_run. cbv zeta.
  step_http. destruct r as [d|e0]; [|intros _; repeat split].
  destruct (fst (Crypto.deriveKey _ _ _)); [discriminate|]. intros _. repeat split.
Qed.

Lemma setupVault_resolved (password : string) (hint : option string) (w : World) :
  fst (setupVault password hint w) = inl tt ->
  let w' := Session.after (setupVault password hint) w in
  isSetup (state w') = true /\ isUnlocked (state w') = true
  /\ passwordHint (state w') = or_null hint.
Proof.
  cbv zeta. unfold Session.after. rewrite setupVault_run. cbv zeta.
  step_http. destruct r as [d|e0]; [|discriminate].
  destruct (fst (Crypto.deriveKey _ _ _)); [|discriminate]. intros _.
  cbn [snd].
  match goal with |- context [Session.after (resetAutoLockTimer ?c) ?w0] =>
    destruct (resetAutoLockTimer_frames c w0) as ((Hst & _) & _) end.
  rewrite Hst. repeat split.
Qed.

Lemma or_null_or_undefined (hint : string) :
  or_null (PrivateVaultSetup.or_undefined hint) = PrivateVaultSetup.or_undefined hint.
Proof.
  unfold PrivateVaultSetup.or_undefined.
  destruct (String.eqb hint "") eqn:E; [reflexivity|]. cbn. now rewrite E.
Qed.

End ModalFacts.
End ModalFacts.

(** X16. What [UnlockVaultModal] can show after a submit with the
    provider's [unlock]. With an empty password nothing happens. With any
    other password either the error is cleared, and then the vault is
    unlocked and holds a key; or the error is "Incorrect password", and
    then state, key, salt and timers are as before. Whatever went wrong,
    no other message is ever shown. *)
Theorem unlock_modal_outcomes (P : WebPlatform) (B : Backend)
    (message_of : JsError -> string) (password : string) (error : option string)
    (w : World) :
  let submit :=
    UnlockVaultModal.handleSubmit message_of (VaultContext.unlock (P:=P))
      password error in
  let w' := Session.after submit w in
  (password = "" -> submit w = (inl error, w))
  /\ (password <> "" ->
      (fst (submit w) = inl None
       /\ isUnlocked (state w') = true /\ exists key, sessionKey w' = Some key)
      \/ (fst (submit w) = inl (Some "Incorrect password") /\ frame w w')).
Proof.
  cbv zeta. split.
  - intros ->. reflexivity.
  - intros Hpw. apply String.eqb_neq in Hpw.
    unfold UnlockVaultModal.handleSubmit, Session.after. rewrite Hpw.
    unfold try_catch, bind, ret.
    pose proof (ModalFacts.unlock_cases password w) as H. cbv zeta in H.
    unfold Session.after in H.
    destruct (VaultContext.unlock password w) as [[[]|] w1]; cbn [fst snd] in *;
      destruct H as [(Hrun & H)|(Hrun & H)]; try discriminate; auto.
Qed.

(** X17. The change-password form submits only when the old password is
    not empty, the confirmation equals the new password and the new
    password has 8 characters or more; its score plays no part. Otherwise
    a submit does nothing at all. When it submits, the form never rejects:
    it shows no error exactly when [changePassword] resolved and the
    message of the error otherwise, and the first request is the
    verification of the old password. *)
Theorem change_form_gate (P : WebPlatform) (B : Backend)
    (message_of : JsError -> string)
    (oldPassword newPassword confirmPassword : string) (error : option string)
    (w : World) :
  let change := VaultContext.changePassword (P:=P) oldPassword newPassword in
  let submit :=
    ChangeVaultPassword.handleSubmit message_of (VaultContext.changePassword (P:=P))
      oldPassword newPassword confirmPassword error in
  (ChangeVaultPassword.canSubmit oldPassword newPassword confirmPassword = true
   <-> oldPassword <> "" /\ confirmPassword = newPassword
       /\ (8 <= String.length newPassword)%nat)
  /\ (ChangeVaultPassword.canSubmit oldPassword newPassword confirmPassword = false ->
      submit w = (inl error, w))
  /\ (ChangeVaultPassword.canSubmit oldPassword newPassword confirmPassword = true ->
      submit w
      = (inl match fst (change w) with
             | inl _ => None
             | inr e => Some (message_of e)
             end,
         Session.after change w)
      /\ exists rest,
           sent (Session.after submit w) = sent w ++ verify_request oldPassword :: rest).
Proof.
  cbv zeta. split; [apply FormFacts.change_canSubmit|].
  unfold ChangeVaultPassword.handleSubmit. split; intros ->; [reflexivity|].
  cbn [negb].
  assert (E : forall A (m : Async A) (w0 : World),
            snd (try_catch (m ;;; ret None)
                   (fun err => ret (Some (message_of err))) w0) = snd (m w0)
            /\ fst (try_catch (m ;;; ret None)
                      (fun err => ret (Some (message_of err))) w0)
               = inl match fst (m w0) with
                     | inl _ => None
                     | inr e => Some (message_of e)
                     end).
  { intros A m w0. unfold try_catch, bind, ret. now destruct (m w0) as [[a|e] w1]. }
  destruct (E _ (VaultContext.changePassword (P:=P) oldPassword newPassword) w)
    as (Hw & Hr).
  split.
  - unfold Session.after. rewrite <- Hw, <- Hr. now destruct (try_catch _ _ w).
  - destruct (ProtocolFacts.changePassword_sent oldPassword newPassword w)
      as (rest & Hsent & _).
    exists rest. unfold Session.after in *. rewrite Hw. exact Hsent.
Qed.

(** X18. The change-password form tells a wrong password from a backend
    out of reach. On a form that can be submitted: if the backend rejects
    the old password the form shows the message of the error "Invalid
    current password", after that one request; if the backend cannot be
    reached it shows the message of the network error. Either way the
    error is logged and state, key, salt and timers are as before. *)
Theorem change_form_reports_cause (P : WebPlatform) (B : Backend)
    (message_of : JsError -> string)
    (oldPassword newPassword confirmPassword : string) (error : option string)
    (w : World)
    (Hsubmit : ChangeVaultPassword.canSubmit oldPassword newPassword confirmPassword
               = true) :
  let submit :=
    ChangeVaultPassword.handleSubmit message_of (VaultContext.changePassword (P:=P))
      oldPassword newPassword confirmPassword error in
  let w' := Session.after submit w in
  let shows (e : JsError) :=
    fst (submit w) = inl (Some (message_of e))
    /\ frame w w'
    /\ sent w' = sent w ++ [verify_request oldPassword]
    /\ console w' = console w ++ [("Failed to change password:", e)] in
  (forall d,
      fst (http (verify_request oldPassword) w) = inl d ->
      verify_success (Api.as_verify d) = false ->
      shows (Error "Invalid current password"))
  /\ (online w = false -> shows NetworkError).
Proof.
  cbv zeta. unfold ChangeVaultPassword.handleSubmit, Session.after.
  rewrite Hsubmit. cbn [negb]. unfold try_catch, bind, ret.
  rewrite VaultFacts.changePassword_run. cbv zeta.
  unfold verify_request, digest_hex.
  destruct (FormFacts.http_world
              (mkRequest POST "/vault/verify"
                 [("password",
                   Crypto.bytesToHex
                     (digest SHA_256 (TextEncoder_encode oldPassword)))]) w)
    as (r & s' & E & Hoff).
  rewrite E. cbn [fst]. split.
  - intros d -> Hno. rewrite Hno. cbn [negb fst snd]. repeat split.
  - intros Hoffline. rewrite (Hoff Hoffline). cbn [fst snd]. repeat split.
Qed.

Lemma change_form_reports_cause_witness :
  fst (ChangeVaultPassword.handleSubmit Sample2.message_of
         (VaultContext.changePassword (P:=Symbolic.platform))
         "not the password" "New-Password2" "New-Password2" None Sample.unlocked_tab)
  = inl (Some "Invalid current password").
Proof.
  destruct (change_form_reports_cause Symbolic.platform Symbolic.backend
              Sample2.message_of "not the password" "New-Password2" "New-Password2"
              None Sample.unlocked_tab eq_refl)
    as (Hrejected & _).
  destruct (Hrejected (data_verify (mkVaultVerifyResult false "")))
    as (Hshown & _).
  - vm_compute. reflexivity.
  - reflexivity.
  - exact Hshown.
Defined.

(** X19. The set-up form submits only when the two passwords are equal
    and have 8 characters or more; otherwise a submit does nothing. When
    it submits, one POST is sent, carrying the digest, the fresh salt and
    the hint, and no hint field at all when the hint was left empty. Then
    either no error is shown and the vault is set up and unlocked with
    that hint (null if empty), or the message of the error is shown and
    state, key, salt and timers are as before. *)
Theorem setup_form_gate (P : WebPlatform) (B : Backend)
    (message_of : JsError -> string)
    (password confirmPassword hint : string) (error : option string) (w : World) :
  let submit :=
    PrivateVaultSetup.handleSubmit message_of (VaultContext.setupVault (P:=P))
      password confirmPassword hint error in
  let w' := Session.after submit w in
  let given := if String.eqb hint "" then None else Some hint in
  (PrivateVaultSetup.canSubmit password confirmPassword = true
   <-> password = confirmPassword /\ (8 <= String.length password)%nat)
  /\ (PrivateVaultSetup.canSubmit password confirmPassword = false ->
      submit w = (inl error, w))
  /\ (PrivateVaultSetup.canSubmit password confirmPassword = true ->
      sent w'
      = sent w
        ++ [mkRequest POST "/vault/setup"
              ([("passwordHash", digest_hex password);
                ("salt", Crypto.bytesToHex (fresh_bytes Crypto.SALT_LENGTH w))]
                 ++ match given with
                    | Some text => [("hint", text)]
                    | None => []
                    end)]
      /\ ((fst (submit w) = inl None
           /\ isSetup (state w') = true /\ isUnlocked (state w') = true
           /\ passwordHint (state w') = given)
          \/ (exists e, fst (submit w) = inl (Some (message_of e)) /\ frame w w'))).
Proof.
  cbv zeta. split; [apply FormFacts.setup_canSubmit|].
  unfold PrivateVaultSetup.handleSubmit. split; intros ->; [reflexivity|].
  cbn [negb].
  pose proof (ProtocolFacts.setupVault_sent password
                (PrivateVaultSetup.or_undefined hint) w) as Hsent.
  pose proof (ModalFacts.setupVault_resolved password
                (PrivateVaultSetup.or_undefined hint) w) as Hyes.
  pose proof (ModalFacts.setupVault_rejected password
                (PrivateVaultSetup.or_undefined hint) w) as Hno.
  rewrite ModalFacts.or_null_or_undefined in Hyes.
  unfold Session.after in *. unfold try_catch, bind, ret.
  change (if String.eqb hint "" then None else Some hint)
    with (PrivateVaultSetup.or_undefined hint).
  destruct (VaultContext.setupVault password (PrivateVaultSetup.or_undefined hint) w)
    as [[[]|e] w1]; cbn [fst snd] in *.
  - split; [|left; split; [reflexivity | exact (Hyes eq_refl)]].
    rewrite Hsent. unfold digest_hex. now destruct (PrivateVaultSetup.or_undefined hint).
  - split; [|right; exists e; split; [reflexivity | exact (Hno e eq_refl)]].
    rewrite Hsent. unfold digest_hex. now destruct (PrivateVaultSetup.or_undefined hint).
Qed.

(** ** Sealing and opening, once more *)

Module SealFacts.
Import Crypto.

Section SealFacts.
Context {P : WebPlatform} {B : Backend}.

Lemma encryptDrawing_iv (data : DrawingData JSON) (key : CryptoKey) (w : World)
    (enc : EncryptedDrawing) :
  fst (encryptDrawing data key w) = inl enc ->
  iv enc = bytesToHex (fresh_bytes IV_LENGTH w)
  /\ snd (encryptDrawing data key w) = set_drawn (drawn w + IV_LENGTH) w.
Proof.
  unfold encryptDrawing, generateIV, getRandomValues. CryptoFacts.run_async.
  destruct (SubtleCrypto.encrypt_AES_GCM _ _ _); cbn [fst snd]; [|discriminate].
  destruct (String_fromCharCode _); cbn [fst snd]; [|discriminate].
  intros [= <-]. split; reflexivity.
Qed.

Lemma decryptDrawing_world (encryptedData0 iv0 : string) (key : CryptoKey) (w : World) :
  decryptDrawing encryptedData0 iv0 key w
  = (fst (decryptDrawing encryptedData0 iv0 key w), w).
Proof.
  unfold decryptDrawing. CryptoFacts.run_async.
  destruct (atob _); [|reflexivity].
  destruct (SubtleCrypto.decrypt_AES_GCM _ _ _); reflexivity.
Qed.

Lemma decryptString_world (encrypted : string) (key : CryptoKey) (w : World) :
  decryptString encrypted key w = (fst (decryptString encrypted key w), w).
Proof.
  unfold decryptString. CryptoFacts.run_async.
  destruct (atob _); [|reflexivity].
  destruct (SubtleCrypto.decrypt_AES_GCM _ _ _); reflexivity.
Qed.

Lemma decrypt_errors (iv0 : bytes) (key : CryptoKey) (data : bytes) (e : JsError) :
  SubtleCrypto.decrypt_AES_GCM iv0 key data = inr e ->
  (e = InvalidAccessError
   /\ (key_algorithm key = alg_PBKDF2 \/ usage_decrypt ∉ key_usages key))
  \/ (e = OperationError /\ AES_GCM_decrypt (key_handle key) iv0 data = None).
Proof.
  unfold SubtleCrypto.decrypt_AES_GCM, SubtleCrypto.has_usage.
  destruct (key_algorithm key); [intros [= <-]; left; auto|].
  case_bool_decide as Hu; cbn [negb].
  - destruct (AES_GCM_decrypt _ _ _); [discriminate|]. intros [= <-]. right. auto.
  - intros [= <-]. left. auto.
Qed.

(** What [encryptDrawing] sealed under a vault key opens under it. *)
Lemma sealed_opens (laws : WebPlatformLaws P) (data : DrawingData JSON)
    (key : CryptoKey) (w0 : World) (enc : EncryptedDrawing) :
  vault_key key ->
  fst (encryptDrawing data key w0) = inl enc ->
  String.length (iv enc) = 24%nat
  /\ forall w, decryptDrawing (encryptedData enc) (iv enc) key w = (inl data, w).
Proof.
  intros Hk Henc.
  assert (E : encryptDrawing data key w0
              = (inl enc, snd (encryptDrawing data key w0))).
  { destruct (encryptDrawing data key w0) as [r w1]. cbn in *. now subst. }
  rewrite (CryptoFacts.encryptDrawing_resolved _ _ _ _ _ Hk E).
  cbn [encryptedData iv]. split.
  - unfold bytesToHex.
    now rewrite HexFacts.bytesToHex_length, CryptoFacts.fresh_bytes_length.
  - intros w. apply (CryptoFacts.drawing_opens laws); [exact Hk|].
    apply CryptoFacts.fresh_bytes_length.
Qed.

End SealFacts.
End SealFacts.

(** X20. Every [encryptDrawing] draws its own IV. For two encryptions one
    after the other, the IVs are the hex of two consecutive 12-byte
    windows of the random source, 24 characters each; they are equal only
    if the random source repeated itself. *)
Theorem encryptDrawing_fresh_iv (P : WebPlatform) (B : Backend)
    (data1 data2 : DrawingData JSON) (key : CryptoKey) (w : World)
    (enc1 enc2 : Crypto.EncryptedDrawing)
    (H1 : fst (Crypto.encryptDrawing data1 key w) = inl enc1)
    (H2 : fst (Crypto.encryptDrawing data2 key
                 (Session.after (Crypto.encryptDrawing data1 key) w))
          = inl enc2) :
  let window (start : nat) := map (entropy w) (seq start 12) in
  Crypto.iv enc1 = Crypto.bytesToHex (window (drawn w))
  /\ Crypto.iv enc2 = Crypto.bytesToHex (window (drawn w + 12)%nat)
  /\ String.length (Crypto.iv enc1) = 24%nat
  /\ String.length (Crypto.iv enc2) = 24%nat
  /\ (Crypto.iv enc1 = Crypto.iv enc2
      <-> window (drawn w) = window (drawn w + 12)%nat).
Proof.
  cbv zeta. unfold Session.after in H2.
  destruct (SealFacts.encryptDrawing_iv _ _ _ _ H1) as (E1 & Hw1).
  rewrite Hw1 in H2.
  destruct (SealFacts.encryptDrawing_iv _ _ _ _ H2) as (E2 & _).
  unfold fresh_bytes, Crypto.IV_LENGTH in E1, E2. cbn [entropy drawn set_drawn] in E2.
  rewrite E1, E2. unfold Crypto.bytesToHex.
  rewrite !HexFacts.bytesToHex_length, !length_map, !length_seq.
  repeat split; try (intros ->; reflexivity). apply HexMore.bytesToHex_inj.
Qed.

Lemma encryptDrawing_fresh_iv_witness :
  Crypto.iv Sample2.enc1 = "909192939495969798999a9b"
  /\ Crypto.iv Sample2.enc2 = "9c9d9e9fa0a1a2a3a4a5a6a7".
Proof.
  destruct (encryptDrawing_fresh_iv Symbolic.platform Symbolic.backend
              Sample.drawing Sample.drawing Sample2.key Sample.unlocked_tab
              Sample2.enc1 Sample2.enc2)
    as (E1 & E2 & _).
  - vm_compute. reflexivity.
  - vm_compute. reflexivity.
  - split; [exact E1 | exact E2].
Defined.

(** X21. Opening only reads. [decryptDrawing] and [decryptString] leave
    the world as it is, whatever they are given, and reject in these ways
    only: with the error of [atob] on text that is not base64; with
    InvalidAccessError for a key that is not an AES-GCM key for decrypt;
    with OperationError when the cipher refuses the bytes; and, for a
    drawing, with the error of [JSON.parse] on the opened text. *)
Theorem decrypt_reads_only (P : WebPlatform) (B : Backend)
    (text iv : string) (key : CryptoKey) (w : World) (e : JsError) :
  let refused :=
    atob text = inr e
    \/ (e = InvalidAccessError
        /\ (key_algorithm key = alg_PBKDF2 \/ usage_decrypt ∉ key_usages key))
    \/ e = OperationError in
  snd (Crypto.decryptDrawing text iv key w) = w
  /\ snd (Crypto.decryptString text key w) = w
  /\ (fst (Crypto.decryptDrawing text iv key w) = inr e ->
      refused \/ exists opened, JSON_parse opened = inr e)
  /\ (fst (Crypto.decryptString text key w) = inr e -> refused).
Proof.
  cbv zeta.
  split; [now rewrite SealFacts.decryptDrawing_world|].
  split; [now rewrite SealFacts.decryptString_world|].
  unfold Crypto.decryptDrawing, Crypto.decryptString. CryptoFacts.run_async.
  destruct (atob text) as [binary|e0]; [|split; intros [= <-]; auto].
  split.
  - destruct (SubtleCrypto.decrypt_AES_GCM _ _ _) as [plaintext|e0] eqn:Hd;
      cbn [fst]; [intros He; right; eauto|].
    intros [= <-]. left.
    destruct (SealFacts.decrypt_errors _ _ _ _ Hd) as [H|[H _]]; auto.
  - destruct (SubtleCrypto.decrypt_AES_GCM _ _ _) as [plaintext|e0] eqn:Hd;
      cbn [fst]; [discriminate|].
    intros [= <-].
    destruct (SealFacts.decrypt_errors _ _ _ _ Hd) as [H|[H _]]; auto.
Qed.

(** ** Taking a drawing out of the vault *)

Module RemoveFacts.
Import PrivateDrawings FormFacts.

Section RemoveFacts.
Context {P : WebPlatform} {B : Backend}.
Variable json_text : JSON -> string.
Variable json_array_text : list JSON -> string.
Variable drawings_of : ResponseData -> Result (list (Types.Drawing JSON)).

Lemma fetchPrivateDrawings_sent (unlocked : bool) (key : option CryptoKey)
    (page : PageState JSON) (w : World) :
  let w' := snd (detached (fetchPrivateDrawings drawings_of unlocked key page) page w) in
  sent w' = sent w \/ sent w' = sent w ++ [mkRequest GET "/drawings/private" []].
Proof.
  cbv zeta. unfold detached, fetchPrivateDrawings, getPrivateDrawings.
  destruct (negb unlocked || negb (bool_decide (is_Some key))); [now left|].
  right. unfold try_catch, bind, ret, await, console_error, modify.
  destruct (http_world (mkRequest GET "/drawings/private" []) w) as (r & s' & E & _).
  rewrite E. destruct r as [d|e]; [destruct (drawings_of d)|]; reflexivity.
Qed.

(** The handler, once its guards are passed. *)
Lemma handleRemoveFromVault_run (id : string) (page : PageState JSON) (w : World)
    (key : CryptoKey) (drawing : Types.Drawing JSON) (encryptedData0 iv0 : string) :
  sessionKey w = Some key ->
  find (fun d => String.eqb (Types.id d) id) (drawings page) = Some drawing ->
  truthy (Types.encryptedData drawing) = Some encryptedData0 ->
  truthy (Types.iv drawing) = Some iv0 ->
  let failed e w1 :=
    (inl (mkPageState (drawings page) (isLoading page)
            (Some "Failed to remove drawing from vault")),
     set_console (console w1 ++ [("Failed to remove drawing from vault:", e)]) w1) in
  handleRemoveFromVault json_text json_array_text drawings_of id page w
  = match fst (Crypto.decryptDrawing encryptedData0 iv0 key w) with
    | inr e => failed e w
    | inl data =>
        let '(r, w1) := http (unlock_request json_text json_array_text id data) w in
        match r with
        | inr e => failed e w1
        | inl _ =>
            detached
              (fetchPrivateDrawings drawings_of (isUnlocked (state w)) (Some key) page)
              page w1
        end
    end.
Proof.
  intros Hkey Hfind Hct Hiv. cbv zeta.
  unfold handleRemoveFromVault, unlockDrawing, unlock_request.
  unfold bind at 1 2, get. cbn [fst snd]. rewrite Hkey, Hfind, Hct, Hiv.
  unfold try_catch, bind at 1 2.
  pose proof (SealFacts.decryptDrawing_world encryptedData0 iv0 key w) as Hw.
  destruct (Crypto.decryptDrawing encryptedData0 iv0 key w) as [r w0].
  cbn [fst] in *. injection Hw as ->. destruct r as [data|e]; [|reflexivity].
  unfold bind, ret. cbn [Api.optional_field]. rewrite app_nil_r.
  destruct (http _ w) as [[d|e] w1]; [|reflexivity].
  unfold detached. now destruct (fetchPrivateDrawings _ _ _ _ w1) as [[?|?] ?].
Qed.

Lemma truthy_Some (v : option string) (s : string) :
  truthy v = Some s <-> v = Some s /\ s <> "".
Proof.
  unfold truthy. destruct v as [t|]; [|intuition discriminate].
  destruct (String.eqb_spec t ""); split.
  - discriminate.
  - intros [[= ->] H]. contradiction.
  - intros [= ->]. auto.
  - now intros [-> _].
Qed.

(** Once the guards are passed and the record has opened, the content is
    sent, and after it at most the request for the list. *)
Lemma opened_is_sent (id : string) (page : PageState JSON) (w : World)
    (key : CryptoKey) (drawing : Types.Drawing JSON) (encryptedData0 iv0 : string)
    (data : DrawingData JSON) :
  sessionKey w = Some key ->
  find (fun d => String.eqb (Types.id d) id) (drawings page) = Some drawing ->
  truthy (Types.encryptedData drawing) = Some encryptedData0 ->
  truthy (Types.iv drawing) = Some iv0 ->
  fst (Crypto.decryptDrawing encryptedData0 iv0 key w) = inl data ->
  exists rest,
    sent (snd (handleRemoveFromVault json_text json_array_text drawings_of id page w))
    = sent w ++ unlock_request json_text json_array_text id data :: rest
    /\ (rest = [] \/ rest = [mkRequest GET "/drawings/private" []]).
Proof.
  intros Hkey Hfind Hct Hiv Hopen.
  rewrite (handleRemoveFromVault_run id page w key drawing _ _ Hkey Hfind Hct Hiv).
  cbv zeta. rewrite Hopen.
  destruct (http_world (unlock_request json_text json_array_text id data) w)
    as (r & s' & E & _).
  rewrite E. destruct r as [d|e].
  - match goal with |- context [detached (fetchPrivateDrawings _ ?u ?k ?p) ?p ?w1] =>
      destruct (fetchPrivateDrawings_sent u k p w1) as [H|H] end;
      cbv zeta in H; rewrite H; cbn [sent set_server set_sent].
    + exists []. auto.
    + eexists. rewrite <- app_assoc. split; [reflexivity|]. now right.
  - exists []. cbn [snd]. auto.
Qed.

End RemoveFacts.
End RemoveFacts.

(** X22. When [handleRemoveFromVault] does nothing, and when it gives up.
    Without a session key, without a drawing of that id in the list, or
    when the drawing has no ciphertext or no IV (or an empty one), the
    handler changes nothing. When the record does not open, it sends
    nothing either: it logs the error and the page shows "Failed to
    remove drawing from vault", with the list as it was. *)
Theorem remove_does_nothing_or_reports (P : WebPlatform) (B : Backend)
    (json_text : JSON -> string) (json_array_text : list JSON -> string)
    (drawings_of : ResponseData -> Result (list (Types.Drawing JSON)))
    (id : string) (page : PrivateDrawings.PageState JSON) (w : World) :
  let remove :=
    PrivateDrawings.handleRemoveFromVault json_text json_array_text drawings_of
      id page in
  let found :=
    find (fun d => String.eqb (Types.id d) id) (PrivateDrawings.drawings page) in
  (sessionKey w = None -> remove w = (inl page, w))
  /\ (found = None -> remove w = (inl page, w))
  /\ (forall drawing,
        found = Some drawing ->
        Types.encryptedData drawing = None \/ Types.encryptedData drawing = Some ""
        \/ Types.iv drawing = None \/ Types.iv drawing = Some "" ->
        remove w = (inl page, w))
  /\ (forall key drawing encryptedData iv e,
        sessionKey w = Some key ->
        found = Some drawing ->
        Types.encryptedData drawing = Some encryptedData -> encryptedData <> "" ->
        Types.iv drawing = Some iv -> iv <> "" ->
        fst (Crypto.decryptDrawing encryptedData iv key w) = inr e ->
        remove w
        = (inl (PrivateDrawings.mkPageState (PrivateDrawings.drawings page)
                  (PrivateDrawings.isLoading page)
                  (Some "Failed to remove drawing from vault")),
           set_console
             (console w ++ [("Failed to remove drawing from vault:", e)]) w)).
Proof.
  cbv zeta. split; [|split; [|split]].
  - intros Hkey. unfold PrivateDrawings.handleRemoveFromVault.
    unfold bind at 1 2, get. cbn [fst snd]. now rewrite Hkey.
  - intros Hfind. unfold PrivateDrawings.handleRemoveFromVault.
    unfold bind at 1 2, get. cbn [fst snd]. rewrite Hfind.
    now destruct (sessionKey w).
  - intros drawing Hfind Hmissing. unfold PrivateDrawings.handleRemoveFromVault.
    unfold bind at 1 2, get. cbn [fst snd]. rewrite Hfind.
    destruct (sessionKey w); [|reflexivity].
    destruct Hmissing as [H|[H|[H|H]]]; rewrite H; cbn [PrivateDrawings.truthy];
      cbn [String.eqb]; try reflexivity;
      now destruct (PrivateDrawings.truthy (Types.encryptedData drawing)).
  - intros key drawing encryptedData iv e Hkey Hfind Hct Hct' Hiv Hiv' Hopen.
    rewrite (RemoveFacts.handleRemoveFromVault_run json_text json_array_text
               drawings_of id page w key drawing encryptedData iv Hkey Hfind).
    + cbv zeta. now rewrite Hopen.
    + now apply RemoveFacts.truthy_Some.
    + now apply RemoveFacts.truthy_Some.
Qed.

(** X23. [handleRemoveFromVault] sends nothing it has not opened. If a
    call of the handler sent any request, then a session key was held,
    the drawing was in the list with a ciphertext and an IV, the record
    opened under the session key, and the first request sent is the one
    that carries the opened content to the backend in the clear; the only
    other request is the one for the list of private drawings. *)
Theorem remove_sends_only_what_it_opened (P : WebPlatform) (B : Backend)
    (json_text : JSON -> string) (json_array_text : list JSON -> string)
    (drawings_of : ResponseData -> Result (list (Types.Drawing JSON)))
    (id : string) (page : PrivateDrawings.PageState JSON) (w : World)
    (Hsent :
       sent (Session.after
               (PrivateDrawings.handleRemoveFromVault json_text json_array_text
                  drawings_of id page) w)
       <> sent w) :
  exists key drawing encryptedData iv data rest,
    sessionKey w = Some key
    /\ find (fun d => String.eqb (Types.id d) id) (PrivateDrawings.drawings page)
       = Some drawing
    /\ Types.encryptedData drawing = Some encryptedData
    /\ Types.iv drawing = Some iv
    /\ fst (Crypto.decryptDrawing encryptedData iv key w) = inl data
    /\ sent (Session.after
               (PrivateDrawings.handleRemoveFromVault json_text json_array_text
                  drawings_of id page) w)
       = sent w ++ unlock_request json_text json_array_text id data :: rest
    /\ (rest = [] \/ rest = [mkRequest GET "/drawings/private" []]).
Proof.
  unfold Session.after in *.
  destruct (sessionKey w) as [key|] eqn:Hkey.
  2:{ exfalso. apply Hsent. unfold PrivateDrawings.handleRemoveFromVault.
      unfold bind at 1 2, get. cbn [fst snd]. now rewrite Hkey. }
  destruct (find (fun d => String.eqb (Types.id d) id) (PrivateDrawings.drawings page))
    as [drawing|] eqn:Hfind.
  2:{ exfalso. apply Hsent. unfold PrivateDrawings.handleRemoveFromVault.
      unfold bind at 1 2, get. cbn [fst snd]. now rewrite Hkey, Hfind. }
  destruct (PrivateDrawings.truthy (Types.encryptedData drawing))
    as [encryptedData|] eqn:Hct.
  2:{ exfalso. apply Hsent. unfold PrivateDrawings.handleRemoveFromVault.
      unfold bind at 1 2, get. cbn [fst snd]. now rewrite Hkey, Hfind, Hct. }
  destruct (PrivateDrawings.truthy (Types.iv drawing)) as [iv|] eqn:Hiv.
  2:{ exfalso. apply Hsent. unfold PrivateDrawings.handleRemoveFromVault.
      unfold bind at 1 2, get. cbn [fst snd]. now rewrite Hkey, Hfind, Hct, Hiv. }
  destruct (fst (Crypto.decryptDrawing encryptedData iv key w)) as [data|e] eqn:Hopen.
  2:{ exfalso. apply Hsent.
      rewrite (RemoveFacts.handleRemoveFromVault_run json_text json_array_text
                 drawings_of id page w key drawing encryptedData iv Hkey Hfind Hct Hiv).
      cbv zeta. now rewrite Hopen. }
  destruct (RemoveFacts.opened_is_sent json_text json_array_text drawings_of
              id page w key drawing encryptedData iv data Hkey Hfind Hct Hiv Hopen)
    as (rest & Hrest & Htail).
  apply RemoveFacts.truthy_Some in Hct as [Hct _].
  apply RemoveFacts.truthy_Some in Hiv as [Hiv _].
  exists key, drawing, encryptedData, iv, data, rest. auto 10.
Qed.

Lemma remove_sends_only_what_it_opened_witness :
  exists rest,
    sent (Session.after
            (PrivateDrawings.handleRemoveFromVault (P:=Symbolic.platform)
               Sample2.json_text Sample2.json_array_text Sample2.drawings_of
               "d1" Sample2.page) Sample.stored_tab)
    = sent Sample.stored_tab
      ++ unlock_request (P:=Symbolic.platform) Sample2.json_text
           Sample2.json_array_text "d1" Sample.drawing :: rest.
Proof.
  destruct (remove_sends_only_what_it_opened Symbolic.platform Symbolic.backend
              Sample2.json_text Sample2.json_array_text Sample2.drawings_of
              "d1" Sample2.page Sample.stored_tab)
    as (key & drawing & encryptedData & iv & data & rest
        & Hkey & Hfind & Hct & Hiv & Hopen & Hsent & _).
  - vm_compute. discriminate.
  - exists rest. rewrite Hsent. do 2 f_equal.
    injection Hkey as <-. injection Hfind as <-.
    injection Hct as <-. injection Hiv as <-.
    vm_compute in Hopen. now injection Hopen as <-.
Defined.

(** X24. Out of the vault in the clear. On a runtime whose built-ins keep
    their laws, if the page lists a drawing with the ciphertext and IV
    that [encryptDrawing] made of some content under the session key,
    then [handleRemoveFromVault] sends that very content, elements,
    application state and files, to the backend unencrypted; the only
    request after it is the one for the list of private drawings. *)
Theorem remove_sends_plaintext (P : WebPlatform) (B : Backend)
    (laws : WebPlatformLaws P)
    (json_text : JSON -> string) (json_array_text : list JSON -> string)
    (drawings_of : ResponseData -> Result (list (Types.Drawing JSON)))
    (id : string) (page : PrivateDrawings.PageState JSON) (w w0 : World)
    (key : CryptoKey) (data : DrawingData JSON) (enc : Crypto.EncryptedDrawing)
    (drawing : Types.Drawing JSON)
    (Hkey : sessionKey w = Some key)
    (Hvault : vault_key key)
    (Hsealed : fst (Crypto.encryptDrawing data key w0) = inl enc)
    (Hfind : find (fun d => String.eqb (Types.id d) id) (PrivateDrawings.drawings page)
             = Some drawing)
    (Hct : Types.encryptedData drawing = Some (Crypto.encryptedData enc))
    (Hiv : Types.iv drawing = Some (Crypto.iv enc))
    (Hnonempty : Crypto.encryptedData enc <> "") :
  exists rest,
    sent (Session.after
            (PrivateDrawings.handleRemoveFromVault json_text json_array_text
               drawings_of id page) w)
    = sent w
      ++ mkRequest PUT ("/drawings/" +:+ id +:+ "/unlock")
           [("elements", json_array_text (elements data));
            ("appState", json_text (appState data));
            ("files", json_text (files data))]
         :: rest
    /\ (rest = [] \/ rest = [mkRequest GET "/drawings/private" []]).
Proof.
  destruct (SealFacts.sealed_opens laws data key w0 enc Hvault Hsealed)
    as (Hlen & Hopen).
  apply (RemoveFacts.opened_is_sent json_text json_array_text drawings_of
           id page w key drawing (Crypto.encryptedData enc) (Crypto.iv enc) data
           Hkey Hfind).
  - apply RemoveFacts.truthy_Some. auto.
  - apply RemoveFacts.truthy_Some. split; [exact Hiv|].
    intros E. rewrite E in Hlen. discriminate Hlen.
  - now rewrite Hopen.
Qed.

Lemma remove_sends_plaintext_witness :
  exists rest,
    sent (Session.after
            (PrivateDrawings.handleRemoveFromVault (P:=Symbolic.platform)
               Sample2.json_text Sample2.json_array_text Sample2.drawings_of
               "d1" Sample2.page) Sample.stored_tab)
    = sent Sample.stored_tab
      ++ mkRequest PUT "/drawings/d1/unlock"
           [("elements", "tft"); ("appState", "false"); ("files", "true")]
         :: rest.
Proof.
  destruct (remove_sends_plaintext Symbolic.platform Symbolic.backend
              SymbolicFacts.laws
              Sample2.json_text Sample2.json_array_text Sample2.drawings_of
              "d1" Sample2.page Sample.stored_tab Sample.unlocked_tab
              Sample2.key Sample.drawing Sample2.enc1 Sample2.private_drawing)
    as (rest & Hsent & _).
  - reflexivity.
  - repeat split.
  - vm_compute. reflexivity.
  - reflexivity.
  - reflexivity.
  - reflexivity.
  - discriminate.
  - exists rest. exact Hsent.
Defined.

(** X25. [fetchPrivateDrawings] never rejects and never touches the
    provider's state, key or salt. Unless the vault is unlocked with a
    key it does nothing at all. Otherwise it sends one GET and ends with
    [isLoading] false: either the list is the answer's and no error is
    shown, or (request failed, or the answer is no list) the error is
    logged, the list stays as it was and the page shows "Failed to load
    private drawings". *)
Theorem fetchPrivateDrawings_settles (P : WebPlatform) (B : Backend)
    (drawings_of : ResponseData -> Result (list (Types.Drawing JSON)))
    (vault_isUnlocked : bool) (vault_sessionKey : option CryptoKey)
    (page : PrivateDrawings.PageState JSON) (w : World) :
  let fetch :=
    PrivateDrawings.fetchPrivateDrawings drawings_of vault_isUnlocked
      vault_sessionKey page in
  let w' := Session.after fetch w in
  exists page',
    fetch w = (inl page', w')
    /\ state w' = state w /\ sessionKey w' = sessionKey w /\ salt w' = salt w
    /\ (vault_isUnlocked = false \/ vault_sessionKey = None ->
        page' = page /\ w' = w)
    /\ (vault_isUnlocked = true -> vault_sessionKey <> None ->
        PrivateDrawings.isLoading page' = false
        /\ sent w' = sent w ++ [mkRequest GET "/drawings/private" []]
        /\ ((PrivateDrawings.error page' = None /\ console w' = console w
             /\ exists d,
                  fst (http (mkRequest GET "/drawings/private" []) w) = inl d
                  /\ drawings_of d = inl (PrivateDrawings.drawings page'))
            \/ (PrivateDrawings.error page' = Some "Failed to load private drawings"
                /\ PrivateDrawings.drawings page' = PrivateDrawings.drawings page
                /\ exists e,
                     console w'
                     = console w ++ [("Failed to fetch private drawings:", e)]))).
Proof.
  cbv zeta. unfold Session.after, PrivateDrawings.fetchPrivateDrawings,
    PrivateDrawings.getPrivateDrawings.
  destruct vault_isUnlocked; cbn [negb orb].
  2:{ exists page. repeat split; discriminate. }
  destruct vault_sessionKey as [key|]; cbn [negb].
  2:{ rewrite bool_decide_eq_false_2 by (intros [? [=]]). cbn [negb].
      exists page. repeat split; congruence. }
  rewrite bool_decide_eq_true_2 by (now eexists). cbn [negb].
  unfold try_catch, bind, ret, await, console_error, modify.
  destruct (FormFacts.http_world (mkRequest GET "/drawings/private" []) w)
    as (r & s' & E & _).
  rewrite E. cbn [fst].
  assert (Hguard : ~ (true = false \/ Some key = None)) by (intros [?|?]; discriminate).
  destruct r as [d|e]; [destruct (drawings_of d) as [list|e] eqn:Hlist|];
    eexists; (split; [reflexivity|]); cbn [snd]; VaultFacts.world_simpl;
    (split; [reflexivity|]); (split; [reflexivity|]); (split; [reflexivity|]);
    (split; [intros H; contradiction (Hguard H)|]); intros _ _;
    (split; [reflexivity|]); (split; [reflexivity|]);
    cbn [PrivateDrawings.error PrivateDrawings.drawings].
  - left. rewrite map_id. repeat split. eauto.
  - right. repeat split. eauto.
  - right. repeat split. eauto.
Qed.

(** ** The auto-lock timer, task by task *)

Module ScheduleFacts.
Import VaultContext VaultFacts FormFacts ContextMore UnlockFacts.

Section ScheduleFacts.
Context {P : WebPlatform} {B : Backend}.






















(** *** No task sets another delay *)



Lemma timer_frame_paced (w w' : World) : timer_frame w w' -> paced w w'.
Proof. intros (Hc & Ht & _). split; [exact Hc|]. rewrite Ht. auto. Qed.

Lemma frame_paced (w w' : World) : frame w w' -> paced w w'.
Proof. intros F. now apply timer_frame_paced, frame_timer_frame. Qed.








(** *** The session key *)


(** *** Every event with its render at once is a run of tasks *)

Lemma react_run (e : Session.Event) (w w' : World) :
  armed w -> Session.react e w = Some w' ->
  exists ts, Schedule.run ts w = Some w'.
Proof.
  intros (Hd & _) He.
  assert (Hr : Schedule.rendered w = true).
  { unfold Schedule.rendered. rewrite Hd. apply Bool.eqb_reflx. }
  destruct e as [c| |id|ms|up]; cbn [Session.react] in He.
  - exists [Schedule.task_call c; Schedule.task_render].
    cbn [Schedule.run Schedule.perform]. rewrite Hr. cbn [negb].
    rewrite andb_false_r. exact He.
  - exists [Schedule.task_activity; Schedule.task_render]. exact He.
  - exists [Schedule.task_timer id; Schedule.task_render].
    cbn [Schedule.run Schedule.perform].
    destruct (timers w !! id); [|discriminate].
    destruct (_ <=? _)%Z; [exact He | discriminate].
  - exists [Schedule.task_time ms]. cbn [Schedule.run Schedule.perform].
    now destruct (bool_decide _).
  - exists [Schedule.task_network up]. exact He.
Qed.

Lemma run_attainable (ts : list Schedule.Task) : forall w w' : World,
  Schedule.attainable w -> Schedule.run ts w = Some w' -> Schedule.attainable w'.
Proof.
  induction ts as [|t ts IH]; intros w w' Hw; cbn [Schedule.run].
  - now intros [= <-].
  - destruct (Schedule.perform t w) as [w1|] eqn:Ht; [|discriminate].
    apply IH. exact (Schedule.attainable_perform w t w1 Hw Ht).
Qed.

Lemma reachable_attainable (w : World) :
  Session.reachable w -> Schedule.attainable w.
Proof.
  induction 1 as [rnd up s|w e w' Hreach IH He].
  - apply Schedule.attainable_initial.
  - destruct (react_run e w w' (reachable_armed w Hreach) He) as (ts & Hts).
    exact (run_attainable ts w w' IH Hts).
Qed.

End ScheduleFacts.
End ScheduleFacts.



